(** * Coven end-to-end harnesses: a shallow embedding

    Two programs are modelled:
    - [Gateway]: [e2e/test_runner.py], the HTTP/SSE scenario runner;
    - [Jail]: [.scratch-archive/fold-swarm/test-jail-integration.py], the
      WebSocket scenario runner.

    The network, the clock and the file system are an explicit world that
    every operation threads through: the k-th network operation of a run ends
    the way the k-th event of the world's script says, and takes the time it
    says.  Wall-clock time is counted in whole milliseconds and never runs
    backwards; what [int((time.time() - start) * 1000)] makes of two readings
    of the clock is left to the runtime, the subtraction being one of
    floats.  Python exceptions are values carrying the names of their
    classes, so that every [except] clause of the source is the class test
    it is in Python.  [assert] statements are executed.  The loops that wait
    for a server are given as many turns as their deadline allows, and are
    proved never to need more.  Of a line printed with a constant text the
    text is kept and the blank lines around it are not; a line that [rich]
    is given with a value of the run in it is printed only if its markup
    renders, and raises [MarkupError] otherwise.  [wait_for_agents], which
    nothing calls, is modelled apart, in [GatewayAgents]. *)

From Stdlib Require Import ZArith List String Ascii Bool Lia Arith PeanoNat.
From Stdlib Require Import DecimalString.
Import ListNotations.
Local Open Scope string_scope.
Local Open Scope Z_scope.
Set Warnings "-register-all".

(** ** Python values and exceptions *)

(** An exception object: the names of its classes (its method resolution
    order) and [str(e)]. *)
Record exn := mkExn { mro : list string; message : string }.

Definition isinstance (e : exn) (cls : string) : bool :=
  existsb (String.eqb cls) (mro e).

Definition Exception_bases : list string := ["Exception"; "BaseException"].

Definition TypeError (msg : string) : exn :=
  mkExn ("TypeError" :: Exception_bases) msg.
Definition AttributeError (msg : string) : exn :=
  mkExn ("AttributeError" :: Exception_bases) msg.
Definition KeyError (msg : string) : exn :=
  mkExn ("KeyError" :: "LookupError" :: Exception_bases) msg.
Definition AssertionError (msg : string) : exn :=
  mkExn ("AssertionError" :: Exception_bases) msg.
Definition JSONDecodeError (msg : string) : exn :=
  mkExn ("JSONDecodeError" :: "ValueError" :: Exception_bases) msg.
Definition ValueError (msg : string) : exn :=
  mkExn ("ValueError" :: Exception_bases) msg.
Definition RecursionError (msg : string) : exn :=
  mkExn ("RecursionError" :: "RuntimeError" :: Exception_bases) msg.
(** [rich.errors.MarkupError] *)
Definition MarkupError (msg : string) : exn :=
  mkExn ("MarkupError" :: "ConsoleError" :: Exception_bases) msg.

(** How a call ends: it returns or it raises. *)
Inductive outcome (A : Type) : Type :=
| Returns (a : A)
| Raises (e : exn).
Arguments Returns {A} a.
Arguments Raises {A} e.

(** How [asyncio.run(run_tests())] ends: the coroutine returns its verdict,
    an exception leaves it, or [sys.exit(code)] was called inside. *)
Inductive ending : Type :=
| Finished (success : bool)
| Uncaught (e : exn)
| SysExit (code : Z).

Definition finish (r : outcome bool) : ending :=
  match r with
  | Returns b => Finished b
  | Raises e => Uncaught e
  end.

Definition returned {A} (o : outcome A) : bool :=
  match o with Returns _ => true | _ => false end.

(** What [json.loads] builds.  [JNull] is Python's [None]; a [JObj] lists the
    items of the resulting [dict] (its keys are distinct). *)
Inductive json : Type :=
| JNull
| JBool (b : bool)
| JNum (n : Z)
| JFloat (literal : string)
| JStr (s : string)
| JArr (items : list json)
| JObj (items : list (string * json)).

Definition is_None (v : json) : bool :=
  match v with JNull => true | _ => false end.

Definition type_name (v : json) : string :=
  match v with
  | JNull => "NoneType" | JBool _ => "bool" | JNum _ => "int"
  | JFloat _ => "float" | JStr _ => "str" | JArr _ => "list"
  | JObj _ => "dict"
  end.

(** [v == s] for a Python [str] [s]. *)
Definition eq_str (v : json) (s : string) : bool :=
  match v with JStr t => String.eqb t s | _ => false end.

Fixpoint dict_get (k : string) (d : list (string * json)) : option json :=
  match d with
  | [] => None
  | (k', v) :: rest => if String.eqb k k' then Some v else dict_get k rest
  end.

Definition dict_has (k : string) (d : list (string * json)) : bool :=
  match dict_get k d with Some _ => true | None => false end.

(** *** Strings *)

Definition newline : ascii := "010"%char.
Definition dquote : string := String "034"%char EmptyString.

(** [s.split("\n")] *)
Fixpoint split_lines (s : string) : list string :=
  match s with
  | EmptyString => [EmptyString]
  | String c rest =>
      if Ascii.eqb c newline then EmptyString :: split_lines rest
      else match split_lines rest with
           | line :: more => String c line :: more
           | [] => [String c EmptyString]
           end
  end.

(** [s[n:]] *)
Fixpoint drop (n : nat) (s : string) : string :=
  match n, s with
  | O, _ => s
  | S n', String _ rest => drop n' rest
  | S _, EmptyString => EmptyString
  end.

(** [needle in hay] on two [str]. *)
Fixpoint contains (needle hay : string) : bool :=
  String.prefix needle hay ||
  match hay with
  | EmptyString => false
  | String _ rest => contains needle rest
  end.

Definition lower_ascii (c : ascii) : ascii :=
  let n := nat_of_ascii c in
  if (Nat.leb 65 n && Nat.leb n 90)%bool then ascii_of_nat (n + 32) else c.

(** [s.lower()], on the ASCII range. *)
Fixpoint lower (s : string) : string :=
  match s with
  | EmptyString => EmptyString
  | String c rest => String (lower_ascii c) (lower rest)
  end.

Definition str_of_Z (z : Z) : string := NilZero.string_of_int (Z.to_int z).

(** *** Operators on decoded values *)

Definition chars (s : string) : list json :=
  map (fun c => JStr (String c EmptyString)) (list_ascii_of_string s).

(** [k in v] *)
Definition py_in (k : string) (v : json) : outcome bool :=
  match v with
  | JObj d => Returns (dict_has k d)
  | JArr l => Returns (existsb (fun x => eq_str x k) l)
  | JStr s => Returns (contains k s)
  | _ => Raises (TypeError ("argument of type '" ++ type_name v ++ "' is not iterable"))
  end.

(** [v[k]] for a [str] key [k] *)
Definition py_getitem (v : json) (k : string) : outcome json :=
  match v with
  | JObj d => match dict_get k d with
              | Some x => Returns x
              | None => Raises (KeyError ("'" ++ k ++ "'"))
              end
  | JArr _ => Raises (TypeError "list indices must be integers or slices, not str")
  | JStr _ => Raises (TypeError "string indices must be integers")
  | _ => Raises (TypeError ("'" ++ type_name v ++ "' object is not subscriptable"))
  end.

(** [v.get(k)] *)
Definition py_get (v : json) (k : string) : outcome json :=
  match v with
  | JObj d => Returns (match dict_get k d with Some x => x | None => JNull end)
  | _ => Raises (AttributeError ("'" ++ type_name v ++ "' object has no attribute 'get'"))
  end.

(** [len(v)] *)
Definition py_len (v : json) : outcome nat :=
  match v with
  | JStr s => Returns (String.length s)
  | JArr l => Returns (List.length l)
  | JObj d => Returns (List.length d)
  | _ => Raises (TypeError ("object of type '" ++ type_name v ++ "' has no len()"))
  end.

(** [v.lower()] *)
Definition py_lower (v : json) : outcome string :=
  match v with
  | JStr s => Returns (lower s)
  | _ => Raises (AttributeError ("'" ++ type_name v ++ "' object has no attribute 'lower'"))
  end.

(** The elements a [for] loop over [v] visits. *)
Definition py_iter (v : json) : outcome (list json) :=
  match v with
  | JArr l => Returns l
  | JObj d => Returns (map (fun kv => JStr (fst kv)) d)
  | JStr s => Returns (chars s)
  | _ => Raises (TypeError ("'" ++ type_name v ++ "' object is not iterable"))
  end.

(** How [json.loads] fails on a text it does not decode: the text is
    malformed ([json.JSONDecodeError]), an integer literal has more digits
    than [int()] converts (a plain [ValueError]), or the nesting is deeper
    than the interpreter recurses ([RecursionError]). *)
Inductive decode_failure : Type :=
| Malformed (msg : string)
| DigitLimit (msg : string)
| TooDeep (msg : string).

Definition decode_exn (f : decode_failure) : exn :=
  match f with
  | Malformed msg => JSONDecodeError msg
  | DigitLimit msg => ValueError msg
  | TooDeep msg => RecursionError msg
  end.

(** The parts of the Python runtime and of the libraries the harnesses call
    and do not define: the JSON decoder and how it fails, [str()] of a
    decoded value and of a set of such values (given as a list of its
    elements), the message of the [MarkupError] that [rich] raises on a
    text whose markup it cannot render, and [int((t1 - t0) * 1000)] for two
    readings [t0], [t1] of [time.time()], given here in milliseconds. *)
Class PyRuntime := {
  json_loads : string -> option json;
  decode_failure_of : string -> decode_failure;
  py_str : json -> string;
  set_str : list json -> string;
  markup_error : string -> option string;
  ms_between : Z -> Z -> Z
}.

(** What [json.loads] raises on a text it does not decode, and [str()] of
    it. *)
Definition decode_error `{PyRuntime} (s : string) : exn :=
  decode_exn (decode_failure_of s).

Definition decode_error_text `{PyRuntime} (s : string) : string :=
  message (decode_error s).

Definition loads `{PyRuntime} (s : string) : outcome json :=
  match json_loads s with
  | Some v => Returns v
  | None => Raises (decode_error s)
  end.

(** What rendering a text as console markup raises.  [rich] does not parse a
    text that holds no opening bracket. *)
Definition render_error `{PyRuntime} (text : string) : option exn :=
  if contains "[" text then option_map MarkupError (markup_error text)
  else None.

(** The first text of a list that does not render. *)
Fixpoint first_render_error `{PyRuntime} (texts : list string) : option exn :=
  match texts with
  | [] => None
  | t :: rest =>
      match render_error t with
      | Some e => Some e
      | None => first_render_error rest
      end
  end.

(** *** Sequencing calls that may raise *)

Definition obind {A B} (o : outcome A) (k : A -> outcome B) : outcome B :=
  match o with
  | Returns a => k a
  | Raises e => Raises e
  end.

Notation "x <~ c1 ;; c2" := (obind c1 (fun x => c2))
  (at level 61, c1 at next level, right associativity).

(** A list comprehension [[f(a) for a in l]]: the first failure ends it. *)
Fixpoint comprehension {A B} (f : A -> outcome B) (l : list A) : outcome (list B) :=
  match l with
  | [] => Returns []
  | a :: rest => b <~ f a ;; bs <~ comprehension f rest ;; Returns (b :: bs)
  end.

Definition except_ {A} (cls : string) (body : outcome A)
    (handler : exn -> outcome A) : outcome A :=
  match body with
  | Raises e => if isinstance e cls then handler e else Raises e
  | r => r
  end.

(** *** Calls that act on a world

    A call takes the world it runs in and gives how it ends and the world it
    leaves. *)

Definition Run (W A : Type) : Type := W -> outcome A * W.

Definition ret {W A} (a : A) : Run W A := fun w => (Returns a, w).

Definition bind {W A B} (m : Run W A) (k : A -> Run W B) : Run W B :=
  fun w =>
    match m w with
    | (Returns a, w1) => k a w1
    | (Raises e, w1) => (Raises e, w1)
    end.

Notation "x <- c1 ;; c2" := (bind c1 (fun x => c2))
  (at level 61, c1 at next level, right associativity).
Notation "c1 ;;; c2" := (bind c1 (fun _ => c2))
  (at level 61, right associativity).

Definition lift {W A} (o : outcome A) : Run W A := fun w => (o, w).

(** [try: body  except (classes) as e: handler e] *)
Definition try_except {W A} (classes : list string) (body : Run W A)
    (handler : exn -> Run W A) : Run W A :=
  fun w =>
    match body w with
    | (Raises e, w1) =>
        if existsb (isinstance e) classes then handler e w1 else (Raises e, w1)
    | r => r
    end.

(** The status a process ends with: [sys.exit(0 if success else 1)], the
    code given to [sys.exit], or 1 for an exception nobody caught. *)
Definition exit_code (r : ending) : Z :=
  match r with
  | Finished true => 0
  | Finished false => 1
  | Uncaught _ => 1
  | SysExit c => c
  end.

(** ** The gateway runner ([e2e/test_runner.py]) *)

Module Gateway.

Definition TIMEOUT_SECONDS : Z := 120.

Record TestResult := {
  name : string;
  passed : bool;
  duration_ms : Z;
  error : option string
}.

Record Response := { status_code : Z; text : string }.

(** A request as the client was asked to make it, below [GATEWAY_URL]. *)
Inductive request : Type :=
| GET (path : string)
| POST (path : string) (agent_id : json) (content sender : string) (timeout : Z).

(** What the network does with one request. *)
Inductive answer : Type :=
| Answers (r : Response)
| Fails (e : exn).

Record http_event := { elapsed : nat; reply : answer }.

(** Calls of [console.print], by what they show. *)
Inductive console_event : Type :=
| Say (line : string)
| SayAgents (agent_ids : list json)
| SayTesting (agent_id : json)
| SayTable (rows : list (string * string * string * string))
| SaySummary (n_passed n_failed : nat)
| SayWritten (path : string).

(** The document [json.dump] writes. *)
Record Summary := {
  sum_passed : nat;
  sum_failed : nat;
  sum_results : list TestResult
}.

(** What a run is given: the outcome of the k-th request, the clock at the
    start, whether [/results] exists and whether opening the file fails. *)
Record Env := {
  script : nat -> http_event;
  clock0 : Z;
  results_dir_exists : bool;
  open_error : option exn
}.

(** The state of a run.  [results] is the local list of [run_tests];
    [written] is the content of [/results/e2e-results.json]. *)
Record World := {
  env : Env;
  now : Z;
  cursor : nat;
  requests : list request;
  console : list console_event;
  results : list TestResult;
  written : option Summary
}.

Definition boot (e : Env) : World :=
  {| env := e; now := clock0 e; cursor := O; requests := [];
     console := []; results := []; written := None |}.

Definition M : Type -> Type := Run World.

Definition time_time : M Z := fun w => (Returns (now w), w).

Definition sleep (ms : Z) : M unit := fun w =>
  (Returns tt,
   {| env := env w; now := now w + ms; cursor := cursor w;
      requests := requests w; console := console w; results := results w;
      written := written w |}).

Definition console_print (ev : console_event) : M unit := fun w =>
  (Returns tt,
   {| env := env w; now := now w; cursor := cursor w;
      requests := requests w; console := console w ++ [ev];
      results := results w; written := written w |}).

(** [results.append(r)] *)
Definition results_append (r : TestResult) : M unit := fun w =>
  (Returns tt,
   {| env := env w; now := now w; cursor := cursor w;
      requests := requests w; console := console w;
      results := results w ++ [r]; written := written w |}).

(** One request: the network's next event decides how it ends and how long
    it takes. *)
Definition send_request (rq : request) : M Response := fun w =>
  let ev := script (env w) (cursor w) in
  let w1 := {| env := env w; now := now w + Z.of_nat (elapsed ev);
               cursor := S (cursor w); requests := requests w ++ [rq];
               console := console w; results := results w;
               written := written w |} in
  match reply ev with
  | Answers r => (Returns r, w1)
  | Fails e => (Raises e, w1)
  end.

Definition client_get (path : string) : M Response := send_request (GET path).

Definition client_post (path : string) (agent_id : json) (content sender : string)
    (timeout : Z) : M Response :=
  send_request (POST path agent_id content sender timeout).

Section Scenarios.
Context `{PyRuntime}.

(** [console.print(text)] for a text with a value of the run in it: [rich]
    renders the markup before it writes anything. *)
Definition console_print_markup (text : string) (ev : console_event) : M unit :=
  fun w =>
    match render_error text with
    | Some e => (Raises e, w)
    | None => console_print ev w
    end.

(** *** Readiness *)

(** The [try] of lines 40-46: [true] when it ends in [return True], [false]
    when the loop goes on. *)
Definition probe_once : M bool :=
  try_except ["Exception"]
    (resp <- client_get "/health" ;;
     if status_code resp =? 200
     then console_print (Say "[green]✓ Gateway is ready[/green]") ;;; ret true
     else ret false)
    (fun _ => ret false).

Fixpoint wait_for_gateway_loop (fuel : nat) (start max_wait : Z) (w : World)
    : option (outcome bool * World) :=
  match fuel with
  | O => None
  | S fuel' =>
      if now w - start <? max_wait * 1000 then
        match probe_once w with
        | (Returns true, w1) => Some (Returns true, w1)
        | (Returns false, w1) =>
            wait_for_gateway_loop fuel' start max_wait (snd (sleep 1000 w1))
        | (Raises e, w1) => Some (Raises e, w1)
        end
      else
        Some ((console_print (Say "[red]✗ Gateway did not become ready[/red]") ;;;
               ret false) w)
  end.

(** Every turn of the loop that does not return sleeps one second, so
    [max_wait + 1] turns are never exceeded. *)
Definition wait_for_gateway (max_wait : Z) (w : World)
    : option (outcome bool * World) :=
  let w0 := snd (console_print
                   (Say "[yellow]Waiting for gateway to be ready...[/yellow]") w) in
  wait_for_gateway_loop (S (Z.to_nat max_wait)) (now w0) max_wait w0.

(** *** [send_message] *)

Record SendResult := {
  sr_status_code : Z;
  sr_events : list json;
  sr_full_response : json
}.

(** One turn of the loop over the lines of the body; the state is
    [(events, full_response)]. *)
Definition sse_line (line : string) (acc : list json * json)
    : outcome (list json * json) :=
  if String.prefix "data: " line then
    match loads (drop 6 line) with
    | Returns data =>
        let events := (fst acc ++ [data])%list in
        except_ "JSONDecodeError"
          (has <~ py_in "full_response" data ;;
           if has : bool
           then v <~ py_getitem data "full_response" ;; Returns (events, v)
           else Returns (events, snd acc))
          (fun _ => Returns (events, snd acc))
    | Raises e =>
        if isinstance e "JSONDecodeError" then Returns acc else Raises e
    end
  else Returns acc.

Fixpoint sse_lines (lines : list string) (acc : list json * json)
    : outcome (list json * json) :=
  match lines with
  | [] => Returns acc
  | line :: rest => acc' <~ sse_line line acc ;; sse_lines rest acc'
  end.

Definition parse_sse (body : string) : outcome (list json * json) :=
  sse_lines (split_lines body) ([], JNull).

Definition send_message (agent_id : json) (content : string) : M SendResult :=
  resp <- client_post "/api/send" agent_id content "e2e-test"
            TIMEOUT_SECONDS ;;
  parsed <- lift (parse_sse (text resp)) ;;
  ret {| sr_status_code := status_code resp;
         sr_events := fst parsed;
         sr_full_response := snd parsed |}.

(** *** Scenario tests *)

(** The [except Exception as e] branch every scenario ends with. *)
Definition failed_with (nm : string) (start : Z) (e : exn) : M TestResult :=
  t <- time_time ;;
  ret {| name := nm; passed := false; duration_ms := ms_between start t;
         error := Some (message e) |}.

Definition test_gateway_health : M TestResult :=
  start <- time_time ;;
  try_except ["Exception"]
    (resp <- client_get "/health" ;;
     let ok := status_code resp =? 200 in
     t <- time_time ;;
     ret {| name := "gateway-health"; passed := ok; duration_ms := ms_between start t;
            error := if ok then None
                     else Some ("Status code: " ++ str_of_Z (status_code resp)) |})
    (failed_with "gateway-health" start).

Definition is_list (v : json) : bool :=
  match v with JArr _ => true | _ => false end.

Definition test_agent_list : M TestResult :=
  start <- time_time ;;
  try_except ["Exception"]
    (resp <- client_get "/api/agents" ;;
     ok <- lift (if status_code resp =? 200
                 then v <~ loads (text resp) ;; Returns (is_list v)
                 else Returns false) ;;
     t <- time_time ;;
     ret {| name := "agent-list"; passed := ok; duration_ms := ms_between start t;
            error := if ok : bool then None
                     else Some ("Response: " ++ text resp) |})
    (failed_with "agent-list" start).

Definition test_simple_message (agent_id : json) : M TestResult :=
  start <- time_time ;;
  let nm := "simple-message-" ++ py_str agent_id in
  try_except ["Exception"]
    (result <- send_message agent_id "Say hello briefly" ;;
     ok <- lift (if sr_status_code result =? 200
                 then if negb (is_None (sr_full_response result))
                      then n <~ py_len (sr_full_response result) ;;
                           Returns (Nat.ltb 0 n)
                      else Returns false
                 else Returns false) ;;
     t <- time_time ;;
     ret {| name := nm; passed := ok; duration_ms := ms_between start t;
            error := if ok : bool then None else Some "No response received" |})
    (failed_with nm start).

(** [any("tool_use" in str(e) or e.get("name") == "log_entry" for e in events)] *)
Fixpoint has_tool_use (events : list json) : outcome bool :=
  match events with
  | [] => Returns false
  | e :: rest =>
      if contains "tool_use" (py_str e) then Returns true
      else n <~ py_get e "name" ;;
           if eq_str n "log_entry" then Returns true else has_tool_use rest
  end.

(** [any("tool_result" in str(e) or "id" in str(e) for e in events)] *)
Definition has_tool_result (events : list json) : bool :=
  existsb (fun e => contains "tool_result" (py_str e) || contains "id" (py_str e))
          events.

Definition test_pack_tool_log_entry (agent_id : json) : M TestResult :=
  start <- time_time ;;
  secs <- time_time ;;
  let test_msg := "E2E test entry " ++ str_of_Z (secs / 1000) in
  let nm := "pack-tool-log-entry-" ++ py_str agent_id in
  try_except ["Exception"]
    (result <- send_message agent_id ("Use log_entry to log: " ++ test_msg) ;;
     let events := sr_events result in
     tool_use <- lift (has_tool_use events) ;;
     let tool_result := has_tool_result events in
     ok <- lift (if sr_status_code result =? 200
                 then if negb (is_None (sr_full_response result))
                      then if tool_use : bool then Returns true
                           else l <~ py_lower (sr_full_response result) ;;
                                Returns (contains "logged" l)
                      else Returns false
                 else Returns false) ;;
     t <- time_time ;;
     ret {| name := nm; passed := ok; duration_ms := ms_between start t;
            error := if ok : bool then None
                     else Some ("Response: " ++ py_str (sr_full_response result)) |})
    (failed_with nm start).

Definition test_pack_tool_log_search (agent_id : json) : M TestResult :=
  start <- time_time ;;
  let nm := "pack-tool-log-search-" ++ py_str agent_id in
  try_except ["Exception"]
    (result <- send_message agent_id
                 "Use log_search to find entries containing 'E2E'" ;;
     ok <- lift (if sr_status_code result =? 200
                 then if negb (is_None (sr_full_response result))
                      then l <~ py_lower (sr_full_response result) ;;
                           if contains "found" l then Returns true
                           else l' <~ py_lower (sr_full_response result) ;;
                                Returns (contains "entries" l')
                      else Returns false
                 else Returns false) ;;
     t <- time_time ;;
     ret {| name := nm; passed := ok; duration_ms := ms_between start t;
            error := if ok : bool then None
                     else Some ("Response: " ++ py_str (sr_full_response result)) |})
    (failed_with nm start).

(** *** Fan-out *)

Definition set_now (t : Z) (w : World) : World :=
  {| env := env w; now := t; cursor := cursor w; requests := requests w;
     console := console w; results := results w; written := written w |}.

(** [asyncio.gather] over the legs with [return_exceptions=True]: the legs issue their
    requests in order, each is answered by its own event, every leg starts at
    [t0] and the whole ends when the slowest has; what a leg raises is its
    entry in the list. *)
Fixpoint gather_legs {A} (t0 : Z) (legs : list (M A)) (w : World)
    : list (outcome A) * World :=
  match legs with
  | [] => ([], w)
  | leg :: rest =>
      let (r, w1) := leg (set_now t0 w) in
      let (rs, w2) := gather_legs t0 rest (set_now (Z.max (now w) (now w1)) w1) in
      (r :: rs, w2)
  end.

Definition gather {A} (legs : list (M A)) : M (list (outcome A)) := fun w =>
  let (rs, w') := gather_legs (now w) legs w in (Returns rs, w').

Definition fanout_prompt : string := "Respond with your agent id briefly".

(** [isinstance(r, dict) and r.get("full_response") is not None] *)
Definition leg_passed (r : outcome SendResult) : bool :=
  match r with
  | Returns d => negb (is_None (sr_full_response d))
  | _ => false
  end.

Definition test_parallel_messages (agent_ids : list json) : M TestResult :=
  start <- time_time ;;
  try_except ["Exception"]
    (let tasks := map (fun agent_id => send_message agent_id fanout_prompt)
                      agent_ids in
     rs <- gather tasks ;;
     let all_passed := forallb leg_passed rs in
     t <- time_time ;;
     ret {| name := "parallel-messages"; passed := all_passed;
            duration_ms := ms_between start t;
            error := if all_passed then None
                     else Some "Some agents failed to respond" |})
    (failed_with "parallel-messages" start).

(** *** [run_tests] *)

(** Lines 292-294: the agents the gateway lists. *)
Definition fetch_agent_ids : M (list json) :=
  resp <- client_get "/api/agents" ;;
  agents <- lift (if status_code resp =? 200 then loads (text resp)
                  else Returns (JArr [])) ;;
  items <- lift (py_iter agents) ;;
  lift (comprehension (fun a => py_getitem a "id") items).

(** The text of line 310, [Testing agent:] followed by the id, in bold. *)
Definition testing_text (agent_id : json) : string :=
  String newline ("[bold]Testing agent: " ++ py_str agent_id ++ "[/bold]").

Fixpoint per_agent_tests (agent_ids : list json) : M unit :=
  match agent_ids with
  | [] => ret tt
  | agent_id :: rest =>
      console_print_markup (testing_text agent_id) (SayTesting agent_id) ;;;
      r1 <- test_simple_message agent_id ;; results_append r1 ;;;
      r2 <- test_pack_tool_log_entry agent_id ;; results_append r2 ;;;
      r3 <- test_pack_tool_log_search agent_id ;; results_append r3 ;;;
      per_agent_tests rest
  end.

(** Lines 303-313. *)
Definition sequential_tests (agent_ids : list json) : M unit :=
  console_print (Say "[bold]Running infrastructure tests...[/bold]") ;;;
  r1 <- test_gateway_health ;; results_append r1 ;;;
  r2 <- test_agent_list ;; results_append r2 ;;;
  per_agent_tests agent_ids.

(** Lines 315-318. *)
Definition parallel_tests (agent_ids : list json) : M unit :=
  if Nat.leb 2 (List.length agent_ids)
  then console_print (Say "[bold]Running parallel tests...[/bold]") ;;;
       r <- test_parallel_messages (firstn 2 agent_ids) ;; results_append r
  else ret tt.

(** Lines 301-318. *)
Definition run_scenarios (agent_ids : list json) : M unit :=
  sequential_tests agent_ids ;;; parallel_tests agent_ids.

(** The loop of lines 328-336: the two counters and the rows of the table. *)
Fixpoint tally (rs : list TestResult) (n_passed n_failed : nat)
    (rows : list (string * string * string * string))
    : nat * nat * list (string * string * string * string) :=
  match rs with
  | [] => (n_passed, n_failed, rows)
  | r :: rest =>
      let status := if passed r then "[green]PASS[/green]" else "[red]FAIL[/red]" in
      let row := (name r, status, str_of_Z (duration_ms r) ++ "ms",
                  match error r with
                  | Some e => e
                  | None => EmptyString
                  end) in
      if passed r
      then tally rest (S n_passed) n_failed (rows ++ [row])%list
      else tally rest n_passed (S n_failed) (rows ++ [row])%list
  end.

Definition results_path : string := "/results/e2e-results.json".

(** Lines 344-364. *)
Definition write_results (n_passed n_failed : nat) (rs : list TestResult)
    : M unit := fun w =>
  if results_dir_exists (env w) then
    match open_error (env w) with
    | Some e => (Raises e, w)
    | None =>
        console_print (SayWritten results_path)
          {| env := env w; now := now w; cursor := cursor w;
             requests := requests w; console := console w;
             results := results w;
             written := Some {| sum_passed := n_passed;
                                sum_failed := n_failed;
                                sum_results := rs |} |}
    end
  else (Returns tt, w).

Definition get_results : M (list TestResult) := fun w => (Returns (results w), w).

(** [console.print(table)]: [rich] renders the cells as markup, column after
    column.  The cells of the first column are the names of the results and
    those of the last their errors; the status and the duration between
    them hold constant markup and digits, which render. *)
Definition table_error (rows : list (string * string * string * string))
    : option exn :=
  first_render_error
    (map (fun row => fst (fst (fst row))) rows ++ map snd rows)%list.

Definition console_print_table (rows : list (string * string * string * string))
    : M unit :=
  fun w =>
    match table_error rows with
    | Some e => (Raises e, w)
    | None => console_print (SayTable rows) w
    end.

(** Lines 320-366. *)
Definition report : M bool :=
  rs <- get_results ;;
  console_print (Say (String newline EmptyString)) ;;;
  let '(n_passed, n_failed, rows) := tally rs O O [] in
  console_print_table rows ;;;
  console_print (SaySummary n_passed n_failed) ;;;
  write_results n_passed n_failed rs ;;;
  ret (Nat.eqb n_failed 0).

(** The text of line 299: [Available agents:] in bold, followed by
    [str(agent_ids)]. *)
Definition agents_text (agent_ids : list json) : string :=
  String newline
    ("[bold]Available agents:[/bold] " ++ py_str (JArr agent_ids)
       ++ String newline EmptyString).

(** [run_tests] once the gateway is ready. *)
Definition run_tests_ready : M bool :=
  agent_ids <- fetch_agent_ids ;;
  (match agent_ids with
   | [] => console_print
             (Say "[yellow]Warning: No agents registered, running limited tests[/yellow]")
   | _ => ret tt
   end) ;;;
  console_print_markup (agents_text agent_ids) (SayAgents agent_ids) ;;;
  run_scenarios agent_ids ;;;
  report.

(** Line 283: the banner. *)
Definition announce (w : World) : World :=
  snd (console_print
         (Say "[bold blue]═══ COVEN E2E TEST SUITE ═══[/bold blue]") w).

Definition run_tests (w : World) : option (ending * World) :=
  match wait_for_gateway 60 (announce w) with
  | None => None
  | Some (Returns true, w1) =>
      let (r, w2) := run_tests_ready w1 in Some (finish r, w2)
  | Some (Returns false, w1) =>
      Some (SysExit 1,
            snd (console_print (Say "[red]FAILED: Gateway not available[/red]") w1))
  | Some (Raises e, w1) => Some (Uncaught e, w1)
  end.

Definition main (e : Env) : option (Z * World) :=
  match run_tests (boot e) with
  | Some (r, w) => Some (exit_code r, w)
  | None => None
  end.

End Scenarios.
End Gateway.

(** ** The jail runner ([fold-swarm/test-jail-integration.py]) *)

Module Jail.

Definition JAIL_PORT : Z := 31337.
Definition JAIL_URL : string := "ws://localhost:" ++ str_of_Z JAIL_PORT.

(** ["=" * 60] *)
Definition rule : string := String.concat EmptyString (repeat "=" 60).

(** What the network does with one operation on a WebSocket: for [recv],
    the frame it delivers. *)
Inductive answer : Type :=
| Delivers (frame : string)
| Fails (e : exn).

Record ws_event := { elapsed : nat; reply : answer }.

(** The operations the run asked for. *)
Inductive op : Type :=
| Connect (url : string)
| Send (msg : json)
| Recv (timeout_ms : Z)
| Close.

Inductive out_event : Type :=
| Print (line : string)
| PrintVal (label : string) (v : json).

(** What a run is given: the outcome of the k-th network operation, the
    clock at the start, [WORKSPACE_DIR] and whether creating it fails. *)
Record Env := {
  script : nat -> ws_event;
  clock0 : Z;
  workspace_dir : string;
  claude_jail_dir : string;
  mkdir_error : option exn
}.

Record World := {
  env : Env;
  now : Z;
  cursor : nat;
  ops : list op;
  stdout : list out_event
}.

Definition boot (e : Env) : World :=
  {| env := e; now := clock0 e; cursor := O; ops := []; stdout := [] |}.

Definition M : Type -> Type := Run World.

Definition sleep (ms : Z) : M unit := fun w =>
  (Returns tt,
   {| env := env w; now := now w + ms; cursor := cursor w; ops := ops w;
      stdout := stdout w |}).

Definition print (ev : out_event) : M unit := fun w =>
  (Returns tt,
   {| env := env w; now := now w; cursor := cursor w; ops := ops w;
      stdout := stdout w ++ [ev] |}).

(** One network operation: the next event decides how it ends. *)
Definition perform (o : op) : M string := fun w =>
  let ev := script (env w) (cursor w) in
  let w1 := {| env := env w; now := now w + Z.of_nat (elapsed ev);
               cursor := S (cursor w); ops := ops w ++ [o];
               stdout := stdout w |} in
  match reply ev with
  | Delivers frame => (Returns frame, w1)
  | Fails e => (Raises e, w1)
  end.

Definition ws_close : M unit := fun w =>
  (Returns tt,
   {| env := env w; now := now w; cursor := cursor w; ops := ops w ++ [Close];
      stdout := stdout w |}).

(** [async with websockets.connect(url) as ws: body]: the connection is
    closed however the body ends. *)
Definition async_with_connect {A} (url : string) (body : M A) : M A :=
  perform (Connect url) ;;;
  fun w =>
    let (r, w1) := body w in
    (r, snd (ws_close w1)).

Definition ws_send (msg : json) : M unit := perform (Send msg) ;;; ret tt.

(** [await asyncio.wait_for(ws.recv(), timeout=...)] *)
Definition wait_for_recv (timeout_ms : Z) : M string := perform (Recv timeout_ms).

(** [assert cond, msg] *)
Definition assert_ (cond : bool) (msg : string) : M unit :=
  if cond then ret tt else lift (Raises (AssertionError msg)).

Section Scenarios.
Context `{PyRuntime}.

(** *** Readiness *)

Fixpoint wait_for_server_loop (fuel : nat) (start timeout : Z) (url : string)
    (w : World) : option (outcome bool * World) :=
  match fuel with
  | O => None
  | S fuel' =>
      if now w - start <? timeout then
        match async_with_connect url (ret true) w with
        | (Raises e, w1) =>
            if existsb (isinstance e) ["ConnectionRefusedError"; "OSError"]
            then wait_for_server_loop fuel' start timeout url (snd (sleep 200 w1))
            else Some (Raises e, w1)
        | r => Some r
        end
      else Some (Returns false, w)
  end.

(** [timeout] is in milliseconds.  A turn of the loop that does not end it
    sleeps 200 ms. *)
Definition wait_for_server (url : string) (timeout : Z) (w : World)
    : option (outcome bool * World) :=
  wait_for_server_loop (Z.to_nat (timeout / 200) + 2) (now w) timeout url w.

(** *** Scenarios *)

Definition test_connection : M unit :=
  print (Print "[TEST] Connection to Claude Jail...") ;;;
  async_with_connect JAIL_URL
    (print (Print "  - Connected successfully") ;;;
     print (Print "  - PASSED")).

Definition allowed_types : list string := ["text"; "tool_use"; "done"; "error"].

(** Lines 71-81: what is done with the frame received. *)
Definition check_query_reply (response_raw : string) : M json :=
  response <- lift (loads response_raw) ;;
  ty <- lift (py_get response "type") ;;
  print (PrintVal "  - Received response type: " ty) ;;;
  ty1 <- lift (py_get response "type") ;;
  (if existsb (eq_str ty1) allowed_types then ret tt
   else ty2 <- lift (py_get response "type") ;;
        lift (Raises (AssertionError
                        ("Unexpected response type: " ++ py_str ty2)))) ;;;
  ch <- lift (py_get response "channel_id") ;;
  assert_ (eq_str ch "test-channel-123") "Channel ID should match" ;;;
  print (Print "  - PASSED") ;;;
  ret response.

Definition test_query_message_protocol : M json :=
  print (Print "[TEST] Query message protocol...") ;;;
  async_with_connect JAIL_URL
    (fun w =>
       let query := JObj [("type", JStr "query");
                          ("channel_id", JStr "test-channel-123");
                          ("workspace", JStr (workspace_dir (env w)));
                          ("prompt", JStr "Say hello");
                          ("session_id", JNull)] in
       (ws_send query ;;;
        print (Print "  - Sent query: Say hello") ;;;
        try_except ["asyncio.TimeoutError"]
          (response_raw <- wait_for_recv 5000 ;;
           check_query_reply response_raw)
          (fun _ =>
             print (Print "  - Timeout waiting for response (expected if no API key)") ;;;
             print (Print "  - PASSED (protocol validated)") ;;;
             ret JNull)) w).

Definition test_close_session : M unit :=
  print (Print "[TEST] Close session protocol...") ;;;
  async_with_connect JAIL_URL
    (let close_msg := JObj [("type", JStr "close_session");
                            ("channel_id", JStr "test-channel-456")] in
     ws_send close_msg ;;;
     print (Print "  - Sent close_session for channel: test-channel-456") ;;;
     sleep 500 ;;;
     print (Print "  - Server handled close_session") ;;;
     print (Print "  - PASSED")).

(** Lines 126-132: what is done with the frame received. *)
Definition check_invalid_reply (response_raw : string) : M unit :=
  response <- lift (loads response_raw) ;;
  print (PrintVal "  - Received: " response) ;;;
  ty <- lift (py_get response "type") ;;
  assert_ (eq_str ty "error") "Should return error for invalid message" ;;;
  print (Print "  - PASSED").

Definition test_invalid_message : M unit :=
  print (Print "[TEST] Invalid message handling...") ;;;
  async_with_connect JAIL_URL
    (let invalid := JObj [("type", JStr "invalid_type");
                          ("data", JStr "garbage")] in
     ws_send invalid ;;;
     print (Print "  - Sent invalid message type") ;;;
     try_except ["asyncio.TimeoutError"]
       (response_raw <- wait_for_recv 2000 ;;
        check_invalid_reply response_raw)
       (fun _ =>
          print (Print "  - No response (server may close connection)") ;;;
          print (Print "  - PASSED (graceful handling)"))).

(** *** [run_all_tests] *)

(** Lines 157-165: the body of the [try]. *)
Definition all_scenarios : M bool :=
  test_connection ;;;
  test_query_message_protocol ;;;
  test_close_session ;;;
  test_invalid_message ;;;
  print (Print rule) ;;;
  print (Print "ALL SCENARIOS PASSED") ;;;
  print (Print rule) ;;;
  ret true.

(** Lines 153-172: the four scenarios inside one [try]. *)
Definition run_scenarios : M bool :=
  print (Print "Server is ready!") ;;;
  fun w =>
  match all_scenarios w with
  | (Raises e, w1) =>
      if isinstance e "AssertionError"
      then (print (Print ("FAILED: " ++ message e)) ;;; ret false) w1
      else if isinstance e "Exception"
      then (print (Print ("ERROR: " ++ message e)) ;;; ret false) w1
      else (Raises e, w1)
  | r => r
  end.

(** Lines 141-147: the banner. *)
Definition announce (w : World) : World :=
  snd ((print (Print rule) ;;;
        print (Print "SCENARIO TESTS: Claude Jail WebSocket Integration") ;;;
        print (Print rule) ;;;
        print (Print ("Target: " ++ JAIL_URL)) ;;;
        print (Print "Waiting for Claude Jail server...")) w).

Definition run_all_tests (w : World) : option (outcome bool * World) :=
  match wait_for_server JAIL_URL 10000 (announce w) with
  | None => None
  | Some (Returns true, w1) => Some (run_scenarios w1)
  | Some (Returns false, w1) =>
      Some ((print (Print "ERROR: Claude Jail server not running!") ;;;
             print (Print ("Start it with: cd " ++ claude_jail_dir (env w1) ++
                           " && uv run python -m claude_jail.server")) ;;;
             ret false) w1)
  | Some (Raises e, w1) => Some (Raises e, w1)
  end.

(** [main]: the workspace directory is created first; then
    [sys.exit(0 if success else 1)]. *)
Definition main (e : Env) : option (Z * World) :=
  match mkdir_error e with
  | Some _ => Some (1, boot e)
  | None =>
      match run_all_tests (boot e) with
      | Some (r, w) => Some (exit_code (finish r), w)
      | None => None
      end
  end.

End Scenarios.
End Jail.

(** ** A runtime and worlds to run the models on *)

Module Sample.

(** [repr()] of a decoded value whose strings need no escaping. *)
Fixpoint py_repr (v : json) : string :=
  match v with
  | JNull => "None"
  | JBool true => "True"
  | JBool false => "False"
  | JNum n => str_of_Z n
  | JFloat literal => literal
  | JStr s => "'" ++ s ++ "'"
  | JArr items => "[" ++ String.concat ", " (map py_repr items) ++ "]"
  | JObj items =>
      "{" ++ String.concat ", "
               (map (fun kv => "'" ++ fst kv ++ "': " ++ py_repr (snd kv)) items)
          ++ "}"
  end.

Definition q (s : string) : string := dquote ++ s ++ dquote.

(** The JSON texts the sample worlds carry, with what [json.loads] makes of
    each. *)
Definition decoded : list (string * json) :=
  [ ("5", JNum 5);
    ("[]", JArr []);
    ("{" ++ q "full_response" ++ ": " ++ q "" ++ "}",
     JObj [("full_response", JStr "")]);
    ("{" ++ q "full_response" ++ ": " ++ q "hello" ++ "}",
     JObj [("full_response", JStr "hello")]);
    ("{" ++ q "delta" ++ ": " ++ q "hel" ++ "}",
     JObj [("delta", JStr "hel")]);
    ("[{" ++ q "id" ++ ": " ++ q "a1" ++ "}, {" ++ q "id" ++ ": " ++ q "a2" ++ "}, {"
          ++ q "id" ++ ": " ++ q "a3" ++ "}]",
     JArr [JObj [("id", JStr "a1")]; JObj [("id", JStr "a2")];
           JObj [("id", JStr "a3")]]);
    ("{" ++ q "type" ++ ": " ++ q "text" ++ ", " ++ q "channel_id" ++ ": "
         ++ q "test-channel-123" ++ "}",
     JObj [("type", JStr "text"); ("channel_id", JStr "test-channel-123")]);
    ("{" ++ q "type" ++ ": " ++ q "error" ++ "}",
     JObj [("type", JStr "error")]) ].

Fixpoint lookup (s : string) (table : list (string * json)) : option json :=
  match table with
  | [] => None
  | (k, v) :: rest => if String.eqb s k then Some v else lookup s rest
  end.

(** Every other text is malformed, a set is shown with its elements in the
    order they were added, every text the sample worlds print renders, and
    the difference of two readings of the clock is taken as it is. *)
#[export] Instance runtime : PyRuntime := {|
  json_loads := fun s => lookup s decoded;
  decode_failure_of :=
    fun _ => Malformed "Expecting value: line 1 column 1 (char 0)";
  py_str := fun v => match v with JStr s => s | _ => py_repr v end;
  set_str :=
    fun vs => match vs with
              | [] => "set()"
              | _ => "{" ++ String.concat ", " (map py_repr vs) ++ "}"
              end;
  markup_error := fun _ => None;
  ms_between := fun t0 t1 => t1 - t0
|}.

Definition sse (payload : string) : string := "data: " ++ payload.
Definition lines (ls : list string) : string :=
  String.concat (String newline EmptyString) ls.

Definition ok (body : string) : Gateway.http_event :=
  {| Gateway.elapsed := 5;
     Gateway.reply := Gateway.Answers
                        {| Gateway.status_code := 200; Gateway.text := body |} |}.

Definition down (e : exn) : Gateway.http_event :=
  {| Gateway.elapsed := 5; Gateway.reply := Gateway.Fails e |}.

Definition ConnectError : exn :=
  mkExn ("ConnectError" :: "TransportError" :: "RequestError" :: "HTTPError"
           :: Exception_bases)
        "All connection attempts failed".

Definition gateway_env (script : nat -> Gateway.http_event) (dir : bool)
    : Gateway.Env :=
  {| Gateway.script := script; Gateway.clock0 := 1700000000000;
     Gateway.results_dir_exists := dir; Gateway.open_error := None |}.

Definition hello : string :=
  lines [sse ("{" ++ q "delta" ++ ": " ++ q "hel" ++ "}");
         "event: ping";
         sse "not json";
         sse ("{" ++ q "full_response" ++ ": " ++ q "hello" ++ "}");
         ""].

Definition empty_reply : string :=
  sse ("{" ++ q "full_response" ++ ": " ++ q "" ++ "}").

Definition three_agents : string :=
  "[{" ++ q "id" ++ ": " ++ q "a1" ++ "}, {" ++ q "id" ++ ": " ++ q "a2" ++ "}, {"
       ++ q "id" ++ ": " ++ q "a3" ++ "}]".

(** The gateway is up, lists no agent, and [/results] exists. *)
Definition quiet_gateway : Gateway.Env :=
  gateway_env (fun k => match k with
                        | 0%nat | 2%nat => ok "ok"
                        | _ => ok "[]"
                        end) true.

(** The gateway is up and then the agent listing cannot be reached. *)
Definition listing_unreachable : Gateway.Env :=
  gateway_env (fun k => match k with
                        | 0%nat => ok "ok"
                        | _ => down ConnectError
                        end) true.

(** Three agents; every message is answered with [hello]. *)
Definition three_agents_gateway : Gateway.Env :=
  gateway_env (fun k => match k with
                        | 0%nat | 2%nat => ok "ok"
                        | 1%nat | 3%nat => ok three_agents
                        | _ => ok hello
                        end) false.

(** Every message is answered with an empty aggregated response. *)
Definition empty_replies : Gateway.Env :=
  gateway_env (fun _ => ok empty_reply) false.

(** The first request cannot be sent; every other one is answered with
    [hello]. *)
Definition first_call_down : Gateway.Env :=
  gateway_env (fun k => match k with
                        | 0%nat => down ConnectError
                        | _ => ok hello
                        end) false.

(** The gateway refuses two probes and is up at the third. *)
Definition slow_gateway : Gateway.Env :=
  gateway_env (fun k => match k with
                        | 0%nat | 1%nat => down ConnectError
                        | 2%nat | 4%nat => ok "ok"
                        | _ => ok "[]"
                        end) false.

(** The agents are listed at once; then the gateway answers as in
    [three_agents_gateway]. *)
Definition three_agents_listed : Gateway.Env :=
  gateway_env (fun k => match k with
                        | 1%nat => ok "ok"
                        | 0%nat | 2%nat => ok three_agents
                        | _ => ok hello
                        end) false.

(** *** Worlds of the jail runner *)

Definition up : Jail.ws_event :=
  {| Jail.elapsed := 3; Jail.reply := Jail.Delivers EmptyString |}.

Definition frame (s : string) : Jail.ws_event :=
  {| Jail.elapsed := 3; Jail.reply := Jail.Delivers s |}.

Definition broken (e : exn) : Jail.ws_event :=
  {| Jail.elapsed := 3; Jail.reply := Jail.Fails e |}.

(** What [websockets] raises from [recv] once the server has closed the
    connection. *)
Definition ConnectionClosedOK : exn :=
  mkExn ("ConnectionClosedOK" :: "ConnectionClosed" :: "WebSocketException"
           :: Exception_bases)
        "received 1000 (OK); then sent 1000 (OK)".

(** What [asyncio.wait_for] raises when its timeout expires. *)
Definition TimeoutExpired : exn :=
  mkExn ("asyncio.TimeoutError" :: Exception_bases) EmptyString.

(** What [websockets.connect] raises when the peer answers the handshake
    with an HTTP error. *)
Definition InvalidStatus : exn :=
  mkExn ("InvalidStatus" :: "InvalidHandshake" :: "WebSocketException"
           :: Exception_bases)
        "server rejected WebSocket connection: HTTP 503".

Definition ConnectionRefused : exn :=
  mkExn ("ConnectionRefusedError" :: "ConnectionError" :: "OSError"
           :: Exception_bases)
        "[Errno 111] Connection refused".

Definition text_reply : string :=
  "{" ++ q "type" ++ ": " ++ q "text" ++ ", " ++ q "channel_id" ++ ": "
      ++ q "test-channel-123" ++ "}".

Definition error_reply : string := "{" ++ q "type" ++ ": " ++ q "error" ++ "}".

Definition jail_env (script : nat -> Jail.ws_event) : Jail.Env :=
  {| Jail.script := script; Jail.clock0 := 1700000000000;
     Jail.workspace_dir := "/repo/workspace";
     Jail.claude_jail_dir := "/repo/claude-jail";
     Jail.mkdir_error := None |}.

(** The server answers the query, and answers the invalid message with
    [last]: operation 4 is the [recv] of the round trip, operation 9 the
    [recv] of the invalid-message scenario. *)
Definition jail_with (last : Jail.ws_event) : Jail.Env :=
  jail_env (fun k => match k with
                     | 4%nat => frame text_reply
                     | 9%nat => last
                     | _ => up
                     end).

(** The server refuses the connection of the first scenario. *)
Definition jail_gone_after_probe : Jail.Env :=
  jail_env (fun k => match k with
                     | 1%nat => broken ConnectionRefused
                     | 4%nat => frame text_reply
                     | 9%nat => frame error_reply
                     | _ => up
                     end).

(** The connection opens, the message is sent, and the server closes the
    connection instead of replying. *)
Definition jail_closing : Jail.Env :=
  jail_env (fun k => match k with
                     | 2%nat => broken ConnectionClosedOK
                     | _ => up
                     end).

(** The connection opens, the query is sent, and a well-formed reply
    arrives. *)
Definition jail_replying : Jail.Env :=
  jail_env (fun k => match k with
                     | 2%nat => frame text_reply
                     | _ => up
                     end).

(** The server refuses every connection. *)
Definition jail_down : Jail.Env :=
  jail_env (fun _ => broken ConnectionRefused).

(** The server answers the probe's handshake with an HTTP error. *)
Definition jail_starting : Jail.Env :=
  jail_env (fun _ => broken InvalidStatus).

End Sample.

(** * Properties *)

(** ** Sequencing *)

Lemma bind_returns {W A B} (m : Run W A) (k : A -> Run W B) w b w' :
  bind m k w = (Returns b, w') ->
  exists a w1, m w = (Returns a, w1) /\ k a w1 = (Returns b, w').
Proof.
  unfold bind. destruct (m w) as [[a | e] w1]; intros E.
  - now exists a, w1.
  - discriminate.
Qed.

Lemma bind_raised {W A B} (m : Run W A) (k : A -> Run W B) w e w1 :
  m w = (Raises e, w1) -> bind m k w = (Raises e, w1).
Proof. unfold bind. now intros ->. Qed.

Lemma bind_returned {W A B} (m : Run W A) (k : A -> Run W B) w a w1 :
  m w = (Returns a, w1) -> bind m k w = k a w1.
Proof. unfold bind. now intros ->. Qed.

(** Whatever the decoder raises is an [Exception], and no timeout. *)
Lemma decode_error_exception `{PyRuntime} s :
  isinstance (decode_error s) "Exception" = true.
Proof. unfold decode_error. now destruct (decode_failure_of s). Qed.

Lemma decode_error_not_timeout `{PyRuntime} s :
  isinstance (decode_error s) "asyncio.TimeoutError" = false.
Proof. unfold decode_error. now destruct (decode_failure_of s). Qed.

(** What [rich] raises on a text it does not render is an [Exception]. *)
Lemma render_error_exception `{PyRuntime} text e :
  render_error text = Some e -> isinstance e "Exception" = true.
Proof.
  unfold render_error. destruct (contains "[" text); [| discriminate].
  destruct (markup_error text); [| discriminate].
  intros E. now injection E as <-.
Qed.

Lemma isinstance_In e cls : isinstance e cls = true <-> In cls (mro e).
Proof.
  unfold isinstance. rewrite existsb_exists. split.
  - intros (c & Hin & Heq). apply String.eqb_eq in Heq. now subst.
  - intros Hin. exists cls. split; [assumption | apply String.eqb_refl].
Qed.

(** ** What a call leaves untouched

    [keeps R m]: the world [m] leaves is related by [R] to the one it
    started in.  For a preorder [R] this passes through sequencing and
    through [try]. *)

Section Keeps.
Context {W : Type} (R : W -> W -> Prop).
Hypothesis R_refl : forall w, R w w.
Hypothesis R_trans : forall a b c, R a b -> R b c -> R a c.

Definition keeps {A} (m : Run W A) : Prop := forall w, R w (snd (m w)).

Lemma keeps_ret {A} (a : A) : keeps (ret a).
Proof. intros w. apply R_refl. Qed.

Lemma keeps_lift {A} (o : outcome A) : keeps (lift o).
Proof. intros w. apply R_refl. Qed.

Lemma keeps_bind {A B} (m : Run W A) (k : A -> Run W B) :
  keeps m -> (forall a, keeps (k a)) -> keeps (bind m k).
Proof.
  intros Hm Hk w. unfold bind. specialize (Hm w).
  destruct (m w) as [[a | e] w1]; simpl in *.
  - apply R_trans with w1; [assumption | apply Hk].
  - assumption.
Qed.

Lemma keeps_try_except {A} cls (body : Run W A) handler :
  keeps body -> (forall e, keeps (handler e)) ->
  keeps (try_except cls body handler).
Proof.
  intros Hb Hh w. unfold try_except. specialize (Hb w).
  destruct (body w) as [[a | e] w1]; simpl in *.
  - assumption.
  - destruct (existsb (isinstance e) cls); simpl.
    + apply R_trans with w1; [assumption | apply Hh].
    + assumption.
Qed.
End Keeps.

Ltac keeps_step :=
  first
    [ assumption
    | solve [auto]
    | match goal with |- forall _, keeps _ _ => intro end
    | progress cbv zeta
    | apply keeps_bind
    | apply keeps_try_except
    | apply keeps_ret
    | apply keeps_lift
    | match goal with
      | |- keeps _ (if ?b then _ else _) => destruct b
      | |- keeps _ (match ?x with _ => _ end) => destruct x
      end ].

Ltac keeps_auto := repeat keeps_step.

(** ** The gateway runner *)

Module GatewayFacts.
Import Gateway.

(** The targets of the fan-out's requests, as a log of requests shows
    them: the requests carrying [fanout_prompt]. *)
Definition is_fanout (rq : request) : bool :=
  match rq with
  | POST _ _ content _ _ => String.eqb content fanout_prompt
  | GET _ => false
  end.

Definition is_table (ev : console_event) : bool :=
  match ev with SayTable _ => true | _ => false end.

Section Frames.
Context `{PyRuntime}.
Variable R : World -> World -> Prop.
Hypothesis R_refl : forall w, R w w.
Hypothesis R_trans : forall a b c, R a b -> R b c -> R a c.
Hypothesis R_request :
  forall rq, is_fanout rq = false -> keeps R (send_request rq).
Hypothesis R_fanout : forall rq, keeps R (send_request rq).
Hypothesis R_sleep : forall ms, keeps R (sleep ms).
Hypothesis R_say :
  forall ev, is_table ev = false -> keeps R (console_print ev).
Hypothesis R_append : forall r, keeps R (results_append r).
Hypothesis R_now : forall t w, R w (set_now t w).

Lemma keeps_time : keeps R time_time.
Proof. intros w. apply R_refl. Qed.

Lemma keeps_get path : keeps R (client_get path).
Proof. apply R_request. reflexivity. Qed.

Lemma keeps_post a c :
  String.eqb c fanout_prompt = false ->
  keeps R (client_post "/api/send" a c "e2e-test" TIMEOUT_SECONDS).
Proof. intros Hc. apply R_request. exact Hc. Qed.

Lemma keeps_say l : keeps R (console_print (Say l)).
Proof. apply R_say. reflexivity. Qed.

Lemma keeps_say_markup text ev :
  is_table ev = false -> keeps R (console_print_markup text ev).
Proof.
  intros Hev w. unfold console_print_markup.
  destruct (render_error text); [apply R_refl | apply R_say; exact Hev].
Qed.

Hint Resolve keeps_time keeps_get keeps_post keeps_say keeps_say_markup : core.

Lemma keeps_wait_for_gateway_loop fuel start max_wait :
  forall w r w',
    wait_for_gateway_loop fuel start max_wait w = Some (r, w') -> R w w'.
Proof.
  induction fuel as [| fuel IH]; intros w r w'; simpl.
  - discriminate.
  - destruct (now w - start <? max_wait * 1000).
    + assert (K : keeps R probe_once) by (unfold probe_once; keeps_auto).
      specialize (K w). destruct (probe_once w) as [[[|] | e] w1];
        simpl in K; intros E.
      * now inversion E; subst.
      * apply R_trans with w1; [assumption |].
        apply R_trans with (snd (sleep 1000 w1)); [apply R_sleep |].
        eapply IH; eassumption.
      * now inversion E; subst.
    + intros E.
      match type of E with
      | Some (?m w) = _ => assert (K : keeps R m) by keeps_auto;
                           specialize (K w); destruct (m w) as [r0 w0]
      end.
      simpl in K. now inversion E; subst.
Qed.

Lemma keeps_wait_for_gateway max_wait :
  forall w r w', wait_for_gateway max_wait w = Some (r, w') -> R w w'.
Proof.
  intros w r w'. unfold wait_for_gateway. intros E.
  eapply R_trans; [apply keeps_say |].
  eapply keeps_wait_for_gateway_loop; eassumption.
Qed.

Lemma keeps_send_message a c :
  String.eqb c fanout_prompt = false -> keeps R (send_message a c).
Proof. intros Hc. unfold send_message. keeps_auto. Qed.

Lemma keeps_failed_with nm start e : keeps R (failed_with nm start e).
Proof. unfold failed_with. keeps_auto. Qed.

Hint Resolve keeps_send_message keeps_failed_with : core.

Lemma keeps_test_gateway_health : keeps R test_gateway_health.
Proof. unfold test_gateway_health. keeps_auto. Qed.

Lemma keeps_test_agent_list : keeps R test_agent_list.
Proof. unfold test_agent_list. keeps_auto. Qed.

Lemma keeps_test_simple_message a : keeps R (test_simple_message a).
Proof. unfold test_simple_message. keeps_auto. Qed.

Lemma keeps_test_pack_tool_log_entry a : keeps R (test_pack_tool_log_entry a).
Proof. unfold test_pack_tool_log_entry. keeps_auto. Qed.

Lemma keeps_test_pack_tool_log_search a :
  keeps R (test_pack_tool_log_search a).
Proof. unfold test_pack_tool_log_search. keeps_auto. Qed.

Lemma keeps_fetch_agent_ids : keeps R fetch_agent_ids.
Proof. unfold fetch_agent_ids. keeps_auto. Qed.

Hint Resolve keeps_test_gateway_health keeps_test_agent_list
  keeps_test_simple_message keeps_test_pack_tool_log_entry
  keeps_test_pack_tool_log_search : core.

Lemma keeps_per_agent_tests ids : keeps R (per_agent_tests ids).
Proof.
  induction ids as [| a ids IH]; simpl.
  - keeps_auto.
  - keeps_auto.
Qed.

Lemma keeps_sequential_tests ids : keeps R (sequential_tests ids).
Proof.
  unfold sequential_tests. pose proof keeps_per_agent_tests. keeps_auto.
Qed.

(** With the fan-out's own requests allowed. *)

Lemma keeps_gather_legs {A} t0 (legs : list (M A)) :
  Forall (keeps R) legs -> forall w, R w (snd (gather_legs t0 legs w)).
Proof.
  induction 1 as [| leg legs Hleg _ IH]; intros w; simpl.
  - apply R_refl.
  - specialize (Hleg (set_now t0 w)).
    destruct (leg (set_now t0 w)) as [r w1]; simpl in Hleg.
    specialize (IH (set_now (Z.max (now w) (now w1)) w1)).
    destruct (gather_legs t0 legs (set_now (Z.max (now w) (now w1)) w1))
      as [rs w2]; simpl in *.
    apply R_trans with (set_now t0 w); [apply R_now |].
    apply R_trans with w1; [assumption |].
    apply R_trans with (set_now (Z.max (now w) (now w1)) w1);
      [apply R_now | assumption].
Qed.

Lemma keeps_test_parallel_messages ids :
  keeps R (test_parallel_messages ids).
Proof.
  unfold test_parallel_messages.
  assert (G : keeps R (gather (map (fun a => send_message a fanout_prompt) ids))).
  { intros w. unfold gather.
    pose proof (keeps_gather_legs (now w)
                  (map (fun a => send_message a fanout_prompt) ids)) as K.
    destruct (gather_legs (now w) _ w) as [rs w'] eqn:E.
    simpl. specialize (K ltac:(
      apply Forall_forall; intros m Hm; apply in_map_iff in Hm;
      destruct Hm as (a & <- & _); unfold send_message, client_post;
      keeps_auto) w).
    now rewrite E in K. }
  keeps_auto.
Qed.

Lemma keeps_run_scenarios ids : keeps R (run_scenarios ids).
Proof.
  unfold run_scenarios, sequential_tests, parallel_tests.
  pose proof keeps_test_parallel_messages. pose proof keeps_per_agent_tests.
  keeps_auto.
Qed.
End Frames.

(** The world a request leaves, however it ends. *)
Lemma send_request_world rq w :
  snd (send_request rq w) =
  {| env := env w;
     now := now w + Z.of_nat (elapsed (script (env w) (cursor w)));
     cursor := S (cursor w); requests := (requests w ++ [rq])%list;
     console := console w; results := results w; written := written w |}.
Proof.
  unfold send_request. now destruct (reply (script (env w) (cursor w))).
Qed.

(** *** The summary and the file *)

Definition count_passed (rs : list TestResult) : nat :=
  List.length (filter passed rs).

Definition count_failed (rs : list TestResult) : nat :=
  List.length (filter (fun r => negb (passed r)) rs).

Lemma count_split rs : (count_passed rs + count_failed rs = List.length rs)%nat.
Proof.
  unfold count_passed, count_failed.
  induction rs as [| r rs IH]; simpl; [reflexivity |].
  destruct (passed r); simpl; lia.
Qed.

Lemma tally_counts rs : forall p f rows,
  fst (tally rs p f rows) = ((p + count_passed rs)%nat, (f + count_failed rs)%nat).
Proof.
  unfold count_passed, count_failed.
  induction rs as [| r rs IH]; intros p f rows; simpl.
  - f_equal; lia.
  - destruct (passed r); simpl; rewrite IH; f_equal; lia.
Qed.

(** The row of one result, as [table.add_row] is given it. *)
Definition row_of (r : TestResult) : string * string * string * string :=
  (name r,
   if passed r then "[green]PASS[/green]" else "[red]FAIL[/red]",
   str_of_Z (duration_ms r) ++ "ms",
   match error r with Some e => e | None => EmptyString end).

Lemma tally_rows rs : forall p f rows,
  snd (tally rs p f rows) = (rows ++ map row_of rs)%list.
Proof.
  induction rs as [| r rs IH]; intros p f rows; cbn [tally map].
  - now rewrite app_nil_r.
  - destruct (passed r) eqn:Hp; rewrite IH, <- app_assoc; unfold row_of;
      rewrite Hp; reflexivity.
Qed.

(** The document [json.dump] is given for the results [rs]. *)
Definition summary_of (rs : list TestResult) : Summary :=
  {| sum_passed := count_passed rs; sum_failed := count_failed rs;
     sum_results := rs |}.

(** Between two worlds of one run: the file is as it was. *)
Definition unwritten (w w' : World) : Prop :=
  env w' = env w /\ written w' = written w.

Lemma unwritten_refl w : unwritten w w.
Proof. now split. Qed.

Lemma unwritten_trans a b c : unwritten a b -> unwritten b c -> unwritten a c.
Proof. unfold unwritten. intuition congruence. Qed.

Lemma unwritten_request rq : keeps unwritten (send_request rq).
Proof.
  intros w. unfold send_request.
  destruct (reply (script (env w) (cursor w))); now split.
Qed.

Lemma unwritten_sleep ms : keeps unwritten (sleep ms).
Proof. intros w. now split. Qed.

Lemma unwritten_say ev : keeps unwritten (console_print ev).
Proof. intros w. now split. Qed.

Lemma unwritten_append r : keeps unwritten (results_append r).
Proof. intros w. now split. Qed.

Lemma unwritten_now t w : unwritten w (set_now t w).
Proof. now split. Qed.

(** The prober and the listing change neither the file, nor the results,
    nor whether a table was printed. *)
Definition untouched (w w' : World) : Prop :=
  env w' = env w /\ written w' = written w /\ results w' = results w /\
  existsb is_table (console w') = existsb is_table (console w).

Lemma untouched_refl w : untouched w w.
Proof. now repeat split. Qed.

Lemma untouched_trans a b c : untouched a b -> untouched b c -> untouched a c.
Proof. unfold untouched. intuition congruence. Qed.

Lemma untouched_request rq : keeps untouched (send_request rq).
Proof.
  intros w. unfold send_request.
  destruct (reply (script (env w) (cursor w))); now repeat split.
Qed.

Lemma untouched_sleep ms : keeps untouched (sleep ms).
Proof. intros w. now repeat split. Qed.

Lemma untouched_say ev : is_table ev = false -> keeps untouched (console_print ev).
Proof.
  intros Hev w. repeat split; simpl.
  rewrite existsb_app. simpl. rewrite Hev. now rewrite !orb_false_r.
Qed.

Lemma untouched_unwritten w w' : untouched w w' -> unwritten w w'.
Proof. intros (He & Hw & _). now split. Qed.

Section Store.
Context `{PyRuntime}.

(** How the report runs: the table is rendered first; then the summary is
    printed; then the file is written if [/results] is there. *)
Lemma report_runs w :
  let rs := results w in
  let rows := map row_of rs in
  let said := [Say (String newline EmptyString); SayTable rows;
               SaySummary (count_passed rs) (count_failed rs)] in
  let say evs doc :=
    {| env := env w; now := now w; cursor := cursor w;
       requests := requests w; console := (console w ++ evs)%list;
       results := results w; written := doc |} in
  report w =
  match table_error rows with
  | Some e => (Raises e, say [Say (String newline EmptyString)] (written w))
  | None =>
      if results_dir_exists (env w) then
        match open_error (env w) with
        | Some e => (Raises e, say said (written w))
        | None =>
            (Returns (Nat.eqb (count_failed rs) 0),
             say (said ++ [SayWritten results_path])%list
                 (Some (summary_of rs)))
        end
      else (Returns (Nat.eqb (count_failed rs) 0), say said (written w))
  end.
Proof.
  intros rs rows said say. subst rs rows said say.
  unfold report, get_results, bind, write_results, console_print_table,
    console_print, ret, summary_of.
  pose proof (tally_counts (results w) O O []) as T.
  pose proof (tally_rows (results w) O O []) as R.
  destruct (tally (results w) O O []) as [[p f] rows]. cbn [fst snd] in T, R.
  injection T as -> ->. subst rows. cbn [app Nat.add env fst snd].
  destruct (table_error (map row_of (results w))); [reflexivity |].
  cbn [env fst snd].
  destruct (results_dir_exists (env w)); cbn [env fst snd].
  - destruct (open_error (env w));
      cbn [env now cursor requests console results written fst snd];
      rewrite <- ?app_assoc; reflexivity.
  - cbn [env now cursor requests console results written fst snd].
    rewrite <- ?app_assoc. reflexivity.
Qed.

(** What the report leaves: the results as they were, and the file as it
    was or, [/results] being there and the report returning, written with
    these results and their counts. *)
Lemma report_store w :
  let w' := snd (report w) in
  env w' = env w /\ results w' = results w /\ requests w' = requests w /\
  (written w' = written w \/
   (results_dir_exists (env w) = true /\
    written w' = Some (summary_of (results w)) /\
    fst (report w) = Returns (Nat.eqb (count_failed (results w)) 0))) /\
  (forall b, fst (report w) = Returns b ->
             b = Nat.eqb (count_failed (results w)) 0 /\
             (results_dir_exists (env w) = true ->
              written w' = Some (summary_of (results w)))).
Proof.
  cbv zeta. rewrite report_runs. cbv zeta.
  destruct (table_error (map row_of (results w))); cbn [fst snd];
    [| destruct (results_dir_exists (env w)) eqn:Hd; cbn [fst snd];
       [destruct (open_error (env w)); cbn [fst snd] |]];
    cbn [env results requests written];
    (split; [reflexivity |]); (split; [reflexivity |]);
    (split; [reflexivity |]); split.
  - now left.
  - intros b E. discriminate.
  - now left.
  - intros b E. discriminate.
  - right. now repeat split.
  - intros b E. injection E as <-. split; [reflexivity | reflexivity].
  - now left.
  - intros b E. injection E as <-. split; [reflexivity | discriminate].
Qed.

Lemma unwritten_fetch_agent_ids : keeps unwritten fetch_agent_ids.
Proof.
  apply keeps_fetch_agent_ids;
    [exact unwritten_refl | exact unwritten_trans
     | intros rq _; apply unwritten_request].
Qed.

Lemma unwritten_run_scenarios ids : keeps unwritten (run_scenarios ids).
Proof.
  apply keeps_run_scenarios;
    [exact unwritten_refl | exact unwritten_trans
     | intros rq _; apply unwritten_request | exact unwritten_request
     | intros ev _; apply unwritten_say | exact unwritten_append
     | exact unwritten_now].
Qed.

(** [run_tests_ready] is what comes before the report, which does not
    write, and then the report, unless something was raised before it. *)
Lemma listed_agents_cases ids w r w' :
  (console_print_markup (agents_text ids) (SayAgents ids) ;;;
   run_scenarios ids ;;; report) w = (r, w') ->
  exists w2,
    unwritten w w2 /\
    (report w2 = (r, w') \/ exists e, r = Raises e /\ w' = w2).
Proof.
  unfold bind, console_print_markup.
  destruct (render_error (agents_text ids)) as [e |].
  - intros E. injection E as <- <-. exists w.
    split; [apply unwritten_refl | right; eauto].
  - cbn [console_print].
    match goal with
    | |- context [run_scenarios ids ?wb] =>
        pose proof (unwritten_run_scenarios ids wb) as K2;
        assert (Kb : unwritten w wb) by now split
    end.
    match type of K2 with
    | unwritten ?wb _ => destruct (run_scenarios ids wb) as [[[] | e] w2]
    end; cbn [snd] in K2; intros E; exists w2;
      (split; [eapply unwritten_trans; [exact Kb | exact K2] |]).
    + left. exact E.
    + right. injection E as <- <-. eauto.
Qed.

Lemma run_tests_ready_cases w r w' :
  run_tests_ready w = (r, w') ->
  exists w2,
    unwritten w w2 /\
    (report w2 = (r, w') \/ exists e, r = Raises e /\ w' = w2).
Proof.
  unfold run_tests_ready. unfold bind at 1.
  pose proof (unwritten_fetch_agent_ids w) as K1.
  destruct (fetch_agent_ids w) as [[ids | e] w1]; cbn [snd] in K1.
  - unfold bind at 1.
    destruct ids as [| a ids]; cbn [console_print ret]; intros E;
      apply listed_agents_cases in E as (w2 & K2 & Hr);
      exists w2;
      (split; [eapply unwritten_trans; [exact K1 |];
               eapply unwritten_trans; [| exact K2]; now split |]);
      exact Hr.
  - intros E. injection E as <- <-. exists w1.
    split; [exact K1 | right; eauto].
Qed.

Lemma untouched_wait_for_gateway max_wait w r w' :
  wait_for_gateway max_wait w = Some (r, w') -> untouched w w'.
Proof.
  apply keeps_wait_for_gateway.
  - exact untouched_refl.
  - exact untouched_trans.
  - intros rq _. apply untouched_request.
  - exact untouched_sleep.
  - exact untouched_say.
Qed.

(** How a run stands with the file when it has ended. *)
Lemma run_tests_store (e : Env) r w :
  run_tests (boot e) = Some (r, w) ->
  (written w = None /\ forall b, r = Finished b -> results_dir_exists e = false) \/
  (results_dir_exists e = true /\ written w = Some (summary_of (results w)) /\
   r = Finished (Nat.eqb (count_failed (results w)) 0)).
Proof.
  unfold run_tests. intros E.
  destruct (wait_for_gateway 60 (announce (boot e)))
    as [[[[|] | ex] w1] |] eqn:Ew; try discriminate;
    apply untouched_wait_for_gateway in Ew as (He & Hw & _);
    cbn in He, Hw.
  - destruct (run_tests_ready w1) as [r2 w3] eqn:Er.
    injection E as <- <-.
    apply run_tests_ready_cases in Er as (w2 & [He2 Hw2] & Hr).
    destruct Hr as [Hr | (ex & -> & ->)].
    + pose proof (report_store w2) as (He3 & Hres & _ & Hwr & Hret).
      cbv zeta in He3, Hres, Hwr, Hret. rewrite Hr in *.
      cbn [fst snd] in *.
      destruct Hwr as [Hsame | (Hd & Hdoc & Hfin)].
      * left. split; [congruence |]. intros b Hb.
        destruct r2 as [b' | ex]; [| discriminate].
        destruct (Hret b' eq_refl) as [_ Hwrite].
        destruct (results_dir_exists e) eqn:Hd; [| reflexivity].
        rewrite He2, He in Hwrite. specialize (Hwrite Hd). congruence.
      * right. rewrite He2, He in Hd. split; [exact Hd |].
        rewrite Hres. split; [exact Hdoc |]. now rewrite Hfin.
    + left. split; [cbn; congruence | discriminate].
  - injection E as <- <-. left. split; [exact Hw | discriminate].
  - injection E as <- <-. left. split; [exact Hw | discriminate].
Qed.
End Store.

(** *** The readiness prober *)

Section Prober.
Context `{PyRuntime}.

(** One probe, by what the network does with it. *)
Lemma probe_once_cases w :
  let ev := script (env w) (cursor w) in
  exists w1,
    env w1 = env w /\ cursor w1 = S (cursor w) /\
    now w1 = now w + Z.of_nat (elapsed ev) /\
    match reply ev with
    | Answers r =>
        probe_once w = (Returns (status_code r =? 200), w1)
    | Fails e =>
        probe_once w =
        (if isinstance e "Exception" then Returns false else Raises e, w1)
    end.
Proof.
  unfold probe_once, try_except, client_get, send_request, bind. simpl.
  destruct (reply (script (env w) (cursor w))) as [r | e].
  - destruct (status_code r =? 200); simpl;
      eexists; (split; [| split; [| split; [| reflexivity]]]); reflexivity.
  - rewrite orb_false_r. destruct (isinstance e "Exception"); simpl;
      eexists; (split; [| split; [| split; [| reflexivity]]]); reflexivity.
Qed.

(** How the prober may end: ready after a probe answered 200, not ready
    once the deadline has passed, or with an exception that is not an
    [Exception]. *)
Definition prober_ends (start max_wait : Z) (w : World)
    (r : outcome bool) (w' : World) : Prop :=
  env w' = env w /\
  match r with
  | Returns true =>
      exists k resp, (cursor w <= k)%nat /\ cursor w' = S k /\
        reply (script (env w) k) = Answers resp /\ status_code resp = 200
  | Returns false => max_wait * 1000 <= now w' - start
  | Raises e =>
      isinstance e "Exception" = false /\
      exists k, (cursor w <= k)%nat /\ reply (script (env w) k) = Fails e
  end.

Lemma wait_for_gateway_loop_step fuel start max_wait w :
  wait_for_gateway_loop (S fuel) start max_wait w =
  if now w - start <? max_wait * 1000 then
    match probe_once w with
    | (Returns true, w1) => Some (Returns true, w1)
    | (Returns false, w1) =>
        wait_for_gateway_loop fuel start max_wait (snd (sleep 1000 w1))
    | (Raises e, w1) => Some (Raises e, w1)
    end
  else
    Some ((console_print (Say "[red]✗ Gateway did not become ready[/red]") ;;;
           ret false) w).
Proof. reflexivity. Qed.

Lemma wait_for_gateway_loop_ends start max_wait :
  forall fuel w,
    max_wait * 1000 - (now w - start) <= 1000 * Z.of_nat fuel ->
    exists r w',
      wait_for_gateway_loop (S fuel) start max_wait w = Some (r, w') /\
      prober_ends start max_wait w r w'.
Proof.
  induction fuel as [| fuel IH]; intros w Hfuel;
    rewrite wait_for_gateway_loop_step;
    destruct (Z.ltb_spec (now w - start) (max_wait * 1000)) as [Hlt | Hge];
    try (eexists; eexists; split; [reflexivity |];
         split; [reflexivity | simpl; lia]);
    try (exfalso; lia).
  destruct (probe_once_cases w) as (w1 & Henv & Hcur & Hnow & Hp).
  destruct (reply (script (env w) (cursor w))) as [resp | e] eqn:Hr.
  - rewrite Hp. destruct (Z.eqb_spec (status_code resp) 200) as [H200 | Hne].
    + exists (Returns true), w1. split; [reflexivity |].
      split; [assumption |]. exists (cursor w), resp. auto.
    + destruct (IH (snd (sleep 1000 w1))) as (r & w' & E & He & Hends).
      { unfold sleep; cbn [snd now]; lia. }
      exists r, w'. split; [exact E |]. unfold prober_ends, sleep in He, Hends; cbn [snd env cursor now] in He, Hends.
      split; [congruence |]. rewrite Henv in Hends.
      destruct r as [[|] | e].
      * destruct Hends as (k & resp' & Hk & ?). exists k, resp'.
        split; [lia | assumption].
      * assumption.
      * destruct Hends as (Hex & k & Hk & ?). split; [assumption |].
        exists k. split; [lia | assumption].
  - rewrite Hp. destruct (isinstance e "Exception") eqn:Hex.
    + destruct (IH (snd (sleep 1000 w1))) as (r & w' & E & He & Hends).
      { unfold sleep; cbn [snd now]; lia. }
      exists r, w'. split; [exact E |]. unfold prober_ends, sleep in He, Hends; cbn [snd env cursor now] in He, Hends.
      split; [congruence |]. rewrite Henv in Hends.
      destruct r as [[|] | e'].
      * destruct Hends as (k & resp' & Hk & ?). exists k, resp'.
        split; [lia | assumption].
      * assumption.
      * destruct Hends as (Hex' & k & Hk & ?). split; [assumption |].
        exists k. split; [lia | assumption].
    + exists (Raises e), w1. split; [reflexivity |].
      split; [assumption |]. split; [assumption |]. exists (cursor w). auto.
Qed.

Lemma wait_for_gateway_ends max_wait w :
  exists r w',
    wait_for_gateway max_wait w = Some (r, w') /\
    prober_ends (now w) max_wait w r w'.
Proof.
  unfold wait_for_gateway.
  set (w0 := snd (console_print _ w)).
  destruct (wait_for_gateway_loop_ends (now w0) max_wait
              (Z.to_nat max_wait) w0) as (r & w' & E & Hends).
  { subst w0. unfold console_print. cbn [snd now]. lia. }
  exists r, w'. split; [exact E | exact Hends].
Qed.

(** A probe that does not end the prober: it is answered with another
    status than 200, or it fails with an [Exception]. *)
Definition swallowed (ev : http_event) : bool :=
  match reply ev with
  | Answers r => negb (status_code r =? 200)
  | Fails e => isinstance e "Exception"
  end.

(** What the probe that ends the prober makes it end with. *)
Definition verdict_of (ev : http_event) : outcome bool :=
  match reply ev with
  | Answers _ => Returns true
  | Fails e => Raises e
  end.

(** The time [m] swallowed probes take from the [c]-th event on, each
    followed by the sleep of one second. *)
Fixpoint waited (s : nat -> http_event) (c m : nat) : Z :=
  match m with
  | O => 0
  | S m' => Z.of_nat (elapsed (s c)) + 1000 + waited s (S c) m'
  end.

Lemma waited_nonneg s m : forall c, 0 <= waited s c m.
Proof.
  induction m as [| m IH]; intros c; cbn [waited]; [lia |].
  specialize (IH (S c)). lia.
Qed.

(** The run of the prober, probe by probe: [n] probes were made, each
    started before the deadline; all but the last, or all when the answer is
    [False], were swallowed and followed by a sleep; the last one decides
    [True] or the exception; [False] comes after the deadline only. *)
Definition probed (start max_wait : Z) (w : World) (n : nat)
    (r : outcome bool) (w' : World) : Prop :=
  let s := script (env w) in
  let c := cursor w in
  env w' = env w /\ cursor w' = (c + n)%nat /\
  match r with
  | Returns false =>
      (forall j, (j < n)%nat -> swallowed (s (c + j)%nat) = true) /\
      now w' = now w + waited s c n /\
      max_wait * 1000 <= now w' - start
  | _ =>
      exists m, n = S m /\
        (forall j, (j < m)%nat -> swallowed (s (c + j)%nat) = true) /\
        now w + waited s c m - start < max_wait * 1000 /\
        swallowed (s (c + m)%nat) = false /\
        r = verdict_of (s (c + m)%nat) /\
        now w' = now w + waited s c m + Z.of_nat (elapsed (s (c + m)%nat))
  end.

Lemma probe_once_verdict w :
  let ev := script (env w) (cursor w) in
  exists w1,
    env w1 = env w /\ cursor w1 = S (cursor w) /\
    now w1 = now w + Z.of_nat (elapsed ev) /\
    probe_once w =
    (if swallowed ev then Returns false else verdict_of ev, w1).
Proof.
  destruct (probe_once_cases w) as (w1 & He & Hc & Hn & Hp).
  exists w1. split; [exact He |]. split; [exact Hc |]. split; [exact Hn |].
  unfold swallowed, verdict_of.
  destruct (reply (script (env w) (cursor w))) as [r | e]; rewrite Hp.
  - now destruct (status_code r =? 200).
  - reflexivity.
Qed.

Lemma below_S (P : nat -> Prop) m :
  P O -> (forall j, (j < m)%nat -> P (S j)) -> forall j, (j < S m)%nat -> P j.
Proof.
  intros H0 HS [| j] Hj; [exact H0 | apply HS; lia].
Qed.

Lemma wait_for_gateway_loop_probed start max_wait :
  forall fuel w,
    max_wait * 1000 - (now w - start) <= 1000 * Z.of_nat fuel ->
    exists r w' n,
      wait_for_gateway_loop (S fuel) start max_wait w = Some (r, w') /\
      probed start max_wait w n r w'.
Proof.
  induction fuel as [| fuel IH]; intros w Hfuel;
    rewrite wait_for_gateway_loop_step;
    destruct (Z.ltb_spec (now w - start) (max_wait * 1000)) as [Hlt | Hge];
    try (exfalso; lia);
    try (eexists; eexists; exists O; split; [reflexivity |];
         unfold probed; cbn; rewrite Nat.add_0_r;
         repeat split; try lia; intros j Hj; lia).
  destruct (probe_once_verdict w) as (w1 & Henv & Hcur & Hnow & Hp).
  cbv zeta in Hnow, Hp. rewrite Hp.
  destruct (swallowed (script (env w) (cursor w))) eqn:Hsw.
  - destruct (IH (snd (sleep 1000 w1))) as (r & w' & n & E & He & Hc & Hr).
    { unfold sleep. cbn [snd now]. lia. }
    unfold sleep in He, Hc, Hr. cbn [snd env cursor now] in He, Hc, Hr.
    rewrite Henv, Hcur, Hnow in *.
    exists r, w', (S n). split; [exact E |].
    split; [exact He |]. split; [lia |].
    assert (Hidx : forall j, (S (cursor w) + j = cursor w + S j)%nat)
      by (intros; lia).
    destruct r as [[|] | e].
    + destruct Hr as (m & -> & Hbefore & Hstart & Hlast & Hv & Hn).
      exists (S m). rewrite Hidx in Hlast, Hv, Hn. cbn [waited].
      split; [reflexivity |]. split; [| repeat split; try assumption; lia].
      apply below_S; [now rewrite Nat.add_0_r |].
      intros j Hj. rewrite <- Hidx. now apply Hbefore.
    + destruct Hr as (Hall & Hn & Hd). cbn [waited].
      split; [| split; lia].
      apply below_S; [now rewrite Nat.add_0_r |].
      intros j Hj. rewrite <- Hidx. now apply Hall.
    + destruct Hr as (m & -> & Hbefore & Hstart & Hlast & Hv & Hn).
      exists (S m). rewrite Hidx in Hlast, Hv, Hn. cbn [waited].
      split; [reflexivity |]. split; [| repeat split; try assumption; lia].
      apply below_S; [now rewrite Nat.add_0_r |].
      intros j Hj. rewrite <- Hidx. now apply Hbefore.
  - exists (verdict_of (script (env w) (cursor w))), w1, 1%nat.
    assert (Hv : probed start max_wait w 1
                   (verdict_of (script (env w) (cursor w))) w1).
    { split; [exact Henv |]. split; [lia |].
      assert (Hm : exists m, 1%nat = S m /\
                (forall j, (j < m)%nat ->
                           swallowed (script (env w) (cursor w + j)%nat) = true) /\
                now w + waited (script (env w)) (cursor w) m - start
                  < max_wait * 1000 /\
                swallowed (script (env w) (cursor w + m)%nat) = false /\
                verdict_of (script (env w) (cursor w)) =
                  verdict_of (script (env w) (cursor w + m)%nat) /\
                now w1 = now w + waited (script (env w)) (cursor w) m
                         + Z.of_nat (elapsed (script (env w) (cursor w + m)%nat))).
      { exists O. rewrite Nat.add_0_r. cbn [waited].
        repeat split; try assumption; try lia. }
      unfold verdict_of in *.
      destruct (reply (script (env w) (cursor w))); exact Hm. }
    split; [| exact Hv]. unfold verdict_of.
    destruct (reply (script (env w) (cursor w))); reflexivity.
Qed.

(** The probe that is not swallowed and is reached before the deadline ends
    the prober. *)
Lemma wait_for_gateway_loop_reaches start max_wait :
  forall m fuel w,
    max_wait * 1000 - (now w - start) <= 1000 * Z.of_nat fuel ->
    (forall j, (j < m)%nat ->
               swallowed (script (env w) (cursor w + j)%nat) = true) ->
    now w + waited (script (env w)) (cursor w) m - start < max_wait * 1000 ->
    swallowed (script (env w) (cursor w + m)%nat) = false ->
    exists w',
      wait_for_gateway_loop (S fuel) start max_wait w =
      Some (verdict_of (script (env w) (cursor w + m)%nat), w') /\
      cursor w' = (cursor w + S m)%nat.
Proof.
  induction m as [| m IH]; intros fuel w Hfuel Hbefore Hstart Hlast;
    rewrite wait_for_gateway_loop_step;
    pose proof (fun k => waited_nonneg (script (env w)) k (S (cursor w)))
      as Hpos;
    [| specialize (Hpos m)];
    cbn [waited] in Hstart;
    destruct (Z.ltb_spec (now w - start) (max_wait * 1000)) as [Hlt | Hge];
    try (exfalso; lia);
    destruct (probe_once_verdict w) as (w1 & Henv & Hcur & Hnow & Hp);
    cbv zeta in Hnow, Hp; rewrite Hp.
  - rewrite Nat.add_0_r in *. rewrite Hlast. exists w1.
    unfold verdict_of.
    destruct (reply (script (env w) (cursor w)));
      (split; [reflexivity | lia]).
  - pose proof (Hbefore O ltac:(lia)) as H0. rewrite Nat.add_0_r in H0.
    rewrite H0.
    destruct fuel as [| fuel]; [exfalso; lia |].
    set (w2 := snd (sleep 1000 w1)).
    assert (He2 : env w2 = env w) by (subst w2; cbn; exact Henv).
    assert (Hc2 : cursor w2 = S (cursor w)) by (subst w2; cbn; exact Hcur).
    assert (Hn2 : now w2 = now w1 + 1000) by (subst w2; reflexivity).
    destruct (IH fuel w2) as (w' & E & Hc).
    + lia.
    + rewrite He2, Hc2. intros j Hj.
      replace (S (cursor w) + j)%nat with (cursor w + S j)%nat by lia.
      apply Hbefore. lia.
    + rewrite He2, Hc2, Hn2, Hnow. lia.
    + rewrite He2, Hc2.
      replace (S (cursor w) + m)%nat with (cursor w + S m)%nat by lia.
      exact Hlast.
    + rewrite He2, Hc2 in E. rewrite Hc2 in Hc.
      replace (S (cursor w) + m)%nat with (cursor w + S m)%nat in E by lia.
      exists w'. split; [exact E | lia].
Qed.

(** The whole of what is proved of [wait_for_gateway]. *)
Lemma wait_for_gateway_probed max_wait w :
  exists r w' n,
    wait_for_gateway max_wait w = Some (r, w') /\
    prober_ends (now w) max_wait w r w' /\
    probed (now w) max_wait w n r w' /\
    (forall m,
       (forall j, (j < m)%nat ->
                  swallowed (script (env w) (cursor w + j)%nat) = true) ->
       waited (script (env w)) (cursor w) m < max_wait * 1000 ->
       swallowed (script (env w) (cursor w + m)%nat) = false ->
       r = verdict_of (script (env w) (cursor w + m)%nat) /\ n = S m).
Proof.
  destruct (wait_for_gateway_ends max_wait w) as (r0 & w0' & E0 & Hends).
  unfold wait_for_gateway in *.
  set (w0 := snd (console_print _ w)) in *.
  destruct (wait_for_gateway_loop_probed (now w0) max_wait
              (Z.to_nat max_wait) w0) as (r & w' & n & E & Hp).
  { subst w0. unfold console_print. cbn [snd now]. lia. }
  rewrite E in E0. injection E0 as <- <-.
  exists r, w', n. split; [exact E |]. split; [exact Hends |].
  split; [exact Hp |].
  intros m Hbefore Hstart Hlast.
  destruct (wait_for_gateway_loop_reaches (now w0) max_wait m
              (Z.to_nat max_wait) w0) as (w2 & E2 & Hc2);
    try assumption.
  - subst w0. unfold console_print. cbn [snd now]. lia.
  - subst w0. cbn [snd console_print now env cursor]. lia.
  - rewrite E in E2. injection E2 as -> <-.
    split; [reflexivity |].
    destruct Hp as (_ & Hc & _). subst w0.
    cbn [snd console_print cursor] in Hc, Hc2. lia.
Qed.

Lemma run_tests_total w : exists r w', run_tests w = Some (r, w').
Proof.
  unfold run_tests.
  destruct (wait_for_gateway_ends 60 (announce w)) as (r & w1 & E & _).
  rewrite E. destruct r as [[|] | e].
  - destruct (run_tests_ready w1) as [r2 w2]. eauto.
  - eauto.
  - eauto.
Qed.
End Prober.

(** *** The summary file *)

(** C8.  The summary document is written only if [/results], the parent
    directory of the fixed output path, exists; and a written document holds
    the results of the run, all of them and in their order, with [passed]
    and [failed] the numbers of those that passed and of those that failed,
    so that [passed + failed == len(results)].  Without the directory
    nothing is written, and with it a run that reaches its end has written
    the document. *)
Theorem summary_written_only_with_directory `{PyRuntime}
    (e : Env) (r : ending) (w : World) :
  run_tests (boot e) = Some (r, w) ->
  (forall doc,
     written w = Some doc ->
     results_dir_exists e = true /\
     sum_results doc = results w /\
     sum_passed doc = count_passed (results w) /\
     sum_failed doc = count_failed (results w) /\
     (sum_passed doc + sum_failed doc = List.length (sum_results doc))%nat) /\
  (results_dir_exists e = false -> written w = None) /\
  (forall b, r = Finished b -> results_dir_exists e = true ->
             written w = Some (summary_of (results w))).
Proof.
  intros Hrun.
  destruct (run_tests_store e r w Hrun) as [[Hnone Hfin] | (Hdir & Hdoc & Hr)].
  - split; [intros doc Hw; congruence |]. split; [intros _; exact Hnone |].
    intros b Hb Hd. rewrite (Hfin b Hb) in Hd. discriminate.
  - split; [| split; [congruence | intros; exact Hdoc]].
    intros doc Hw. rewrite Hdoc in Hw. injection Hw as <-.
    cbn [summary_of sum_results sum_passed sum_failed].
    repeat split; try assumption. apply count_split.
Qed.

(** A run that writes the file: the gateway is up, no agent is listed and
    [/results] exists. *)
Lemma summary_written_witness :
  exists r w doc,
    @run_tests Sample.runtime (boot Sample.quiet_gateway) = Some (r, w) /\
    written w = Some doc /\
    List.length (results w) = 2%nat /\
    sum_results doc = results w /\
    (sum_passed doc + sum_failed doc = 2)%nat.
Proof.
  destruct (@run_tests Sample.runtime (boot Sample.quiet_gateway))
    as [[r w] |] eqn:Hrun; [| vm_compute in Hrun; discriminate].
  pose proof (@summary_written_only_with_directory Sample.runtime
                Sample.quiet_gateway r w Hrun) as (Hdoc & _ & Hfin).
  assert (Hlen : List.length (results w) = 2%nat).
  { vm_compute in Hrun. injection Hrun as _ <-. reflexivity. }
  assert (Hr : exists b, r = Finished b).
  { vm_compute in Hrun. injection Hrun as <- _. eauto. }
  destruct Hr as (b & Hr).
  exists r, w, (summary_of (results w)).
  split; [reflexivity |].
  pose proof (Hfin b Hr eq_refl) as Hw. split; [exact Hw |].
  split; [exact Hlen |].
  destruct (Hdoc _ Hw) as (_ & Hres & _ & _ & Hsum).
  split; [exact Hres |]. rewrite Hsum, Hres. exact Hlen.
Defined.

(** *** The agent listing of [run_tests] *)

(** C10.  When the readiness probe has succeeded and the request for
    [/api/agents] that follows it in [run_tests] raises, nothing handles the
    exception: it leaves [run_tests], the process ends with status 1, no
    [TestResult] was produced, no scenario request was made, the results table
    was not printed and the summary file was not written. *)
Theorem agent_listing_failure_is_unhandled `{PyRuntime}
    (e : Env) (w1 : World) (ex : exn) :
  wait_for_gateway 60 (announce (boot e)) = Some (Returns true, w1) ->
  reply (script e (cursor w1)) = Fails ex ->
  exists w',
    run_tests (boot e) = Some (Uncaught ex, w') /\
    main e = Some (1, w') /\
    results w' = [] /\
    requests w' = (requests w1 ++ [GET "/api/agents"])%list /\
    existsb is_table (console w') = false /\
    written w' = None.
Proof.
  intros Hready Hreply.
  destruct (untouched_wait_for_gateway _ _ _ _ Hready) as (He & Hw & Hr & Hc).
  simpl in He, Hw, Hr, Hc.
  assert (Hrun : run_tests_ready w1 =
                 (Raises ex, snd (send_request (GET "/api/agents") w1))).
  { unfold run_tests_ready, fetch_agent_ids, client_get, send_request, bind.
    rewrite He, Hreply. reflexivity. }
  exists (snd (send_request (GET "/api/agents") w1)).
  unfold main, run_tests. rewrite Hready, Hrun.
  rewrite send_request_world. cbn [finish exit_code results requests console written].
  rewrite Hr, Hw, Hc. repeat split.
Qed.

Lemma agent_listing_failure_witness :
  exists w',
    @main Sample.runtime Sample.listing_unreachable = Some (1, w') /\
    results w' = [] /\ written w' = None.
Proof.
  destruct (@agent_listing_failure_is_unhandled Sample.runtime
              Sample.listing_unreachable
              (snd (probe_once
                      (snd (console_print
                              (Say "[yellow]Waiting for gateway to be ready...[/yellow]")
                              (announce (boot Sample.listing_unreachable))))))
              Sample.ConnectError eq_refl eq_refl)
    as (w' & _ & Hmain & Hres & _ & _ & Hwr).
  exists w'. repeat split; assumption.
Defined.

(** *** The stream parser of [send_message] *)

Lemma split_lines_nonempty s : split_lines s <> [].
Proof.
  destruct s as [| c s]; simpl; [discriminate |].
  destruct (Ascii.eqb c newline); [discriminate |].
  destruct (split_lines s); discriminate.
Qed.

(** [split_lines] undoes joining with newlines. *)
Lemma split_lines_join s :
  String.concat (String newline EmptyString) (split_lines s) = s.
Proof.
  induction s as [| c s IH]; simpl; [reflexivity |].
  destruct (Ascii.eqb_spec c newline) as [-> | Hc].
  - pose proof (split_lines_nonempty s) as Hne.
    simpl. destruct (split_lines s) as [| l ls]; [contradiction |].
    simpl in *. now rewrite IH.
  - pose proof (split_lines_nonempty s) as Hne.
    destruct (split_lines s) as [| l ls]; [contradiction |].
    destruct ls; simpl in *; now rewrite <- IH.
Qed.

Section Stream.
Context `{PyRuntime}.

(** As the specification words it: the payloads of the lines that carry
    the marker and whose remainder decodes, in order. *)
Definition spec_events (body : string) : list json :=
  flat_map (fun line =>
              if String.prefix "data: " line
              then match json_loads (drop 6 line) with
                   | Some v => [v]
                   | None => []
                   end
              else [])
           (split_lines body).

Definition field_of (v : json) : option json :=
  match v with
  | JObj d => dict_get "full_response" d
  | _ => None
  end.

(** The [full_response] field of the last payload that has one. *)
Fixpoint last_field (events : list json) : option json :=
  match events with
  | [] => None
  | v :: rest =>
      match last_field rest with
      | Some x => Some x
      | None => field_of v
      end
  end.

Definition spec_full_response (events : list json) : json :=
  match last_field events with
  | Some x => x
  | None => JNull
  end.

Definition is_object (v : json) : bool :=
  match v with JObj _ => true | _ => false end.

Definition line_events (lines : list string) : list json :=
  flat_map (fun line =>
              if String.prefix "data: " line
              then match json_loads (drop 6 line) with
                   | Some v => [v]
                   | None => []
                   end
              else [])
           lines.

(** A payload on which neither ["full_response" in data] nor
    [data["full_response"]] raises: an object, or an array or a string that
    does not contain ["full_response"]. *)
Definition harmless (v : json) : bool :=
  match v with
  | JObj _ => true
  | JArr l => negb (existsb (fun x => eq_str x "full_response") l)
  | JStr s => negb (contains "full_response" s)
  | _ => false
  end.

(** What the decoder makes of a line that carries the marker. *)
Definition payload (line : string) : option json :=
  if String.prefix "data: " line then json_loads (drop 6 line) else None.

(** A line on which the decoder, if it fails, fails with
    [json.JSONDecodeError], the one failure line 95 catches. *)
Definition decodes_or_malformed (line : string) : bool :=
  if String.prefix "data: " line then
    match json_loads (drop 6 line) with
    | Some _ => true
    | None => isinstance (decode_error (drop 6 line)) "JSONDecodeError"
    end
  else true.

(** What the parser raises, when it does: the [TypeError] of a payload that
    is not harmless, or what the decoder raised on a line. *)
Definition parser_raises (lines : list string) (e : exn) : Prop :=
  isinstance e "TypeError" = true \/
  exists line,
    In line lines /\ String.prefix "data: " line = true /\
    json_loads (drop 6 line) = None /\ e = decode_error (drop 6 line) /\
    isinstance e "JSONDecodeError" = false.

Lemma parser_raises_cons line lines e :
  parser_raises lines e -> parser_raises (line :: lines) e.
Proof.
  intros [Ht | (l & Hin & ?)]; [now left | right].
  exists l. split; [now right | assumption].
Qed.

Lemma line_events_cons line lines :
  line_events (line :: lines) =
  (match payload line with Some v => [v] | None => [] end
   ++ line_events lines)%list.
Proof.
  unfold line_events, payload. cbn [flat_map].
  now destruct (String.prefix "data: " line).
Qed.

Lemma sse_line_cases line acc :
  if decodes_or_malformed line
  then match payload line with
       | None => sse_line line acc = Returns acc
       | Some v =>
           if harmless v
           then sse_line line acc =
                Returns ((fst acc ++ [v])%list,
                         match field_of v with Some x => x | None => snd acc end)
           else exists e, sse_line line acc = Raises e /\
                          isinstance e "TypeError" = true
       end
  else sse_line line acc = Raises (decode_error (drop 6 line)) /\
       String.prefix "data: " line = true /\
       json_loads (drop 6 line) = None /\
       isinstance (decode_error (drop 6 line)) "JSONDecodeError" = false.
Proof.
  unfold decodes_or_malformed, payload, sse_line, loads.
  destruct (String.prefix "data: " line); [| reflexivity].
  destruct (json_loads (drop 6 line)) as [v |].
  - destruct v as [| b | n | f | s | l | d];
      cbn -[drop String.prefix contains];
      try (eexists; split; reflexivity).
    + destruct (contains "full_response" s); cbn;
        [eexists; split; reflexivity | reflexivity].
    + destruct (existsb (fun x => eq_str x "full_response") l); cbn;
        [eexists; split; reflexivity | reflexivity].
    + unfold dict_has. now destruct (dict_get "full_response" d).
  - destruct (isinstance (decode_error (drop 6 line)) "JSONDecodeError");
      [reflexivity | now repeat split].
Qed.

Lemma sse_lines_cases lines : forall evs fr,
  if forallb decodes_or_malformed lines && forallb harmless (line_events lines)
  then sse_lines lines (evs, fr) =
       Returns ((evs ++ line_events lines)%list,
                match last_field (line_events lines) with
                | Some x => x
                | None => fr
                end)
  else exists e, sse_lines lines (evs, fr) = Raises e /\ parser_raises lines e.
Proof.
  induction lines as [| line lines IH]; intros evs fr.
  - cbn. now rewrite app_nil_r.
  - rewrite line_events_cons. cbn [sse_lines forallb].
    pose proof (sse_line_cases line (evs, fr)) as Hl.
    destruct (decodes_or_malformed line); cbn [andb].
    + destruct (payload line) as [v |]; cbn [app forallb].
      * destruct (harmless v); cbn [andb].
        -- rewrite Hl. cbn [obind fst snd].
           specialize (IH (evs ++ [v])%list
                          (match field_of v with Some x => x | None => fr end)).
           destruct (forallb decodes_or_malformed lines
                     && forallb harmless (line_events lines)).
           ++ rewrite IH, <- app_assoc. cbn [app last_field].
              now destruct (last_field (line_events lines)).
           ++ destruct IH as (e & -> & He). exists e.
              split; [reflexivity | now apply parser_raises_cons].
        -- rewrite andb_false_r. destruct Hl as (e & -> & He). exists e.
           split; [reflexivity | now left].
      * rewrite Hl. cbn [obind]. specialize (IH evs fr).
        destruct (forallb decodes_or_malformed lines
                  && forallb harmless (line_events lines)).
        -- exact IH.
        -- destruct IH as (e & -> & He). exists e.
           split; [reflexivity | now apply parser_raises_cons].
    + destruct Hl as (-> & Hp & Hn & Hj). eexists. split; [reflexivity |].
      right. exists line. repeat split; try assumption. now left.
Qed.

(** What a leg of the fan-out, or any [send_message], ends with is decided
    by the event that answers its request. *)
Definition leg_outcome (ev : http_event) : outcome SendResult :=
  match reply ev with
  | Fails e => Raises e
  | Answers resp =>
      parsed <~ parse_sse (text resp) ;;
      Returns {| sr_status_code := status_code resp;
                 sr_events := fst parsed;
                 sr_full_response := snd parsed |}
  end.

Lemma send_message_runs a c w :
  send_message a c w =
  (leg_outcome (script (env w) (cursor w)),
   snd (send_request (POST "/api/send" a c "e2e-test" TIMEOUT_SECONDS) w)).
Proof.
  unfold send_message, client_post, leg_outcome, send_request, bind, lift, ret.
  destruct (reply (script (env w) (cursor w))) as [resp | e]; [| reflexivity].
  simpl. now destruct (parse_sse (text resp)).
Qed.
End Stream.

(** C6, amended.  For every response body on whose lines the decoder fails,
    if it does, with [json.JSONDecodeError], and whose payloads that decode
    are objects, or arrays or strings that do not contain ["full_response"],
    the stream parser of [send_message] goes through the lines of the body
    split on newlines, keeps exactly the payloads of the lines that start
    with ["data: "] and whose remainder decodes, in order, as the events; the
    aggregated response is the ["full_response"] field of the last payload
    that has one, [None] when no payload has; lines that do not decode are
    skipped and nothing is raised.  [send_message] returns this with the
    status code whenever its request is answered.  On every other body the
    parser raises: the [TypeError] of a payload, or what the decoder
    raised. *)
Theorem stream_parser_on_objects `{PyRuntime} (body : string) :
  (forallb decodes_or_malformed (split_lines body) = true ->
   forallb harmless (spec_events body) = true ->
   parse_sse body =
     Returns (spec_events body, spec_full_response (spec_events body)) /\
   forall a c w resp,
     reply (script (env w) (cursor w)) = Answers resp ->
     text resp = body ->
     fst (send_message a c w) =
     Returns {| sr_status_code := status_code resp;
                sr_events := spec_events body;
                sr_full_response := spec_full_response (spec_events body) |}) /\
  (forallb decodes_or_malformed (split_lines body)
   && forallb harmless (spec_events body) = false ->
   exists e, parse_sse body = Raises e /\ parser_raises (split_lines body) e).
Proof.
  pose proof (sse_lines_cases (split_lines body) [] JNull) as Hc.
  change (line_events (split_lines body)) with (spec_events body) in Hc.
  split.
  - intros Hdec Hobj. rewrite Hdec, Hobj in Hc. cbn [andb app] in Hc.
    assert (P : parse_sse body =
                Returns (spec_events body, spec_full_response (spec_events body)))
      by exact Hc.
    split; [exact P |].
    intros a c w resp Hreply <-. rewrite send_message_runs. simpl.
    unfold leg_outcome. rewrite Hreply, P. reflexivity.
  - intros Hbad. rewrite Hbad in Hc. exact Hc.
Qed.

Lemma stream_parser_witness :
  @parse_sse Sample.runtime Sample.hello =
  Returns ([JObj [("delta", JStr "hel")]; JObj [("full_response", JStr "hello")]],
           JStr "hello").
Proof.
  exact (proj1 (proj1 (@stream_parser_on_objects Sample.runtime Sample.hello)
                  eq_refl eq_refl)).
Defined.

(** C6 as stated fails: a line whose payload decodes to a number makes
    [send_message]'s parser raise [TypeError]. *)
Lemma stream_parser_raises_on_number :
  exists e,
    @parse_sse Sample.runtime (Sample.sse "5") = Raises e /\
    isinstance e "TypeError" = true /\
    @json_loads Sample.runtime "5" = Some (JNum 5).
Proof.
  eexists. split; [reflexivity |]. split; reflexivity.
Qed.

(** *** The fan-out *)

Definition fanout_post (a : json) : request :=
  POST "/api/send" a fanout_prompt "e2e-test" TIMEOUT_SECONDS.

Definition fanout_targets (log : list request) : list json :=
  flat_map (fun rq => match rq with
                      | POST _ a content _ _ =>
                          if String.eqb content fanout_prompt then [a] else []
                      | GET _ => []
                      end) log.

Lemma fanout_targets_app l1 l2 :
  fanout_targets (l1 ++ l2) = (fanout_targets l1 ++ fanout_targets l2)%list.
Proof. apply flat_map_app. Qed.

Lemma fanout_targets_posts ids : fanout_targets (map fanout_post ids) = ids.
Proof. induction ids as [| a ids IH]; simpl; [reflexivity | now rewrite IH]. Qed.

Lemma fanout_targets_other rq :
  is_fanout rq = false -> fanout_targets [rq] = [].
Proof.
  destruct rq as [p | p a c s t]; simpl; [reflexivity |].
  now intros ->.
Qed.

Section Fanout.
Context `{PyRuntime}.

Definition fanout_tasks (ids : list json) : list (M SendResult) :=
  map (fun agent_id => send_message agent_id fanout_prompt) ids.

(** The legs of a fan-out over [n] targets started in [w]: the k-th is
    decided by the k-th event from the cursor on, and by nothing else. *)
Definition fanout_legs (n : nat) (w : World) : list (outcome SendResult) :=
  map (fun k => leg_outcome (script (env w) (cursor w + k))) (seq 0 n).

Lemma gather_legs_fanout ids : forall t0 w,
  exists w',
    gather_legs t0 (fanout_tasks ids) w = (fanout_legs (List.length ids) w, w') /\
    env w' = env w /\
    cursor w' = (cursor w + List.length ids)%nat /\
    requests w' = (requests w ++ map fanout_post ids)%list /\
    results w' = results w.
Proof.
  induction ids as [| a ids IH]; intros t0 w.
  - exists w. simpl. rewrite Nat.add_0_r, app_nil_r. now repeat split.
  - cbn [fanout_tasks map gather_legs]. rewrite send_message_runs.
    fold (fanout_tasks ids).
    set (w1 := snd (send_request _ (set_now t0 w))).
    destruct (IH t0 (set_now (Z.max (now w) (now w1)) w1))
      as (w' & E & He & Hc & Hq & Hr).
    rewrite E. exists w'.
    assert (W1 : env w1 = env w /\ cursor w1 = S (cursor w) /\
                 requests w1 = (requests w ++ [fanout_post a])%list /\
                 results w1 = results w).
    { subst w1. rewrite send_request_world. now repeat split. }
    destruct W1 as (He1 & Hc1 & Hq1 & Hr1).
    cbn [set_now env cursor requests results] in He, Hc, Hq, Hr.
    split; [| repeat split].
    + f_equal. unfold fanout_legs. cbn [List.length seq map set_now env cursor].
      rewrite Nat.add_0_r. f_equal.
      rewrite <- seq_shift, map_map. apply map_ext. intros k.
      rewrite He1, Hc1. f_equal. f_equal. lia.
    + congruence.
    + rewrite Hc, Hc1. simpl. lia.
    + rewrite Hq, Hq1, <- app_assoc. reflexivity.
    + congruence.
Qed.

Lemma forallb_leg_passed legs :
  forallb leg_passed legs = true <->
  (forall r, In r legs ->
             exists d, r = Returns d /\ sr_full_response d <> JNull).
Proof.
  rewrite forallb_forall. split; intros Hall r Hin; specialize (Hall r Hin).
  - destruct r as [d | e]; simpl in Hall; [| discriminate].
    exists d. split; [reflexivity |].
    destruct (sr_full_response d); simpl in Hall; discriminate || congruence.
  - destruct Hall as (d & -> & Hd). simpl.
    destruct (sr_full_response d); simpl; congruence.
Qed.

(** How [test_parallel_messages] runs. *)
Lemma test_parallel_messages_runs ids w :
  let legs := fanout_legs (List.length ids) w in
  exists w',
    test_parallel_messages ids w =
    (Returns {| name := "parallel-messages";
                passed := forallb leg_passed legs;
                duration_ms := ms_between (now w) (now w');
                error := if forallb leg_passed legs then None
                         else Some "Some agents failed to respond" |}, w') /\
    env w' = env w /\
    requests w' = (requests w ++ map fanout_post ids)%list /\
    results w' = results w.
Proof.
  intros legs.
  destruct (gather_legs_fanout ids (now w) w) as (w' & E & He & _ & Hq & Hr).
  exists w'. unfold test_parallel_messages, try_except, bind, time_time, gather.
  fold (fanout_tasks ids). rewrite E. fold legs. simpl.
  now repeat split.
Qed.
End Fanout.

(** X18.  What the code of the fan-out does.  The scenario always ends with
    one [TestResult] named ["parallel-messages"]; what each concurrent call
    ends with is decided by the answer to its own request alone; the scenario
    passes iff every call returns with an aggregated response that is not
    [None] (an empty one counts, and the status code is not looked at); and
    if any call raises, the scenario is recorded as failed, with the error
    ["Some agents failed to respond"], while the entries of the other calls are
    what they would be without it. *)
Theorem fanout_passes_iff `{PyRuntime} (ids : list json) (w : World) :
  let legs := fanout_legs (List.length ids) w in
  exists tr w',
    test_parallel_messages ids w = (Returns tr, w') /\
    name tr = "parallel-messages" /\
    fst (gather (fanout_tasks ids) w) = Returns legs /\
    (passed tr = true <->
     forall r, In r legs ->
               exists d, r = Returns d /\ sr_full_response d <> JNull) /\
    (forall k, (k < List.length ids)%nat ->
               nth_error legs k =
               Some (leg_outcome (script (env w) (cursor w + k)))) /\
    (forall e, In (Raises e) legs ->
               passed tr = false /\
               error tr = Some "Some agents failed to respond").
Proof.
  intros legs.
  destruct (test_parallel_messages_runs ids w) as (w' & E & _).
  fold legs in E. eexists. exists w'. split; [exact E |]. cbn [name passed error].
  split; [reflexivity |]. split; [| split; [| split]].
  - unfold gather.
    destruct (gather_legs_fanout ids (now w) w) as (w2 & E2 & _).
    now rewrite E2.
  - apply forallb_leg_passed.
  - intros k Hk. subst legs. unfold fanout_legs.
    rewrite nth_error_map.
    rewrite (nth_error_nth' (seq 0 (List.length ids)) O)
      by (now rewrite length_seq).
    rewrite seq_nth by assumption. reflexivity.
  - intros e Hin.
    assert (Hf : forallb leg_passed legs = false).
    { destruct (forallb leg_passed legs) eqn:Hall; [| reflexivity].
      rewrite forallb_forall in Hall. now specialize (Hall _ Hin). }
    rewrite Hf. split; reflexivity.
Qed.

(** C2.  The fan-out does not ask for a non-empty aggregated response, as
    the single-target scenario does.  With two targets that are both answered
    with status 200 and an empty aggregated response, each call returns the
    empty string and the fan-out passes, without an error text; the
    single-target scenario on the same answer fails with
    ["No response received"]. *)
Theorem fanout_passes_on_empty_responses :
  let w := boot Sample.empty_replies in
  let ids := [JStr "a1"; JStr "a2"] in
  let empty := {| sr_status_code := 200;
                  sr_events := [JObj [("full_response", JStr "")]];
                  sr_full_response := JStr "" |} in
  let verdict (r : outcome TestResult) :=
    match r with
    | Returns tr => Some (name tr, passed tr, error tr)
    | Raises _ => None
    end in
  fst (gather (@fanout_tasks Sample.runtime ids) w) =
    Returns [Returns empty; Returns empty] /\
  verdict (fst (@test_parallel_messages Sample.runtime ids w)) =
    Some ("parallel-messages", true, None) /\
  verdict (fst (@test_simple_message Sample.runtime (JStr "a1") w)) =
    Some ("simple-message-a1", false, Some "No response received").
Proof. repeat split. Qed.

(** *** Who the fan-out is sent to *)

Definition same_targets (w w' : World) : Prop :=
  fanout_targets (requests w') = fanout_targets (requests w).

Lemma same_targets_refl w : same_targets w w.
Proof. reflexivity. Qed.

Lemma same_targets_trans a b c :
  same_targets a b -> same_targets b c -> same_targets a c.
Proof. unfold same_targets. congruence. Qed.

Lemma same_targets_request rq :
  is_fanout rq = false -> keeps same_targets (send_request rq).
Proof.
  intros Hrq w. unfold same_targets. rewrite send_request_world. simpl.
  now rewrite fanout_targets_app, (fanout_targets_other rq Hrq), app_nil_r.
Qed.

Section Targets.
Context `{PyRuntime}.

Lemma same_targets_fetch : keeps same_targets fetch_agent_ids.
Proof.
  apply keeps_fetch_agent_ids;
    [exact same_targets_refl | exact same_targets_trans
     | exact same_targets_request].
Qed.

Lemma same_targets_sequential ids : keeps same_targets (sequential_tests ids).
Proof.
  apply keeps_sequential_tests;
    [exact same_targets_refl | exact same_targets_trans
     | exact same_targets_request | intros ev _ w | intros r w];
    reflexivity.
Qed.

Lemma report_requests w : requests (snd (report w)) = requests w.
Proof. apply (report_store w). Qed.

(** The fan-out's requests of one pass over the scenarios. *)
Definition sent_to (ids T : list json) (ended : bool) : Prop :=
  (T = [] \/ ((2 <= List.length ids)%nat /\ T = firstn 2 ids)) /\
  (ended = true ->
   T = if Nat.leb 2 (List.length ids) then firstn 2 ids else []).

Lemma parallel_tests_targets ids w :
  exists w',
    parallel_tests ids w = (Returns tt, w') /\
    fanout_targets (requests w') =
    (fanout_targets (requests w) ++
     (if Nat.leb 2 (List.length ids) then firstn 2 ids else []))%list.
Proof.
  unfold parallel_tests.
  destruct (Nat.leb 2 (List.length ids)).
  - unfold bind.
    match goal with
    | |- context [console_print ?ev w] =>
        set (w0 := snd (console_print ev w));
        change (console_print ev w) with (Returns tt, w0)
    end.
    cbv iota beta.
    destruct (test_parallel_messages_runs (firstn 2 ids) w0)
      as (w1 & E & _ & Hq & _).
    rewrite E. eexists. split; [reflexivity |]. cbn [requests].
    rewrite Hq. subst w0. cbn [snd console_print requests].
    now rewrite fanout_targets_app, fanout_targets_posts.
  - exists w. split; [reflexivity |]. now rewrite app_nil_r.
Qed.

Lemma run_scenarios_targets ids w :
  exists T,
    fanout_targets (requests (snd (run_scenarios ids w))) =
    (fanout_targets (requests w) ++ T)%list /\
    sent_to ids T (returned (fst (run_scenarios ids w))).
Proof.
  unfold run_scenarios, bind.
  pose proof (same_targets_sequential ids w) as Hseq. unfold same_targets in Hseq.
  destruct (sequential_tests ids w) as [[[] | e] w1]; simpl in Hseq.
  - destruct (parallel_tests_targets ids w1) as (w2 & E & Hq).
    rewrite E. simpl. rewrite Hq, Hseq. eexists. split; [reflexivity |].
    split; [| reflexivity].
    destruct (Nat.leb_spec 2 (List.length ids)); [right | left]; auto.
  - exists []. simpl. rewrite Hseq, app_nil_r. split; [reflexivity |].
    split; [now left | discriminate].
Qed.

Lemma listed_agents_targets ids w r wf :
  (console_print_markup (agents_text ids) (SayAgents ids) ;;;
   run_scenarios ids ;;; report) w = (r, wf) ->
  exists T,
    fanout_targets (requests wf) = (fanout_targets (requests w) ++ T)%list /\
    sent_to ids T (returned r).
Proof.
  intros Er. unfold bind at 1, console_print_markup in Er.
  destruct (render_error (agents_text ids)) as [e |].
  - injection Er as <- <-. exists []. cbn [returned]. rewrite app_nil_r.
    split; [reflexivity |]. split; [now left | discriminate].
  - cbn [console_print] in Er. unfold bind in Er.
    match type of Er with
    | context [run_scenarios ids ?wb] =>
        destruct (run_scenarios_targets ids wb) as (T & HT & Hsent & Hend);
        assert (Hwb : requests wb = requests w) by reflexivity;
        destruct (run_scenarios ids wb) as [[[] | e] w3]
    end; cbn [fst snd returned] in *; exists T.
    + pose proof (report_requests w3) as Hrq. rewrite Er in Hrq.
      cbn [snd] in Hrq. rewrite Hrq, HT, Hwb.
      split; [reflexivity |]. split; [assumption |]. intros _. now apply Hend.
    + injection Er as <- <-. rewrite HT, Hwb. split; [reflexivity |].
      split; [assumption | discriminate].
Qed.

Lemma run_tests_ready_targets w ids w1 :
  fetch_agent_ids w = (Returns ids, w1) ->
  exists T,
    fanout_targets (requests (snd (run_tests_ready w))) =
    (fanout_targets (requests w) ++ T)%list /\
    sent_to ids T (returned (fst (run_tests_ready w))).
Proof.
  intros Hfetch.
  pose proof (same_targets_fetch w) as Hf. rewrite Hfetch in Hf.
  unfold same_targets in Hf. cbn [snd] in Hf.
  destruct (run_tests_ready w) as [r wf] eqn:Er. cbn [fst snd].
  unfold run_tests_ready in Er. rewrite (bind_returned _ _ _ _ _ Hfetch) in Er.
  cbv beta in Er. unfold bind at 1 in Er.
  destruct ids as [| a ids]; cbn [console_print ret] in Er;
    apply listed_agents_targets in Er as (T & HT & Hsent);
    exists T; cbn [requests] in HT; rewrite HT, Hf; now split.
Qed.
End Targets.

(** C9.  With [ids] the agent ids [run_tests] has fetched, the requests the
    fan-out makes during the run are none at all or those for exactly the
    first two ids, the latter only when at least two agents are listed; and
    when the run reaches its end they are the first two ids if there are at
    least two (never all of three or more), and none otherwise. *)
Theorem fanout_goes_to_first_two `{PyRuntime} (w w1 : World) (ids : list json) :
  fetch_agent_ids w = (Returns ids, w1) ->
  exists T,
    fanout_targets (requests (snd (run_tests_ready w))) =
    (fanout_targets (requests w) ++ T)%list /\
    (T = [] \/ ((2 <= List.length ids)%nat /\ T = firstn 2 ids)) /\
    (returned (fst (run_tests_ready w)) = true ->
     T = if Nat.leb 2 (List.length ids) then firstn 2 ids else []).
Proof.
  intros Hfetch.
  destruct (run_tests_ready_targets w ids w1 Hfetch) as (T & HT & Hsent & Hend).
  exists T. split; [exact HT |]. split; [exact Hsent | exact Hend].
Qed.

Lemma fanout_goes_to_first_two_witness :
  exists T,
    fanout_targets
      (requests (snd (@run_tests_ready Sample.runtime
                        (boot Sample.three_agents_listed)))) = T /\
    T = [JStr "a1"; JStr "a2"].
Proof.
  destruct (@fanout_goes_to_first_two Sample.runtime
              (boot Sample.three_agents_listed)
              (snd (@fetch_agent_ids Sample.runtime
                      (boot Sample.three_agents_listed)))
              [JStr "a1"; JStr "a2"; JStr "a3"] eq_refl)
    as (T & HT & _ & Hend).
  exists T. split; [exact HT |]. exact (Hend eq_refl).
Defined.

(** *** Scenarios and exceptions *)

(** A scenario is contained when it ends with a [TestResult] unless what is
    raised in it is not an [Exception]. *)
Definition contained {A} (f : M A) : Prop :=
  forall w, match fst (f w) with
            | Returns _ => True
            | Raises e => isinstance e "Exception" = false
            end.

(** A scenario records a failure of its request when an [Exception] raised
    by the request makes it return a failed [TestResult] with the text of the
    exception as its error. *)
Definition records_failure `{PyRuntime} (f : M TestResult) (nm : string)
    : Prop :=
  forall w e,
    reply (script (env w) (cursor w)) = Fails e ->
    isinstance e "Exception" = true ->
    exists w',
      f w = (Returns {| name := nm; passed := false;
                        duration_ms := ms_between (now w) (now w');
                        error := Some (message e) |}, w').

Definition same_results (w w' : World) : Prop := results w' = results w.

Lemma same_results_refl w : same_results w w.
Proof. reflexivity. Qed.

Lemma same_results_trans a b c :
  same_results a b -> same_results b c -> same_results a c.
Proof. unfold same_results. congruence. Qed.

Lemma same_results_request rq : keeps same_results (send_request rq).
Proof. intros w. unfold same_results. now rewrite send_request_world. Qed.

Section Containment.
Context `{PyRuntime}.

Lemma contained_try {A} (body : M A) (handler : exn -> M A) :
  (forall e w, exists a w', handler e w = (Returns a, w')) ->
  contained (try_except ["Exception"] body handler).
Proof.
  intros Hh w. unfold try_except.
  destruct (body w) as [[a | e] w1]; simpl; [exact I |].
  rewrite orb_false_r. destruct (isinstance e "Exception") eqn:He; simpl.
  - destruct (Hh e w1) as (a & w' & ->). exact I.
  - exact He.
Qed.

Lemma failed_with_returns nm start e w :
  exists a w', failed_with nm start e w = (Returns a, w').
Proof. unfold failed_with, bind, time_time, ret. eauto. Qed.

Lemma contained_after_time {A} (k : Z -> M A) :
  (forall t, contained (k t)) -> contained (bind time_time k).
Proof. intros Hk w. apply (Hk (now w) w). Qed.

Ltac contain :=
  repeat (apply contained_after_time; intros ?);
  cbv zeta; apply contained_try; intros; apply failed_with_returns.

Lemma contained_test_gateway_health : contained test_gateway_health.
Proof. unfold test_gateway_health. contain. Qed.

Lemma contained_test_agent_list : contained test_agent_list.
Proof. unfold test_agent_list. contain. Qed.

Lemma contained_test_simple_message a : contained (test_simple_message a).
Proof. unfold test_simple_message. contain. Qed.

Lemma contained_test_pack_tool_log_entry a :
  contained (test_pack_tool_log_entry a).
Proof. unfold test_pack_tool_log_entry. contain. Qed.

Lemma contained_test_pack_tool_log_search a :
  contained (test_pack_tool_log_search a).
Proof. unfold test_pack_tool_log_search. contain. Qed.

Lemma contained_test_parallel_messages ids :
  contained (test_parallel_messages ids).
Proof. unfold test_parallel_messages. contain. Qed.

(** The request of a scenario fails. *)

Lemma get_fails path w e :
  reply (script (env w) (cursor w)) = Fails e ->
  client_get path w = (Raises e, snd (send_request (GET path) w)).
Proof. unfold client_get, send_request. now intros ->. Qed.

Lemma send_message_fails a c w e :
  reply (script (env w) (cursor w)) = Fails e ->
  send_message a c w =
  (Raises e,
   snd (send_request (POST "/api/send" a c "e2e-test" TIMEOUT_SECONDS) w)).
Proof.
  intros Hr. rewrite send_message_runs. unfold leg_outcome. now rewrite Hr.
Qed.

Lemma records_test_gateway_health :
  records_failure test_gateway_health "gateway-health".
Proof.
  unfold records_failure, test_gateway_health.
  intros w e Hr He. unfold try_except, failed_with, bind, time_time, ret.
  rewrite (get_fails _ _ _ Hr). cbn [existsb]. rewrite He. cbn [orb].
  rewrite send_request_world. eexists. reflexivity.
Qed.

Lemma records_test_agent_list : records_failure test_agent_list "agent-list".
Proof.
  unfold records_failure, test_agent_list.
  intros w e Hr He. unfold try_except, failed_with, bind, time_time, ret.
  rewrite (get_fails _ _ _ Hr). cbn [existsb]. rewrite He. cbn [orb].
  rewrite send_request_world. eexists. reflexivity.
Qed.

Lemma records_test_simple_message a :
  records_failure (test_simple_message a) ("simple-message-" ++ py_str a).
Proof.
  unfold records_failure, test_simple_message.
  intros w e Hr He. unfold try_except, failed_with, bind, time_time, ret.
  rewrite (send_message_fails _ _ _ _ Hr). cbn [existsb]. rewrite He. cbn [orb].
  rewrite send_request_world. eexists. reflexivity.
Qed.

Lemma records_test_pack_tool_log_entry a :
  records_failure (test_pack_tool_log_entry a)
                  ("pack-tool-log-entry-" ++ py_str a).
Proof.
  unfold records_failure, test_pack_tool_log_entry.
  intros w e Hr He. unfold try_except, failed_with, bind, time_time, ret.
  rewrite (send_message_fails _ _ _ _ Hr). cbn [existsb]. rewrite He. cbn [orb].
  rewrite send_request_world. eexists. reflexivity.
Qed.

Lemma records_test_pack_tool_log_search a :
  records_failure (test_pack_tool_log_search a)
                  ("pack-tool-log-search-" ++ py_str a).
Proof.
  unfold records_failure, test_pack_tool_log_search.
  intros w e Hr He. unfold try_except, failed_with, bind, time_time, ret.
  rewrite (send_message_fails _ _ _ _ Hr). cbn [existsb]. rewrite He. cbn [orb].
  rewrite send_request_world. eexists. reflexivity.
Qed.
End Containment.

(** *** The run goes on *)

(** [appends stops n m]: [m] ends with [n] more results in the list, unless
    what is raised in it is not an [Exception] or is one that [stops]
    allows. *)
Definition appends (stops : exn -> Prop) (n : nat) (m : M unit) : Prop :=
  forall w, match m w with
            | (Returns _, w') =>
                List.length (results w') = (List.length (results w) + n)%nat
            | (Raises e, _) => isinstance e "Exception" = false \/ stops e
            end.

Lemma appends_weaken (P Q : exn -> Prop) n m :
  (forall e, P e -> Q e) -> appends P n m -> appends Q n m.
Proof.
  intros HPQ Hm w. specialize (Hm w).
  destruct (m w) as [[a | e] w1]; [exact Hm |].
  destruct Hm as [Hm | Hm]; [now left | right; auto].
Qed.

Lemma appends_bind P n k (m : M unit) (f : unit -> M unit) :
  appends P n m -> (forall a, appends P k (f a)) -> appends P (n + k) (bind m f).
Proof.
  intros Hm Hf w. unfold bind. specialize (Hm w).
  destruct (m w) as [[a | e] w1]; [| exact Hm].
  specialize (Hf a w1). destruct (f a w1) as [[b | e] w2]; [lia | exact Hf].
Qed.

Lemma appends_say P ev : appends P 0 (console_print ev).
Proof. intros w. simpl. lia. Qed.

Lemma appends_scenario P k (f : M TestResult) (rest : M unit) :
  contained f -> keeps same_results f -> appends P k rest ->
  appends P (S k) (r <- f ;; results_append r ;;; rest).
Proof.
  intros Hc Hk Hrest w. unfold bind. specialize (Hc w). specialize (Hk w).
  unfold same_results in Hk.
  destruct (f w) as [[r | e] w1]; simpl in *; [| now left].
  match goal with |- context [rest ?w2] => specialize (Hrest w2);
    destruct (rest w2) as [[[] | e] w3] end; [| exact Hrest].
  simpl in Hrest. rewrite length_app, Hk in Hrest. simpl in Hrest. lia.
Qed.

Lemma appends_ret P : appends P 0 (ret tt).
Proof. intros w. simpl. lia. Qed.

Section Continues.
Context `{PyRuntime}.

Ltac results_kept :=
  first [ exact same_results_refl | exact same_results_trans
        | intros rq _; exact (same_results_request rq)
        | exact same_results_request
        | intros ? ?; reflexivity
        | intros ? ? ?; reflexivity ].

(** What line 310 raises for one of the agents: the [MarkupError] of its
    id. *)
Definition testing_line_raises (ids : list json) (e : exn) : Prop :=
  exists a, In a ids /\ render_error (testing_text a) = Some e.

Lemma appends_say_markup a :
  appends (testing_line_raises [a]) 0
          (console_print_markup (testing_text a) (SayTesting a)).
Proof.
  intros w. unfold console_print_markup.
  destruct (render_error (testing_text a)) as [e |] eqn:Hr.
  - right. exists a. split; [now left | exact Hr].
  - simpl. lia.
Qed.

Lemma appends_per_agent_tests ids :
  appends (testing_line_raises ids) (3 * List.length ids) (per_agent_tests ids).
Proof.
  induction ids as [| a ids IH].
  - intros w. simpl. lia.
  - cbn [per_agent_tests].
    replace (3 * List.length (a :: ids))%nat
      with (0 + S (S (S (3 * List.length ids))))%nat by (simpl; lia).
    apply appends_bind; [| intros _].
    { eapply appends_weaken; [| apply appends_say_markup].
      intros e (a' & [<- | []] & Hr). exists a. split; [now left | exact Hr]. }
    apply appends_scenario;
      [apply contained_test_simple_message
      | apply keeps_test_simple_message; results_kept |].
    apply appends_scenario;
      [apply contained_test_pack_tool_log_entry
      | apply keeps_test_pack_tool_log_entry; results_kept |].
    apply appends_scenario;
      [apply contained_test_pack_tool_log_search
      | apply keeps_test_pack_tool_log_search; results_kept |].
    eapply appends_weaken; [| exact IH].
    intros e (a' & Hin & Hr). exists a'. split; [now right | exact Hr].
Qed.

Definition scenario_count (ids : list json) : nat :=
  2 + 3 * List.length ids + (if Nat.leb 2 (List.length ids) then 1 else 0).

Lemma appends_run_scenarios ids :
  appends (testing_line_raises ids) (scenario_count ids) (run_scenarios ids).
Proof.
  unfold run_scenarios, scenario_count.
  apply appends_bind; [| intros _].
  - unfold sequential_tests.
    change (2 + 3 * List.length ids)%nat
      with (0 + S (S (3 * List.length ids)))%nat.
    apply appends_bind; [apply appends_say | intros _].
    apply appends_scenario;
      [apply contained_test_gateway_health
      | apply keeps_test_gateway_health; results_kept |].
    apply appends_scenario;
      [apply contained_test_agent_list
      | apply keeps_test_agent_list; results_kept |].
    apply appends_per_agent_tests.
  - unfold parallel_tests. destruct (Nat.leb 2 (List.length ids)).
    + apply (appends_bind _ 0 1); [apply appends_say | intros _].
      intros w.
      pose proof (contained_test_parallel_messages (firstn 2 ids) w) as Hc.
      destruct (test_parallel_messages_runs (firstn 2 ids) w)
        as (w' & E & _ & _ & Hr).
      cbv beta. unfold bind. rewrite E. simpl.
      rewrite length_app, Hr. reflexivity.
    + apply appends_ret.
Qed.

(** When the line about every agent renders, the pass appends one result per
    scenario unless something that is not an [Exception] is raised. *)
Lemma run_scenarios_goes_on ids w :
  (forall a, In a ids -> render_error (testing_text a) = None) ->
  match run_scenarios ids w with
  | (Returns _, w') =>
      List.length (results w') =
      (List.length (results w) + scenario_count ids)%nat
  | (Raises e, _) => isinstance e "Exception" = false
  end.
Proof.
  intros Hok. pose proof (appends_run_scenarios ids w) as Ha.
  destruct (run_scenarios ids w) as [[[] | e] w']; [exact Ha |].
  destruct Ha as [Ha | (a & Hin & Hr)]; [exact Ha |].
  rewrite (Hok a Hin) in Hr. discriminate.
Qed.
End Continues.

(** *** The verdict *)

Section Verdict.
Context `{PyRuntime}.

Lemma report_verdict w b w' :
  report w = (Returns b, w') ->
  results w' = results w /\ b = Nat.eqb (count_failed (results w)) 0.
Proof.
  intros E. pose proof (report_store w) as (_ & Hres & _ & _ & Hret).
  cbv zeta in Hres, Hret. rewrite E in Hres, Hret. cbn [fst snd] in *.
  split; [exact Hres | apply (Hret b eq_refl)].
Qed.

Lemma run_tests_ready_verdict w b w' :
  run_tests_ready w = (Returns b, w') ->
  b = Nat.eqb (count_failed (results w')) 0.
Proof.
  intros E. apply run_tests_ready_cases in E as (w2 & _ & [E | (e & E & _)]);
    [| discriminate].
  apply report_verdict in E as [-> ->]. reflexivity.
Qed.

(** How [run_tests] ends, and the status [main] gives the process. *)
Lemma run_tests_ending (e : Env) :
  exists r w,
    run_tests (boot e) = Some (r, w) /\
    main e = Some (exit_code r, w) /\
    match r with
    | Finished _ => exit_code r = 0 <-> count_failed (results w) = O
    | Uncaught _ => exit_code r = 1
    | SysExit c =>
        c = 1 /\ results w = [] /\
        exists w1, wait_for_gateway 60 (announce (boot e))
                   = Some (Returns false, w1)
    end.
Proof.
  unfold main.
  destruct (run_tests_total (boot e)) as (r & w & E). rewrite E.
  exists r, w. split; [reflexivity |]. split; [reflexivity |].
  unfold run_tests in E.
  destruct (wait_for_gateway 60 (announce (boot e)))
    as [[[[|] | ex] w1] |] eqn:Ew; try discriminate.
  - destruct (run_tests_ready w1) as [[b | ex] w2] eqn:Er;
      injection E as <- <-; simpl; [| reflexivity].
    apply run_tests_ready_verdict in Er. subst b.
    destruct (count_failed (results w2)); simpl; split;
      intros; congruence || lia.
  - injection E as <- <-. split; [reflexivity |].
    apply untouched_wait_for_gateway in Ew as (_ & _ & Hr & _).
    simpl in *. split; [assumption |]. eauto.
  - injection E as <- <-. reflexivity.
Qed.
End Verdict.

End GatewayFacts.


(** ** The jail runner *)

Module JailFacts.
Import Jail.

(** The world a network operation leaves, however it ends. *)
Lemma perform_world o w :
  snd (perform o w) =
  {| env := env w;
     now := now w + Z.of_nat (elapsed (script (env w) (cursor w)));
     cursor := S (cursor w); ops := (ops w ++ [o])%list;
     stdout := stdout w |}.
Proof.
  unfold perform. now destruct (reply (script (env w) (cursor w))).
Qed.

(** *** The readiness prober *)

(** One probe, by what the network does with the connection. *)
Lemma connect_once_cases url w :
  let ev := script (env w) (cursor w) in
  exists w1,
    env w1 = env w /\ cursor w1 = S (cursor w) /\
    now w1 = now w + Z.of_nat (elapsed ev) /\
    match reply ev with
    | Delivers _ => async_with_connect url (ret true) w = (Returns true, w1)
    | Fails e => async_with_connect url (ret true) w = (Raises e, w1)
    end.
Proof.
  unfold async_with_connect, perform, bind, ret, ws_close. simpl.
  destruct (reply (script (env w) (cursor w))) as [f | e]; simpl;
    eexists; (split; [| split; [| split; [| reflexivity]]]); reflexivity.
Qed.

(** How the prober may end: ready after a connection was opened, not ready
    once the deadline has passed, or with an exception that is neither a
    [ConnectionRefusedError] nor an [OSError]. *)
Definition prober_ends (start timeout : Z) (w : World)
    (r : outcome bool) (w' : World) : Prop :=
  env w' = env w /\
  match r with
  | Returns true =>
      exists k frame, (cursor w <= k)%nat /\ cursor w' = S k /\
        reply (script (env w) k) = Delivers frame
  | Returns false => timeout <= now w' - start
  | Raises e =>
      existsb (isinstance e) ["ConnectionRefusedError"; "OSError"] = false /\
      exists k, (cursor w <= k)%nat /\ reply (script (env w) k) = Fails e
  end.

Lemma wait_for_server_loop_step fuel start timeout url w :
  wait_for_server_loop (S fuel) start timeout url w =
  if now w - start <? timeout then
    match async_with_connect url (ret true) w with
    | (Raises e, w1) =>
        if existsb (isinstance e) ["ConnectionRefusedError"; "OSError"]
        then wait_for_server_loop fuel start timeout url (snd (sleep 200 w1))
        else Some (Raises e, w1)
    | r => Some r
    end
  else Some (Returns false, w).
Proof. reflexivity. Qed.

Lemma wait_for_server_loop_ends start timeout url :
  forall fuel w,
    timeout - (now w - start) <= 200 * Z.of_nat fuel ->
    exists r w',
      wait_for_server_loop (S fuel) start timeout url w = Some (r, w') /\
      prober_ends start timeout w r w'.
Proof.
  induction fuel as [| fuel IH]; intros w Hfuel;
    rewrite wait_for_server_loop_step;
    destruct (Z.ltb_spec (now w - start) timeout) as [Hlt | Hge];
    try (eexists; eexists; split; [reflexivity |];
         split; [reflexivity | simpl; lia]);
    try (exfalso; lia).
  destruct (connect_once_cases url w) as (w1 & Henv & Hcur & Hnow & Hp).
  destruct (reply (script (env w) (cursor w))) as [f | e] eqn:Hr; rewrite Hp.
  - exists (Returns true), w1. split; [reflexivity |].
    split; [assumption |]. exists (cursor w), f. auto.
  - destruct (existsb (isinstance e) ["ConnectionRefusedError"; "OSError"])
      eqn:Hex.
    + destruct (IH (snd (sleep 200 w1))) as (r & w' & E & He & Hends).
      { unfold sleep; cbn [snd now]; lia. }
      exists r, w'. split; [exact E |].
      unfold sleep in He, Hends; cbn [snd env cursor now] in He, Hends.
      split; [congruence |]. rewrite Henv in Hends.
      destruct r as [[|] | e'].
      * destruct Hends as (k & f & Hk & ?). exists k, f.
        split; [lia | assumption].
      * assumption.
      * destruct Hends as (Hex' & k & Hk & ?). split; [assumption |].
        exists k. split; [lia | assumption].
    + exists (Raises e), w1. split; [reflexivity |].
      split; [assumption |]. split; [assumption |]. exists (cursor w). auto.
Qed.

Lemma wait_for_server_ends url timeout w :
  exists r w',
    wait_for_server url timeout w = Some (r, w') /\
    prober_ends (now w) timeout w r w'.
Proof.
  unfold wait_for_server.
  replace (Z.to_nat (timeout / 200) + 2)%nat
    with (S (Z.to_nat (timeout / 200) + 1)) by lia.
  apply wait_for_server_loop_ends.
  pose proof (Z.mul_succ_div_gt timeout 200 ltac:(lia)). lia.
Qed.

(** A probe that does not end the prober: the connection fails with a
    [ConnectionRefusedError] or another [OSError]. *)
Definition swallowed (ev : ws_event) : bool :=
  match reply ev with
  | Delivers _ => false
  | Fails e => existsb (isinstance e) ["ConnectionRefusedError"; "OSError"]
  end.

(** What the probe that ends the prober makes it end with. *)
Definition verdict_of (ev : ws_event) : outcome bool :=
  match reply ev with
  | Delivers _ => Returns true
  | Fails e => Raises e
  end.

(** The time [m] swallowed probes take from the [c]-th event on, each
    followed by the sleep of 200 milliseconds. *)
Fixpoint waited (s : nat -> ws_event) (c m : nat) : Z :=
  match m with
  | O => 0
  | S m' => Z.of_nat (elapsed (s c)) + 200 + waited s (S c) m'
  end.

Lemma pauses_nonneg s m : forall c, 0 <= waited s c m.
Proof.
  induction m as [| m IH]; intros c; cbn [waited]; [lia |].
  specialize (IH (S c)). lia.
Qed.

(** The run of the prober, probe by probe, as for the gateway. *)
Definition probed (start timeout : Z) (w : World) (n : nat)
    (r : outcome bool) (w' : World) : Prop :=
  let s := script (env w) in
  let c := cursor w in
  env w' = env w /\ cursor w' = (c + n)%nat /\
  match r with
  | Returns false =>
      (forall j, (j < n)%nat -> swallowed (s (c + j)%nat) = true) /\
      now w' = now w + waited s c n /\
      timeout <= now w' - start
  | _ =>
      exists m, n = S m /\
        (forall j, (j < m)%nat -> swallowed (s (c + j)%nat) = true) /\
        now w + waited s c m - start < timeout /\
        swallowed (s (c + m)%nat) = false /\
        r = verdict_of (s (c + m)%nat) /\
        now w' = now w + waited s c m + Z.of_nat (elapsed (s (c + m)%nat))
  end.

Lemma connect_once_verdict url w :
  let ev := script (env w) (cursor w) in
  exists w1,
    env w1 = env w /\ cursor w1 = S (cursor w) /\
    now w1 = now w + Z.of_nat (elapsed ev) /\
    async_with_connect url (ret true) w = (verdict_of ev, w1).
Proof.
  destruct (connect_once_cases url w) as (w1 & He & Hc & Hn & Hp).
  exists w1. split; [exact He |]. split; [exact Hc |]. split; [exact Hn |].
  unfold verdict_of.
  now destruct (reply (script (env w) (cursor w))).
Qed.

Lemma wait_for_server_loop_probed start timeout url :
  forall fuel w,
    timeout - (now w - start) <= 200 * Z.of_nat fuel ->
    exists r w' n,
      wait_for_server_loop (S fuel) start timeout url w = Some (r, w') /\
      probed start timeout w n r w'.
Proof.
  induction fuel as [| fuel IH]; intros w Hfuel;
    rewrite wait_for_server_loop_step;
    destruct (Z.ltb_spec (now w - start) timeout) as [Hlt | Hge];
    try (exfalso; lia);
    try (eexists; eexists; exists O; split; [reflexivity |];
         unfold probed; cbn; rewrite Nat.add_0_r;
         repeat split; try lia; intros j Hj; lia).
  destruct (connect_once_verdict url w) as (w1 & Henv & Hcur & Hnow & Hp).
  cbv zeta in Hnow, Hp. rewrite Hp.
  assert (Hlast : swallowed (script (env w) (cursor w)) = false ->
            probed start timeout w 1
              (verdict_of (script (env w) (cursor w))) w1).
  { intros Hsw. split; [exact Henv |]. split; [lia |].
    assert (Hm : exists m, 1%nat = S m /\
              (forall j, (j < m)%nat ->
                         swallowed (script (env w) (cursor w + j)%nat) = true) /\
              now w + waited (script (env w)) (cursor w) m - start < timeout /\
              swallowed (script (env w) (cursor w + m)%nat) = false /\
              verdict_of (script (env w) (cursor w)) =
                verdict_of (script (env w) (cursor w + m)%nat) /\
              now w1 = now w + waited (script (env w)) (cursor w) m
                       + Z.of_nat (elapsed (script (env w) (cursor w + m)%nat))).
    { exists O. rewrite Nat.add_0_r. cbn [waited].
      repeat split; try assumption; try lia. }
    unfold verdict_of in *.
    destruct (reply (script (env w) (cursor w))); exact Hm. }
  unfold swallowed in Hlast. unfold verdict_of at 1.
  destruct (reply (script (env w) (cursor w))) as [f | e] eqn:Hrep.
  - exists (Returns true), w1, 1%nat. split; [reflexivity |].
    unfold verdict_of in Hlast. rewrite Hrep in Hlast. now apply Hlast.
  - destruct (existsb (isinstance e) ["ConnectionRefusedError"; "OSError"])
      eqn:Hsw.
    + destruct (IH (snd (sleep 200 w1))) as (r & w' & n & E & He & Hc & Hr).
      { unfold sleep. cbn [snd now]. lia. }
      unfold sleep in He, Hc, Hr. cbn [snd env cursor now] in He, Hc, Hr.
      rewrite Henv, Hcur, Hnow in *.
      exists r, w', (S n). split; [exact E |].
      split; [exact He |]. split; [lia |].
      assert (Hidx : forall j, (S (cursor w) + j = cursor w + S j)%nat)
        by (intros; lia).
      assert (H0 : swallowed (script (env w) (cursor w + 0)%nat) = true)
        by (rewrite Nat.add_0_r; unfold swallowed; now rewrite Hrep).
      destruct r as [[|] | e'].
      * destruct Hr as (m & -> & Hbefore & Hstart & Hlst & Hv & Hn).
        exists (S m). rewrite Hidx in Hlst, Hv, Hn. cbn [waited].
        split; [reflexivity |]. split; [| repeat split; try assumption; lia].
        apply GatewayFacts.below_S; [exact H0 |].
        intros j Hj. rewrite <- Hidx. now apply Hbefore.
      * destruct Hr as (Hall & Hn & Hd). cbn [waited].
        split; [| split; lia].
        apply GatewayFacts.below_S; [exact H0 |].
        intros j Hj. rewrite <- Hidx. now apply Hall.
      * destruct Hr as (m & -> & Hbefore & Hstart & Hlst & Hv & Hn).
        exists (S m). rewrite Hidx in Hlst, Hv, Hn. cbn [waited].
        split; [reflexivity |]. split; [| repeat split; try assumption; lia].
        apply GatewayFacts.below_S; [exact H0 |].
        intros j Hj. rewrite <- Hidx. now apply Hbefore.
    + exists (Raises e), w1, 1%nat. split; [reflexivity |].
      unfold verdict_of in Hlast. rewrite Hrep in Hlast. now apply Hlast.
Qed.

Lemma wait_for_server_loop_reaches start timeout url :
  forall m fuel w,
    timeout - (now w - start) <= 200 * Z.of_nat fuel ->
    (forall j, (j < m)%nat ->
               swallowed (script (env w) (cursor w + j)%nat) = true) ->
    now w + waited (script (env w)) (cursor w) m - start < timeout ->
    swallowed (script (env w) (cursor w + m)%nat) = false ->
    exists w',
      wait_for_server_loop (S fuel) start timeout url w =
      Some (verdict_of (script (env w) (cursor w + m)%nat), w') /\
      cursor w' = (cursor w + S m)%nat.
Proof.
  induction m as [| m IH]; intros fuel w Hfuel Hbefore Hstart Hlast;
    rewrite wait_for_server_loop_step;
    pose proof (fun k => pauses_nonneg (script (env w)) k (S (cursor w)))
      as Hpos;
    [| specialize (Hpos m)];
    cbn [waited] in Hstart;
    destruct (Z.ltb_spec (now w - start) timeout) as [Hlt | Hge];
    try (exfalso; lia);
    destruct (connect_once_verdict url w) as (w1 & Henv & Hcur & Hnow & Hp);
    cbv zeta in Hnow, Hp; rewrite Hp.
  - rewrite Nat.add_0_r in *. exists w1.
    unfold swallowed in Hlast. unfold verdict_of.
    destruct (reply (script (env w) (cursor w))) as [f | e];
      [split; [reflexivity | lia] |].
    rewrite Hlast. split; [reflexivity | lia].
  - pose proof (Hbefore O ltac:(lia)) as H0. rewrite Nat.add_0_r in H0.
    unfold swallowed in H0. unfold verdict_of at 1.
    destruct (reply (script (env w) (cursor w))) as [f | e];
      [discriminate |].
    rewrite H0.
    destruct fuel as [| fuel]; [exfalso; lia |].
    set (w2 := snd (sleep 200 w1)).
    assert (He2 : env w2 = env w) by (subst w2; cbn; exact Henv).
    assert (Hc2 : cursor w2 = S (cursor w)) by (subst w2; cbn; exact Hcur).
    assert (Hn2 : now w2 = now w1 + 200) by (subst w2; reflexivity).
    destruct (IH fuel w2) as (w' & E & Hc).
    + lia.
    + rewrite He2, Hc2. intros j Hj.
      replace (S (cursor w) + j)%nat with (cursor w + S j)%nat by lia.
      apply Hbefore. lia.
    + rewrite He2, Hc2, Hn2, Hnow. lia.
    + rewrite He2, Hc2.
      replace (S (cursor w) + m)%nat with (cursor w + S m)%nat by lia.
      exact Hlast.
    + rewrite He2, Hc2 in E. rewrite Hc2 in Hc.
      replace (S (cursor w) + m)%nat with (cursor w + S m)%nat in E by lia.
      exists w'. split; [exact E | lia].
Qed.

(** The whole of what is proved of [wait_for_server]. *)
Lemma wait_for_server_probed url timeout w :
  exists r w' n,
    wait_for_server url timeout w = Some (r, w') /\
    prober_ends (now w) timeout w r w' /\
    probed (now w) timeout w n r w' /\
    (forall m,
       (forall j, (j < m)%nat ->
                  swallowed (script (env w) (cursor w + j)%nat) = true) ->
       waited (script (env w)) (cursor w) m < timeout ->
       swallowed (script (env w) (cursor w + m)%nat) = false ->
       r = verdict_of (script (env w) (cursor w + m)%nat) /\ n = S m).
Proof.
  destruct (wait_for_server_ends url timeout w) as (r0 & w0' & E0 & Hends).
  unfold wait_for_server in *.
  replace (Z.to_nat (timeout / 200) + 2)%nat
    with (S (Z.to_nat (timeout / 200) + 1)) in * by lia.
  assert (Hfuel : timeout - (now w - now w)
                  <= 200 * Z.of_nat (Z.to_nat (timeout / 200) + 1)).
  { pose proof (Z.mul_succ_div_gt timeout 200 ltac:(lia)). lia. }
  destruct (wait_for_server_loop_probed (now w) timeout url
              (Z.to_nat (timeout / 200) + 1) w Hfuel) as (r & w' & n & E & Hp).
  rewrite E in E0. injection E0 as <- <-.
  exists r, w', n. split; [exact E |]. split; [exact Hends |].
  split; [exact Hp |].
  intros m Hbefore Hstart Hlast.
  destruct (wait_for_server_loop_reaches (now w) timeout url m
              (Z.to_nat (timeout / 200) + 1) w Hfuel Hbefore
              ltac:(lia) Hlast) as (w2 & E2 & Hc2).
  rewrite E in E2. injection E2 as -> <-.
  split; [reflexivity |]. destruct Hp as (_ & Hc & _). lia.
Qed.

(** *** The protocol round trip *)

Lemma eq_str_true v s : eq_str v s = true <-> v = JStr s.
Proof.
  destruct v; simpl; try (split; [discriminate | congruence]).
  rewrite String.eqb_eq. split; congruence.
Qed.

Lemma allowed_type v :
  existsb (eq_str v) allowed_types = true <->
  exists t, v = JStr t /\ In t allowed_types.
Proof.
  rewrite existsb_exists. split.
  - intros (t & Hin & Heq). apply eq_str_true in Heq. eauto.
  - intros (t & -> & Hin). exists t. split; [assumption |].
    now apply eq_str_true.
Qed.

(** As the specification words it: a reply whose type is one of the allowed
    ones and whose channel is the one of the query. *)
Definition well_formed_reply (v : json) : Prop :=
  exists d t,
    v = JObj d /\
    dict_get "type" d = Some (JStr t) /\ In t allowed_types /\
    dict_get "channel_id" d = Some (JStr "test-channel-123").

Section RoundTrip.
Context `{PyRuntime}.

Definition accepted (frame : string) : Prop :=
  exists v, json_loads frame = Some v /\ well_formed_reply v.

(** The checks on the frame received return the reply exactly when it is
    well formed; what they raise otherwise is no timeout. *)
Lemma check_query_reply_cases frame w :
  match fst (check_query_reply frame w) with
  | Returns v => json_loads frame = Some v /\ well_formed_reply v
  | Raises e =>
      isinstance e "asyncio.TimeoutError" = false /\ ~ accepted frame
  end.
Proof.
  unfold check_query_reply, accepted, loads, bind, lift, ret, print, assert_.
  destruct (json_loads frame) as [v |]; cbn [fst];
    [| split; [apply decode_error_not_timeout
              | intros (v & Hv & _); discriminate]].
  assert (Hother : (forall d, v <> JObj d) ->
                   ~ (exists v0, Some v = Some v0 /\ well_formed_reply v0)).
  { intros Hno (v0 & Hv & d & t & -> & _). injection Hv as ->.
    now apply (Hno d). }
  destruct v as [| | | | | | d];
    try (cbn; split; [reflexivity | apply Hother; discriminate]).
  clear Hother. cbn [py_get fst].
  destruct (dict_get "type" d) as [ty |] eqn:Hty; cbn [fst].
  - destruct (existsb (eq_str ty) allowed_types) eqn:Hal; cbn [fst].
    + apply allowed_type in Hal as (t & -> & Hin).
      destruct (dict_get "channel_id" d) as [ch |] eqn:Hch; cbn [fst].
      * destruct (eq_str ch "test-channel-123") eqn:Heq; cbn [fst].
        -- apply eq_str_true in Heq as ->. split; [reflexivity |].
           now exists d, t.
        -- split; [reflexivity |].
           intros (v0 & Hv & d0 & t0 & -> & _ & _ & Hch0).
           injection Hv as <-. rewrite Hch in Hch0. injection Hch0 as ->.
           simpl in Heq. discriminate.
      * split; [reflexivity |].
        intros (v0 & Hv & d0 & t0 & -> & _ & _ & Hch0).
        injection Hv as <-. congruence.
    + split; [reflexivity |].
      intros (v0 & Hv & d0 & t0 & -> & Hty0 & Hin & _).
      injection Hv as <-. rewrite Hty in Hty0. injection Hty0 as ->.
      assert (existsb (eq_str (JStr t0)) allowed_types = true)
        by (apply allowed_type; eauto).
      congruence.
  - split; [reflexivity |].
    intros (v0 & Hv & d0 & t0 & -> & Hty0 & _).
    injection Hv as <-. congruence.
Qed.

(** How the round trip ends once the connection is open and the query is
    sent: by the third operation, the [recv]. *)
Lemma test_query_message_protocol_runs w f0 f1 :
  reply (script (env w) (cursor w)) = Delivers f0 ->
  reply (script (env w) (S (cursor w))) = Delivers f1 ->
  exists w3,
    fst (test_query_message_protocol w) =
    match reply (script (env w) (S (S (cursor w)))) with
    | Delivers frame =>
        match fst (check_query_reply frame w3) with
        | Returns v => Returns v
        | Raises e =>
            if isinstance e "asyncio.TimeoutError" then Returns JNull
            else Raises e
        end
    | Fails e =>
        if isinstance e "asyncio.TimeoutError" then Returns JNull
        else Raises e
    end.
Proof.
  intros H0 H1.
  unfold test_query_message_protocol, async_with_connect, ws_send,
    wait_for_recv, bind, try_except, print, perform, ret, ws_close.
  cbn -[check_query_reply isinstance]. rewrite H0.
  cbn -[check_query_reply isinstance]. rewrite H1.
  cbn -[check_query_reply isinstance].
  destruct (reply (script (env w) (S (S (cursor w))))) as [frame | e].
  - match goal with
    | |- context [check_query_reply frame ?w3] =>
        exists w3; destruct (check_query_reply frame w3) as [[v | e] w4]
    end; cbn -[isinstance]; [reflexivity |].
    rewrite orb_false_r. now destruct (isinstance e "asyncio.TimeoutError").
  - exists w. cbn -[isinstance]. rewrite orb_false_r.
    now destruct (isinstance e "asyncio.TimeoutError").
Qed.
End RoundTrip.

(** C7.  Once the connection is open and the query with
    [channel_id = "test-channel-123"] is sent, the round-trip scenario passes
    iff either a reply arrives within the timeout that decodes to an object
    whose [type] is one of [text], [tool_use], [done], [error] and whose
    [channel_id] is ["test-channel-123"], or the wait for the reply ends with
    [asyncio.TimeoutError]: the timeout is a pass. *)
Theorem round_trip_passes_iff `{PyRuntime} (w : World) (f0 f1 : string) :
  reply (script (env w) (cursor w)) = Delivers f0 ->
  reply (script (env w) (S (cursor w))) = Delivers f1 ->
  let answer := reply (script (env w) (S (S (cursor w)))) in
  returned (fst (test_query_message_protocol w)) = true <->
  (exists frame, answer = Delivers frame /\ accepted frame) \/
  (exists e, answer = Fails e /\ isinstance e "asyncio.TimeoutError" = true).
Proof.
  intros H0 H1 answer.
  destruct (test_query_message_protocol_runs w f0 f1 H0 H1) as (w3 & ->).
  fold answer. destruct answer as [frame | e].
  - pose proof (check_query_reply_cases frame w3) as Hc.
    destruct (fst (check_query_reply frame w3)) as [v | e].
    + split; [intros _ | reflexivity]. left. exists frame.
      split; [reflexivity |]. now exists v.
    + destruct Hc as [-> Hno]. split; [discriminate |].
      intros [(frame' & Hf & Hacc) | (e' & He & _)]; [| discriminate].
      injection Hf as <-. contradiction.
  - destruct (isinstance e "asyncio.TimeoutError") eqn:He.
    + split; [intros _ | reflexivity]. right. now exists e.
    + split; [discriminate |].
      intros [(frame & Hf & _) | (e' & He' & Ht)]; [discriminate |].
      injection He' as <-. congruence.
Qed.

Lemma round_trip_witness :
  returned (fst (@test_query_message_protocol Sample.runtime
                   (boot Sample.jail_replying))) = true.
Proof.
  apply (@round_trip_passes_iff Sample.runtime (boot Sample.jail_replying)
           EmptyString EmptyString eq_refl eq_refl).
  left. exists Sample.text_reply. split; [reflexivity |].
  exists (JObj [("type", JStr "text"); ("channel_id", JStr "test-channel-123")]).
  split; [reflexivity |].
  exists [("type", JStr "text"); ("channel_id", JStr "test-channel-123")], "text".
  repeat split. simpl. auto.
Defined.

(** *** The invalid-message scenario *)

Section Invalid.
Context `{PyRuntime}.

(** A frame that decodes to an object of type [error]. *)
Definition error_reply (frame : string) : Prop :=
  exists d, json_loads frame = Some (JObj d) /\
            dict_get "type" d = Some (JStr "error").

Lemma check_invalid_reply_cases frame w :
  match fst (check_invalid_reply frame w) with
  | Returns _ => error_reply frame
  | Raises e =>
      isinstance e "asyncio.TimeoutError" = false /\ ~ error_reply frame
  end.
Proof.
  unfold check_invalid_reply, error_reply, loads, bind, lift, ret, print, assert_.
  destruct (json_loads frame) as [v |]; cbn [fst];
    [| split; [apply decode_error_not_timeout
              | intros (d & Hv & _); discriminate]].
  destruct v as [| | | | | | d];
    try (cbn; split; [reflexivity | intros (d & Hv & _); discriminate]).
  cbn [py_get fst].
  destruct (dict_get "type" d) as [ty |] eqn:Hty; cbn [fst].
  - destruct (eq_str ty "error") eqn:Heq; cbn [fst].
    + apply eq_str_true in Heq as ->. now exists d.
    + split; [reflexivity |]. intros (d0 & Hv & Hty0). injection Hv as <-.
      rewrite Hty in Hty0. injection Hty0 as ->. simpl in Heq. discriminate.
  - split; [reflexivity |]. intros (d0 & Hv & Hty0). injection Hv as <-.
    congruence.
Qed.

Lemma test_invalid_message_runs w f0 f1 :
  reply (script (env w) (cursor w)) = Delivers f0 ->
  reply (script (env w) (S (cursor w))) = Delivers f1 ->
  exists w3,
    fst (test_invalid_message w) =
    match reply (script (env w) (S (S (cursor w)))) with
    | Delivers frame =>
        match fst (check_invalid_reply frame w3) with
        | Returns v => Returns v
        | Raises e =>
            if isinstance e "asyncio.TimeoutError" then Returns tt
            else Raises e
        end
    | Fails e =>
        if isinstance e "asyncio.TimeoutError" then Returns tt
        else Raises e
    end.
Proof.
  intros H0 H1.
  unfold test_invalid_message, async_with_connect, ws_send,
    wait_for_recv, bind, try_except, print, perform, ret, ws_close.
  cbn -[check_invalid_reply isinstance]. rewrite H0.
  cbn -[check_invalid_reply isinstance]. rewrite H1.
  cbn -[check_invalid_reply isinstance].
  destruct (reply (script (env w) (S (S (cursor w))))) as [frame | e].
  - match goal with
    | |- context [check_invalid_reply frame ?w3] =>
        exists w3; destruct (check_invalid_reply frame w3) as [[v | e] w4]
    end; cbn -[isinstance]; [reflexivity |].
    rewrite orb_false_r. now destruct (isinstance e "asyncio.TimeoutError").
  - exists w. cbn -[isinstance]. rewrite orb_false_r.
    now destruct (isinstance e "asyncio.TimeoutError").
Qed.

(** What the code does: once the connection is open and the message is
    sent, the scenario passes iff a reply of type [error] arrives or the wait
    ends with [asyncio.TimeoutError]; anything else [recv] raises leaves the
    scenario. *)
Lemma invalid_message_passes_iff w f0 f1 :
  reply (script (env w) (cursor w)) = Delivers f0 ->
  reply (script (env w) (S (cursor w))) = Delivers f1 ->
  let answer := reply (script (env w) (S (S (cursor w)))) in
  returned (fst (test_invalid_message w)) = true <->
  (exists frame, answer = Delivers frame /\ error_reply frame) \/
  (exists e, answer = Fails e /\ isinstance e "asyncio.TimeoutError" = true).
Proof.
  intros H0 H1 answer.
  destruct (test_invalid_message_runs w f0 f1 H0 H1) as (w3 & ->).
  fold answer. destruct answer as [frame | e].
  - pose proof (check_invalid_reply_cases frame w3) as Hc.
    destruct (fst (check_invalid_reply frame w3)) as [v | e].
    + split; [intros _ | reflexivity]. left. now exists frame.
    + destruct Hc as [-> Hno]. split; [discriminate |].
      intros [(frame' & Hf & Hacc) | (e' & He & _)]; [| discriminate].
      injection Hf as <-. contradiction.
  - destruct (isinstance e "asyncio.TimeoutError") eqn:He.
    + split; [intros _ | reflexivity]. right. now exists e.
    + split; [discriminate |].
      intros [(frame & Hf & _) | (e' & He' & Ht)]; [discriminate |].
      injection He' as <-. congruence.
Qed.
End Invalid.

(** C5, on the code.  The server takes the invalid message and closes the
    connection without a reply: [recv] raises [ConnectionClosedOK], which is
    no [asyncio.TimeoutError]; the exception leaves the scenario, the run
    prints [ERROR] and the process ends with status 1.  With an [error] reply
    or a timeout in the same place the process ends with status 0. *)
Theorem invalid_message_fails_when_connection_closes :
  fst (@test_invalid_message Sample.runtime (boot Sample.jail_closing)) =
    Raises Sample.ConnectionClosedOK /\
  (exists w,
     @main Sample.runtime
       (Sample.jail_with (Sample.broken Sample.ConnectionClosedOK)) = Some (1, w) /\
     last (stdout w) (Print EmptyString) =
       Print "ERROR: received 1000 (OK); then sent 1000 (OK)") /\
  (exists w,
     @main Sample.runtime
       (Sample.jail_with (Sample.frame Sample.error_reply)) = Some (0, w)) /\
  (exists w,
     @main Sample.runtime
       (Sample.jail_with (Sample.broken Sample.TimeoutExpired)) = Some (0, w)).
Proof.
  split; [reflexivity |].
  split; [eexists; split; [vm_compute; reflexivity | reflexivity] |].
  split; eexists; vm_compute; reflexivity.
Qed.

(** *** The run *)

Section Run.
Context `{PyRuntime}.

Lemma all_scenarios_true w b w' :
  all_scenarios w = (Returns b, w') -> b = true.
Proof.
  unfold all_scenarios. intros E.
  repeat (apply bind_returns in E as (? & ? & _ & E)).
  now injection E as <- _.
Qed.

(** [run_scenarios] answers [True] exactly when no scenario raises. *)
Lemma run_scenarios_true w w' :
  run_scenarios w = (Returns true, w') <->
  all_scenarios (snd (print (Print "Server is ready!") w)) = (Returns true, w').
Proof.
  unfold run_scenarios, bind at 1. cbn [print snd].
  match goal with |- context [all_scenarios ?w0] =>
    destruct (all_scenarios w0) as [[b | e] w1] eqn:E end.
  - reflexivity.
  - split; [| discriminate].
    destruct (isinstance e "AssertionError");
      [discriminate | destruct (isinstance e "Exception"); discriminate].
Qed.

(** The four scenarios in the order of lines 157-160; what the second
    returns is dropped. *)
Definition scenarios : list (M unit) :=
  [test_connection; test_query_message_protocol ;;; ret tt;
   test_close_session; test_invalid_message].

Fixpoint in_turn (l : list (M unit)) : M unit :=
  match l with
  | [] => ret tt
  | m :: rest => m ;;; in_turn rest
  end.

Lemma all_scenarios_in_turn w :
  all_scenarios w =
  (in_turn scenarios ;;;
   print (Print rule) ;;; print (Print "ALL SCENARIOS PASSED") ;;;
   print (Print rule) ;;; ret true) w.
Proof.
  unfold all_scenarios, scenarios, in_turn, bind.
  destruct (test_connection w) as [[[] | e] w1]; [| reflexivity].
  destruct (test_query_message_protocol w1) as [[v | e] w2]; [| reflexivity].
  cbn [ret].
  destruct (test_close_session w2) as [[[] | e] w3]; [| reflexivity].
  destruct (test_invalid_message w3) as [[[] | e] w4]; reflexivity.
Qed.

(** What is raised in one of a list of calls made in turn leaves the list: the
    calls after it are not made. *)
Lemma in_turn_stops (pre : list (M unit)) (s : M unit) (post : list (M unit)) :
  forall w wa e w1,
  in_turn pre w = (Returns tt, wa) ->
  s wa = (Raises e, w1) ->
  in_turn (pre ++ s :: post) w = (Raises e, w1).
Proof.
  induction pre as [| m pre IH]; intros w wa e w1 Hpre Hs.
  - cbn in Hpre. injection Hpre as <-. cbn [app in_turn]. unfold bind.
    now rewrite Hs.
  - cbn [app in_turn] in *. unfold bind in *.
    destruct (m w) as [[[] | e'] w0]; [| discriminate].
    eapply IH; eassumption.
Qed.

(** What [run_all_tests] prints for an exception it catches: [FAILED] for an
    [AssertionError], [ERROR] for any other [Exception]. *)
Definition caught_line (e : exn) : string :=
  (if isinstance e "AssertionError" then "FAILED: " else "ERROR: ")
    ++ message e.

(** The first [Exception] raised in a scenario, whichever scenario it is,
    ends the pass: the run answers [False], prints one line for it, and
    nothing of the scenarios after it is executed. *)
Lemma first_exception_ends_run
    (pre : list (M unit)) (s : M unit) (post : list (M unit)) w wa e w1 :
  scenarios = (pre ++ s :: post)%list ->
  in_turn pre (snd (print (Print "Server is ready!") w)) = (Returns tt, wa) ->
  s wa = (Raises e, w1) ->
  isinstance e "Exception" = true ->
  run_scenarios w =
  (Returns false,
   {| env := env w1; now := now w1; cursor := cursor w1; ops := ops w1;
      stdout := (stdout w1 ++ [Print (caught_line e)])%list |}).
Proof.
  intros Hl Hpre Hs He.
  unfold run_scenarios, bind at 1. cbn [print].
  rewrite all_scenarios_in_turn. unfold bind at 1. rewrite Hl.
  cbn [print snd] in Hpre.
  rewrite (in_turn_stops pre s post _ _ _ _ Hpre Hs).
  unfold caught_line. rewrite He.
  destruct (isinstance e "AssertionError"); reflexivity.
Qed.

Lemma run_all_tests_total w : exists r w', run_all_tests w = Some (r, w').
Proof.
  unfold run_all_tests.
  destruct (wait_for_server_ends JAIL_URL 10000 (announce w))
    as (r & w1 & E & _).
  rewrite E. destruct r as [[|] | e];
    [destruct (run_scenarios w1) as [r2 w2] | |];
    eexists; eexists; cbn -[JAIL_URL]; reflexivity.
Qed.

(** The status [main] gives the process. *)
Lemma main_status (e : Env) :
  exists code w,
    main e = Some (code, w) /\
    (code = 0 \/ code = 1) /\
    (code = 0 <->
     mkdir_error e = None /\
     exists w1,
       wait_for_server JAIL_URL 10000 (announce (boot e))
       = Some (Returns true, w1) /\
       all_scenarios (snd (print (Print "Server is ready!") w1))
       = (Returns true, w)) /\
    (forall w1,
       wait_for_server JAIL_URL 10000 (announce (boot e))
       = Some (Returns false, w1) -> code = 1).
Proof.
  unfold main. destruct (mkdir_error e) as [ex |].
  - exists 1, (boot e). split; [reflexivity |]. split; [now right |].
    split; [split; [discriminate | intros [? _]; discriminate] | reflexivity].
  - destruct (run_all_tests_total (boot e)) as (r & w & E). rewrite E.
    exists (exit_code (finish r)), w. split; [reflexivity |].
    unfold run_all_tests in E.
    destruct (wait_for_server JAIL_URL 10000 (announce (boot e)))
      as [[[[|] | ex] w1] |] eqn:Ew; try discriminate.
    + injection E as E. destruct r as [[|] | ex]; simpl.
      * split; [now left |]. split; [| discriminate].
        split; [intros _ | reflexivity]. split; [reflexivity |].
        exists w1. split; [reflexivity |]. now apply run_scenarios_true.
      * split; [now right |]. split; [| discriminate].
        split; [discriminate |]. intros (_ & w1' & Hw & Hall).
        injection Hw as <-. apply run_scenarios_true in Hall. congruence.
      * split; [now right |]. split; [| discriminate].
        split; [discriminate |]. intros (_ & w1' & Hw & Hall).
        injection Hw as <-. apply run_scenarios_true in Hall. congruence.
    + injection E as <- <-. simpl. split; [now right |].
      split; [| reflexivity]. split; [discriminate |].
      intros (_ & w1' & Hw & _). discriminate.
    + injection E as <- <-. simpl. split; [now right |].
      split; [| discriminate]. split; [discriminate |].
      intros (_ & w1' & Hw & _). discriminate.
Qed.
End Run.

End JailFacts.


(** ** Both runners *)

(** C4, amended.  Both probers end, and how they end is decided probe by
    probe.  [wait_for_gateway] makes a probe as long as the deadline has not
    passed; a probe answered with another status than 200, or failing with
    an [Exception], is swallowed and followed by a sleep of one second; the
    first probe that is answered with 200 ends the prober with [True], the
    first that fails with what is not an [Exception] ends it with that
    exception, and [False] is returned once the deadline has passed and only
    then.  So it returns a boolean whenever every failure of the network is
    an [Exception].  [wait_for_server] does the same with a sleep of 200
    milliseconds, a connection that opens for [True], and swallows only a
    failure that is a [ConnectionRefusedError] or another [OSError]: it
    returns a boolean whenever every failure is one of these, and any other
    exception of [connect] leaves it. *)
Theorem probers_end :
  (forall max_wait w,
     exists r w' n,
       Gateway.wait_for_gateway max_wait w = Some (r, w') /\
       GatewayFacts.prober_ends (Gateway.now w) max_wait w r w' /\
       GatewayFacts.probed (Gateway.now w) max_wait w n r w' /\
       (forall m,
          (forall j, (j < m)%nat ->
             GatewayFacts.swallowed
               (Gateway.script (Gateway.env w) (Gateway.cursor w + j)%nat) = true) ->
          GatewayFacts.waited (Gateway.script (Gateway.env w)) (Gateway.cursor w) m
            < max_wait * 1000 ->
          GatewayFacts.swallowed
            (Gateway.script (Gateway.env w) (Gateway.cursor w + m)%nat) = false ->
          r = GatewayFacts.verdict_of
                (Gateway.script (Gateway.env w) (Gateway.cursor w + m)%nat) /\
          n = S m) /\
       ((forall k e,
           Gateway.reply (Gateway.script (Gateway.env w) k) = Gateway.Fails e ->
           isinstance e "Exception" = true) ->
        exists b, r = Returns b)) /\
  (forall url timeout w,
     exists r w' n,
       Jail.wait_for_server url timeout w = Some (r, w') /\
       JailFacts.prober_ends (Jail.now w) timeout w r w' /\
       JailFacts.probed (Jail.now w) timeout w n r w' /\
       (forall m,
          (forall j, (j < m)%nat ->
             JailFacts.swallowed
               (Jail.script (Jail.env w) (Jail.cursor w + j)%nat) = true) ->
          JailFacts.waited (Jail.script (Jail.env w)) (Jail.cursor w) m
            < timeout ->
          JailFacts.swallowed
            (Jail.script (Jail.env w) (Jail.cursor w + m)%nat) = false ->
          r = JailFacts.verdict_of
                (Jail.script (Jail.env w) (Jail.cursor w + m)%nat) /\
          n = S m) /\
       ((forall k e,
           Jail.reply (Jail.script (Jail.env w) k) = Jail.Fails e ->
           existsb (isinstance e) ["ConnectionRefusedError"; "OSError"] = true) ->
        exists b, r = Returns b)).
Proof.
  split.
  - intros max_wait w.
    destruct (GatewayFacts.wait_for_gateway_probed max_wait w)
      as (r & w' & n & E & Hends & Hp & Hsuff).
    exists r, w', n. split; [exact E |]. split; [exact Hends |].
    split; [exact Hp |]. split; [exact Hsuff |].
    intros Htame. destruct r as [b | e]; [now exists b |].
    destruct Hends as (_ & Hno & k & _ & Hk).
    rewrite (Htame k e Hk) in Hno. discriminate.
  - intros url timeout w.
    destruct (JailFacts.wait_for_server_probed url timeout w)
      as (r & w' & n & E & Hends & Hp & Hsuff).
    exists r, w', n. split; [exact E |]. split; [exact Hends |].
    split; [exact Hp |]. split; [exact Hsuff |].
    intros Htame. destruct r as [b | e]; [now exists b |].
    destruct Hends as (_ & Hno & k & _ & Hk).
    rewrite (Htame k e Hk) in Hno. discriminate.
Qed.

(** A gateway that refuses two probes and then is up: the third probe ends
    the prober with [True].  A jail that is up: the first probe does.  A
    jail that refuses every connection until the deadline. *)
Lemma probers_end_witness :
  (exists w', Gateway.wait_for_gateway 60 (Gateway.boot Sample.slow_gateway)
              = Some (Returns true, w') /\ Gateway.cursor w' = 3%nat) /\
  (exists w', Jail.wait_for_server Jail.JAIL_URL 10000
                (Jail.boot Sample.jail_replying)
              = Some (Returns true, w') /\ Jail.cursor w' = 1%nat) /\
  (exists w', Jail.wait_for_server Jail.JAIL_URL 10000 (Jail.boot Sample.jail_down)
              = Some (Returns false, w')).
Proof.
  destruct probers_end as [G J]. split; [| split].
  - destruct (G 60 (Gateway.boot Sample.slow_gateway))
      as (r & w' & n & E & _ & (_ & Hc & _) & Hsuff & _).
    destruct (Hsuff 2%nat) as [-> ->].
    + intros [| [| j]] Hj; [reflexivity | reflexivity | lia].
    + reflexivity.
    + reflexivity.
    + exists w'. split; [exact E | exact Hc].
  - destruct (J Jail.JAIL_URL 10000 (Jail.boot Sample.jail_replying))
      as (r & w' & n & E & _ & (_ & Hc & _) & Hsuff & _).
    destruct (Hsuff O) as [-> ->].
    + intros j Hj. lia.
    + reflexivity.
    + reflexivity.
    + exists w'. split; [exact E | exact Hc].
  - destruct (J Jail.JAIL_URL 10000 (Jail.boot Sample.jail_down))
      as (r & w' & n & E & _).
    exists w'. rewrite E. vm_compute in E. injection E as <- _. reflexivity.
Defined.

(** C4 as stated fails: the jail answers the handshake of a probe with an
    HTTP error; what [connect] raises is no [OSError] and leaves
    [wait_for_server]. *)
Lemma wait_for_server_raises :
  exists w',
    Jail.wait_for_server Jail.JAIL_URL 10000 (Jail.boot Sample.jail_starting)
    = Some (Raises Sample.InvalidStatus, w') /\
    isinstance Sample.InvalidStatus "Exception" = true.
Proof. eexists. split; [vm_compute; reflexivity | reflexivity]. Qed.


(** The health check when the gateway cannot be reached; the jail when the
    server closes the connection of the last scenario instead of replying:
    three scenarios have returned, the fourth raises, and the run answers
    [False] with one line printed. *)
Definition probe_passed : Jail.World :=
  {| Jail.env := Sample.jail_with (Sample.broken Sample.ConnectionClosedOK);
     Jail.now := 1700000000003; Jail.cursor := 1; Jail.ops := [];
     Jail.stdout := [] |}.



(** C3, amended.  The gateway program always ends: when [run_tests] returns,
    the status is 0 iff no produced [TestResult] has failed; when an
    exception leaves [run_tests] the status is 1; when the gateway never
    becomes ready the status is 1, from [sys.exit(1)], and no [TestResult]
    was produced.  The jail program, which produces no [TestResult], always
    ends with status 0 or 1: 0 iff the workspace directory could be created,
    the probe succeeded and the four scenarios ended without raising; 1 in
    particular when the server is not ready. *)
Theorem exit_status `{PyRuntime} :
  (forall e : Gateway.Env,
     exists r w,
       Gateway.run_tests (Gateway.boot e) = Some (r, w) /\
       Gateway.main e = Some (exit_code r, w) /\
       match r with
       | Finished _ =>
           exit_code r = 0 <->
           GatewayFacts.count_failed (Gateway.results w) = O
       | Uncaught _ => exit_code r = 1
       | SysExit c =>
           c = 1 /\ Gateway.results w = [] /\
           exists w1,
             Gateway.wait_for_gateway 60 (Gateway.announce (Gateway.boot e))
             = Some (Returns false, w1)
       end) /\
  (forall (e : Gateway.Env) w1,
     Gateway.wait_for_gateway 60 (Gateway.announce (Gateway.boot e))
     = Some (Returns false, w1) ->
     exists w, Gateway.main e = Some (1, w) /\ Gateway.results w = []) /\
  (forall e : Jail.Env,
     exists code w,
       Jail.main e = Some (code, w) /\
       (code = 0 \/ code = 1) /\
       (code = 0 <->
        Jail.mkdir_error e = None /\
        exists w1,
          Jail.wait_for_server Jail.JAIL_URL 10000 (Jail.announce (Jail.boot e))
          = Some (Returns true, w1) /\
          Jail.all_scenarios
            (snd (Jail.print (Jail.Print "Server is ready!") w1))
          = (Returns true, w)) /\
       (forall w1,
          Jail.wait_for_server Jail.JAIL_URL 10000 (Jail.announce (Jail.boot e))
          = Some (Returns false, w1) -> code = 1)).
Proof.
  split; [exact GatewayFacts.run_tests_ending |].
  split; [| exact JailFacts.main_status].
  intros e w1 Hw.
  destruct (GatewayFacts.run_tests_ending e) as (r & w & Hrun & Hmain & Hr).
  unfold Gateway.run_tests in Hrun. rewrite Hw in Hrun.
  injection Hrun as <- <-. destruct Hr as (_ & Hres & _).
  eexists. split; [exact Hmain | exact Hres].
Qed.

(** A run with three agents in which six scenarios fail. *)
Lemma exit_status_witness :
  exists w,
    @Gateway.main Sample.runtime Sample.three_agents_gateway = Some (1, w) /\
    GatewayFacts.count_failed (Gateway.results w) <> O.
Proof.
  destruct (proj1 (@exit_status Sample.runtime) Sample.three_agents_gateway)
    as (r & w & Hrun & Hmain & Hr).
  exists w. vm_compute in Hrun. injection Hrun as <- Hw.
  split; [exact Hmain |].
  intros Hzero. apply Hr in Hzero. discriminate.
Defined.

(** C3 as stated fails: the gateway is ready and the listing of the agents
    cannot be reached; the process ends with status 1 although no produced
    [TestResult] has failed, none having been produced. *)
Lemma exit_status_nonzero_without_failures :
  exists w,
    @Gateway.main Sample.runtime Sample.listing_unreachable = Some (1, w) /\
    Gateway.results w = [] /\
    GatewayFacts.count_failed (Gateway.results w) = O.
Proof.
  eexists. split; [vm_compute; reflexivity |]. split; reflexivity.
Qed.


(** ** Waiting for agents ([wait_for_agents] of [e2e/test_runner.py]) *)

Module GatewayAgents.
Import Gateway.

Definition POLL_INTERVAL : Z := 2.

(** What may be an element of a [set]. *)
Definition hashable (v : json) : bool :=
  match v with
  | JArr _ | JObj _ => false
  | _ => true
  end.

Section Waiting.
Context `{PyRuntime}.

(** Lines 62-63: [agents = resp.json()] and
    [registered = {a["id"] for a in agents}].  The set is kept as the list of
    its elements in the order they were added. *)
Definition registered_of (body : string) : outcome (list json) :=
  agents <~ loads body ;;
  items <~ py_iter agents ;;
  comprehension
    (fun a => v <~ py_getitem a "id" ;;
              if hashable v then Returns v
              else Raises (TypeError ("unhashable type: '" ++ type_name v ++ "'")))
    items.

(** [all(e in registered for e in expected)] *)
Definition all_registered (expected : list string) (registered : list json) : bool :=
  forallb (fun e => existsb (fun v => eq_str v e) registered) expected.

(** The four texts with a value in them: lines 56, 65, 67 and 69. *)
Definition waiting_text (expected : list string) : string :=
  "[yellow]Waiting for agents: " ++ py_str (JArr (map JStr expected))
  ++ "[/yellow]".

Definition registered_text (registered : list json) : string :=
  "[green]✓ All agents registered: " ++ set_str registered ++ "[/green]".

Definition current_text (registered : list json) : string :=
  "[dim]Current agents: " ++ set_str registered ++ "[/dim]".

Definition error_text (e : exn) : string :=
  "[dim]Error checking agents: " ++ message e ++ "[/dim]".

(** [console.print] of one of them. *)
Definition say (text : string) : M unit := console_print_markup text (Say text).

(** The [try] of lines 59-69: [true] when it ends in [return True], [false]
    when the loop goes on.  What line 65 or 67 raises is caught at line 68
    like any other [Exception]; what line 69 raises is not caught. *)
Definition poll_once (expected : list string) : M bool :=
  try_except ["Exception"]
    (resp <- client_get "/api/agents" ;;
     if status_code resp =? 200 then
       registered <- lift (registered_of (text resp)) ;;
       if all_registered expected registered
       then say (registered_text registered) ;;; ret true
       else say (current_text registered) ;;; ret false
     else ret false)
    (fun e => say (error_text e) ;;; ret false).

Fixpoint wait_for_agents_loop (fuel : nat) (start max_wait : Z)
    (expected : list string) (w : World) : option (outcome bool * World) :=
  match fuel with
  | O => None
  | S fuel' =>
      if now w - start <? max_wait * 1000 then
        match poll_once expected w with
        | (Returns true, w1) => Some (Returns true, w1)
        | (Returns false, w1) =>
            wait_for_agents_loop fuel' start max_wait expected
              (snd (sleep (POLL_INTERVAL * 1000) w1))
        | (Raises e, w1) => Some (Raises e, w1)
        end
      else
        Some ((console_print (Say "[red]✗ Not all agents registered in time[/red]") ;;;
               ret false) w)
  end.

(** Every turn of the loop that does not return sleeps [POLL_INTERVAL]
    seconds, so [max_wait / 2 + 2] turns are never exceeded. *)
Definition wait_for_agents (expected : list string) (max_wait : Z) (w : World)
    : option (outcome bool * World) :=
  match say (waiting_text expected) w with
  | (Raises e, w0) => Some (Raises e, w0)
  | (Returns _, w0) =>
      wait_for_agents_loop (S (Z.to_nat (max_wait / 2) + 1)) (now w0) max_wait
        expected w0
  end.

End Waiting.

(** *** How the wait ends *)

Section WaitingFacts.
Context `{PyRuntime}.

(** An answer that lists every expected agent, in a set whose text
    renders. *)
Definition lists_all (expected : list string) (resp : Response) : Prop :=
  status_code resp = 200 /\
  exists registered,
    registered_of (text resp) = Returns registered /\
    (forall e, In e expected -> In (JStr e) registered) /\
    render_error (registered_text registered) = None.

Lemma all_registered_spec expected registered :
  all_registered expected registered = true <->
  forall e, In e expected -> In (JStr e) registered.
Proof.
  unfold all_registered. rewrite forallb_forall.
  split; intros Hall e He; specialize (Hall e He).
  - apply existsb_exists in Hall as (v & Hv & Heq).
    destruct v; simpl in Heq; try discriminate.
    apply String.eqb_eq in Heq. now subst.
  - apply existsb_exists. exists (JStr e). split; [assumption |].
    simpl. apply String.eqb_refl.
Qed.

(** What [registered_of] raises is an [Exception]. *)
Lemma comprehension_raises {A B} (f : A -> outcome B) l e :
  comprehension f l = Raises e -> exists a, In a l /\ f a = Raises e.
Proof.
  induction l as [| a l IH]; simpl; [discriminate |].
  destruct (f a) as [b | e'] eqn:Ha; simpl.
  - destruct (comprehension f l) as [bs | e'']; simpl; [discriminate |].
    intros E. injection E as ->. destruct (IH eq_refl) as (a' & Hin & Ha').
    exists a'. auto.
  - intros E. injection E as ->. exists a. auto.
Qed.

Lemma py_getitem_raises v k e :
  py_getitem v k = Raises e -> isinstance e "Exception" = true.
Proof.
  destruct v; simpl; try (intros E; injection E as <-; reflexivity).
  destruct (dict_get k items); [discriminate |].
  intros E. injection E as <-. reflexivity.
Qed.

Lemma registered_of_raises body e :
  registered_of body = Raises e -> isinstance e "Exception" = true.
Proof.
  unfold registered_of, loads.
  destruct (json_loads body) as [agents |]; simpl;
    [| intros E; injection E as <-; apply decode_error_exception].
  destruct agents; simpl; try (intros E; injection E as <-; reflexivity);
    intros E; apply comprehension_raises in E as (a & _ & Ha);
    (destruct (py_getitem a "id") as [v | e'] eqn:Hg; simpl in Ha;
     [destruct (hashable v); [discriminate | injection Ha as <-; reflexivity]
     | injection Ha as <-; eapply py_getitem_raises; eassumption]).
Qed.

(** Line 69 on the exception caught at line 68. *)
Definition handled (e : exn) : outcome bool :=
  match render_error (error_text e) with
  | Some e' => Raises e'
  | None => Returns false
  end.

(** How one poll ends, by what the network does with its request. *)
Definition poll_outcome (expected : list string) (r : answer) : outcome bool :=
  match r with
  | Fails e => if isinstance e "Exception" then handled e else Raises e
  | Answers resp =>
      if status_code resp =? 200 then
        match registered_of (text resp) with
        | Raises e => handled e
        | Returns registered =>
            let found := all_registered expected registered in
            match render_error (if found then registered_text registered
                                else current_text registered) with
            | Some e => handled e
            | None => Returns found
            end
        end
      else Returns false
  end.

#[local] Arguments render_error : simpl never.
#[local] Arguments isinstance : simpl never.
#[local] Arguments registered_text : simpl never.
#[local] Arguments current_text : simpl never.
#[local] Arguments error_text : simpl never.

Ltac poll_done :=
  eexists;
  refine (conj _ (conj _ (conj _ (conj _ (conj _ (conj _ _)))))); cycle 6;
  [reflexivity | ..]; reflexivity.

Lemma poll_once_cases expected w :
  let ev := script (env w) (cursor w) in
  exists w1,
    env w1 = env w /\ cursor w1 = S (cursor w) /\
    now w1 = now w + Z.of_nat (elapsed ev) /\
    requests w1 = (requests w ++ [GET "/api/agents"])%list /\
    results w1 = results w /\ written w1 = written w /\
    poll_once expected w = (poll_outcome expected (reply ev), w1).
Proof.
  unfold poll_once, poll_outcome, handled, try_except, client_get,
    send_request, say, console_print_markup, bind, lift.
  cbn zeta.
  destruct (reply (script (env w) (cursor w))) as [r | e].
  - destruct (Z.eqb_spec (status_code r) 200) as [H200 | Hne];
      [| cbn; poll_done].
    destruct (registered_of (text r)) as [reg | e] eqn:Hreg.
    + destruct (all_registered expected reg) eqn:Hall; cbn.
      * destruct (render_error (registered_text reg)) as [e |] eqn:Hr; cbn.
        -- rewrite (render_error_exception _ _ Hr). cbn.
           destruct (render_error (error_text e)); cbn; poll_done.
        -- poll_done.
      * destruct (render_error (current_text reg)) as [e |] eqn:Hr; cbn.
        -- rewrite (render_error_exception _ _ Hr). cbn.
           destruct (render_error (error_text e)); cbn; poll_done.
        -- poll_done.
    + cbn [existsb]. rewrite (registered_of_raises _ _ Hreg). cbn.
      destruct (render_error (error_text e)); cbn; poll_done.
  - cbn [existsb]. rewrite orb_false_r.
    destruct (isinstance e "Exception"); cbn; [| poll_done].
    destruct (render_error (error_text e)); cbn; poll_done.
Qed.

(** What the wait raises from one of its own lines: the [MarkupError] of
    line 56, or that of line 69 on a caught exception. *)
Definition print_raises (expected : list string) (e : exn) : Prop :=
  render_error (waiting_text expected) = Some e \/
  exists e0, isinstance e0 "Exception" = true /\
             render_error (error_text e0) = Some e.

Lemma handled_cases e r :
  handled e = r ->
  r = Returns false \/ exists e', r = Raises e' /\ render_error (error_text e) = Some e'.
Proof.
  unfold handled. destruct (render_error (error_text e)) as [e' |];
    intros <-; [right; now exists e' | now left].
Qed.

Lemma poll_outcome_true expected r :
  poll_outcome expected r = Returns true ->
  exists resp, r = Answers resp /\ lists_all expected resp.
Proof.
  unfold poll_outcome. destruct r as [resp | e].
  - destruct (Z.eqb_spec (status_code resp) 200) as [H200 | Hne];
      [| discriminate].
    destruct (registered_of (text resp)) as [reg | e] eqn:Hreg.
    + cbn zeta. destruct (all_registered expected reg) eqn:Hall.
      * destruct (render_error (registered_text reg)) as [e |] eqn:Hr.
        -- intros E. apply handled_cases in E as [E | (e' & E & _)];
             discriminate.
        -- intros _. exists resp. split; [reflexivity |].
           split; [assumption |]. exists reg. split; [assumption |].
           split; [now apply all_registered_spec | assumption].
      * destruct (render_error (current_text reg)) as [e |];
          [| discriminate].
        intros E. apply handled_cases in E as [E | (e' & E & _)];
          discriminate.
    + intros E. apply handled_cases in E as [E | (e' & E & _)]; discriminate.
  - destruct (isinstance e "Exception"); [| discriminate].
    intros E. apply handled_cases in E as [E | (e' & E & _)]; discriminate.
Qed.

Lemma poll_outcome_raises expected r e :
  poll_outcome expected r = Raises e ->
  isinstance e "Exception" = false \/ print_raises expected e.
Proof.
  assert (Hh : forall e0, isinstance e0 "Exception" = true ->
                          handled e0 = Raises e ->
                          isinstance e "Exception" = false \/
                          print_raises expected e).
  { intros e0 Hex E. apply handled_cases in E as [E | (e' & E & Hr)];
      [discriminate |].
    injection E as <-. right. right. now exists e0. }
  unfold poll_outcome. destruct r as [resp | e0].
  - destruct (status_code resp =? 200); [| discriminate].
    destruct (registered_of (text resp)) as [reg | e0] eqn:Hreg.
    + cbn zeta.
      destruct (render_error _) as [e0 |] eqn:Hr; [| discriminate].
      apply Hh. eapply render_error_exception; eassumption.
    + apply Hh. eapply registered_of_raises; eassumption.
  - destruct (isinstance e0 "Exception") eqn:Hex.
    + now apply Hh.
    + intros E. injection E as <-. now left.
Qed.

Lemma wait_for_agents_loop_step fuel start max_wait expected w :
  wait_for_agents_loop (S fuel) start max_wait expected w =
  if now w - start <? max_wait * 1000 then
    match poll_once expected w with
    | (Returns true, w1) => Some (Returns true, w1)
    | (Returns false, w1) =>
        wait_for_agents_loop fuel start max_wait expected
          (snd (sleep (POLL_INTERVAL * 1000) w1))
    | (Raises e, w1) => Some (Raises e, w1)
    end
  else
    Some ((console_print (Say "[red]✗ Not all agents registered in time[/red]") ;;;
           ret false) w).
Proof. reflexivity. Qed.

(** How the wait may end after [n] polls from [w]. *)
Definition wait_ends (start max_wait : Z) (expected : list string)
    (w : World) (n : nat) (r : outcome bool) (w' : World) : Prop :=
  env w' = env w /\ cursor w' = (cursor w + n)%nat /\
  requests w' = (requests w ++ repeat (GET "/api/agents") n)%list /\
  results w' = results w /\ written w' = written w /\
  match r with
  | Returns true =>
      exists k resp, cursor w' = S k /\
        reply (script (env w) k) = Answers resp /\ lists_all expected resp
  | Returns false => max_wait * 1000 <= now w' - start
  | Raises e => isinstance e "Exception" = false \/ print_raises expected e
  end.

Lemma wait_for_agents_loop_ends start max_wait expected :
  forall fuel w,
    max_wait * 1000 - (now w - start) <= 2000 * Z.of_nat fuel ->
    exists r w' n,
      wait_for_agents_loop (S fuel) start max_wait expected w = Some (r, w') /\
      (n <= fuel)%nat /\
      wait_ends start max_wait expected w n r w'.
Proof.
  induction fuel as [| fuel IH]; intros w Hfuel;
    rewrite wait_for_agents_loop_step;
    destruct (Z.ltb_spec (now w - start) (max_wait * 1000)) as [Hlt | Hge];
    try (exfalso; lia);
    try (eexists; eexists; exists O; split; [reflexivity |];
         split; [lia |]; unfold wait_ends; cbn;
         rewrite Nat.add_0_r, app_nil_r; repeat split; lia).
  destruct (poll_once_cases expected w)
    as (w1 & Henv & Hcur & Hnow & Hreq & Hres & Hwr & Hp).
  assert (Hgo : forall r' w'' n',
            wait_for_agents_loop (S fuel) start max_wait expected
              (snd (sleep (POLL_INTERVAL * 1000) w1)) = Some (r', w'') ->
            (n' <= fuel)%nat ->
            wait_ends start max_wait expected
              (snd (sleep (POLL_INTERVAL * 1000) w1)) n' r' w'' ->
            (S n' <= S fuel)%nat /\
            wait_ends start max_wait expected w (S n') r' w'').
  { intros r' w'' n' _ Hn (He & Hc & Hq & Hr & Hw & Hm).
    unfold sleep in He, Hc, Hq, Hr, Hw, Hm.
    cbn [snd env cursor requests results written] in He, Hc, Hq, Hr, Hw, Hm.
    split; [lia |]. unfold wait_ends.
    split; [congruence |]. split; [lia |].
    split; [rewrite Hq, Hreq, <- app_assoc; reflexivity |].
    split; [congruence |]. split; [congruence |].
    rewrite Henv in Hm. exact Hm. }
  assert (Hsleep : max_wait * 1000 -
                   (now (snd (sleep (POLL_INTERVAL * 1000) w1)) - start)
                   <= 2000 * Z.of_nat fuel).
  { unfold sleep, POLL_INTERVAL. cbn [snd now]. lia. }
  rewrite Hp.
  destruct (poll_outcome expected (reply (script (env w) (cursor w))))
    as [[|] | e] eqn:Ho.
  - apply poll_outcome_true in Ho as (resp & Hr & Hall).
    exists (Returns true), w1, 1%nat. split; [reflexivity |].
    split; [lia |]. unfold wait_ends.
    split; [assumption |]. split; [lia |]. split; [assumption |].
    split; [assumption |]. split; [assumption |].
    exists (cursor w), resp. split; [assumption |]. split; assumption.
  - destruct (IH _ Hsleep) as (r' & w'' & n' & E & Hn & Hends).
    exists r', w'', (S n'). split; [exact E |]. eapply Hgo; eassumption.
  - apply poll_outcome_raises in Ho.
    exists (Raises e), w1, 1%nat. split; [reflexivity |].
    split; [lia |]. unfold wait_ends.
    split; [assumption |]. split; [lia |]. split; [assumption |].
    split; [assumption |]. split; [assumption |]. assumption.
Qed.

End WaitingFacts.


End GatewayAgents.

(** ** More on the gateway runner *)

Module GatewayScenarios.
Import Gateway.
Import GatewayFacts.

(** *** How often the prober asks *)

Lemma probe_once_requests w :
  requests (snd (probe_once w)) = (requests w ++ [GET "/health"])%list.
Proof.
  unfold probe_once, try_except, client_get, send_request, bind.
  destruct (reply (script (env w) (cursor w))) as [r | e]; cbn.
  - now destruct (status_code r =? 200).
  - rewrite orb_false_r. now destruct (isinstance e "Exception").
Qed.

Lemma wait_for_gateway_loop_probes start max_wait :
  forall fuel w,
    max_wait * 1000 - (now w - start) <= 1000 * Z.of_nat fuel ->
    exists r w' n,
      wait_for_gateway_loop (S fuel) start max_wait w = Some (r, w') /\
      (n <= fuel)%nat /\
      cursor w' = (cursor w + n)%nat /\
      requests w' = (requests w ++ repeat (GET "/health") n)%list /\
      (n = O -> r = Returns false).
Proof.
  induction fuel as [| fuel IH]; intros w Hfuel;
    rewrite wait_for_gateway_loop_step;
    destruct (Z.ltb_spec (now w - start) (max_wait * 1000)) as [Hlt | Hge];
    try (exfalso; lia);
    try (eexists; eexists; exists O; split; [reflexivity |];
         split; [lia |]; cbn; rewrite Nat.add_0_r, app_nil_r; now repeat split).
  destruct (probe_once_cases w) as (w1 & Henv & Hcur & Hnow & Hp).
  pose proof (probe_once_requests w) as Hreq.
  assert (Hsleep : max_wait * 1000 - (now (snd (sleep 1000 w1)) - start)
                   <= 1000 * Z.of_nat fuel).
  { unfold sleep. cbn [snd now]. lia. }
  assert (Hstop : forall r, probe_once w = (r, w1) ->
            exists n, (n <= S fuel)%nat /\
              cursor w1 = (cursor w + n)%nat /\
              requests w1 = (requests w ++ repeat (GET "/health") n)%list /\
              (n = O -> r = Returns false)).
  { intros r Hr. rewrite Hr in Hreq. exists 1%nat.
    split; [lia |]. split; [lia |]. split; [exact Hreq | discriminate]. }
  assert (Hgo : forall r, probe_once w = (r, w1) ->
            exists r' w'' n,
              wait_for_gateway_loop (S fuel) start max_wait (snd (sleep 1000 w1))
              = Some (r', w'') /\
              (n <= S fuel)%nat /\
              cursor w'' = (cursor w + n)%nat /\
              requests w'' = (requests w ++ repeat (GET "/health") n)%list /\
              (n = O -> r' = Returns false)).
  { intros r Hr. rewrite Hr in Hreq. cbn [snd] in Hreq.
    destruct (IH _ Hsleep) as (r' & w'' & n' & E & Hn & Hc & Hq & _).
    unfold sleep in Hc, Hq. cbn [snd cursor requests] in Hc, Hq.
    exists r', w'', (S n'). split; [exact E |]. split; [lia |].
    split; [lia |]. split; [| discriminate].
    rewrite Hq, Hreq, <- app_assoc. reflexivity. }
  destruct (reply (script (env w) (cursor w))) as [resp | e]; rewrite Hp.
  - destruct (status_code resp =? 200).
    + destruct (Hstop _ Hp) as (n & ?). exists (Returns true), w1, n. auto.
    + apply (Hgo _ Hp).
  - destruct (isinstance e "Exception").
    + apply (Hgo _ Hp).
    + destruct (Hstop _ Hp) as (n & ?). exists (Raises e), w1, n. auto.
Qed.

(** X2.  [wait_for_gateway] makes at most [max_wait] requests, all of them
    [GET /health], one per second of its deadline; with a deadline of zero or
    less it makes none and returns [False] at once. *)
Theorem wait_for_gateway_probes (max_wait : Z) (w : World) :
  exists r w' n,
    wait_for_gateway max_wait w = Some (r, w') /\
    (n <= Z.to_nat max_wait)%nat /\
    cursor w' = (cursor w + n)%nat /\
    requests w' = (requests w ++ repeat (GET "/health") n)%list /\
    (max_wait <= 0 -> n = O /\ r = Returns false).
Proof.
  unfold wait_for_gateway.
  set (w0 := snd (console_print _ w)).
  destruct (wait_for_gateway_loop_probes (now w0) max_wait
              (Z.to_nat max_wait) w0) as (r & w' & n & E & Hn & Hc & Hq & H0).
  { subst w0. unfold console_print. cbn [snd now]. lia. }
  exists r, w', n. split; [exact E |]. split; [exact Hn |].
  split; [exact Hc |]. split; [exact Hq |].
  intros Hneg. assert (n = O) by lia. auto.
Qed.

(** *** What the stream parser raises *)

Section Parser.
Context `{PyRuntime}.

Lemma split_lines_app a b :
  split_lines (a ++ String newline b) = (split_lines a ++ split_lines b)%list.
Proof.
  induction a as [| c a IH]; cbn [append split_lines].
  - now rewrite Ascii.eqb_refl.
  - destruct (Ascii.eqb c newline); rewrite IH; [reflexivity |].
    pose proof (split_lines_nonempty a) as Hne.
    now destruct (split_lines a).
Qed.

Lemma sse_lines_app l1 l2 acc :
  sse_lines (l1 ++ l2) acc = acc' <~ sse_lines l1 acc ;; sse_lines l2 acc'.
Proof.
  revert acc. induction l1 as [| line l1 IH]; intros acc; cbn; [reflexivity |].
  destruct (sse_line line acc) as [acc1 | e]; cbn; [apply IH | reflexivity].
Qed.
End Parser.

(** X3.  The parser of [send_message] returns exactly on the bodies on
    whose lines the decoder fails, if it does, with [json.JSONDecodeError],
    and whose payloads that decode are objects, or arrays or strings that do
    not contain ["full_response"]: arrays and strings are kept as events like
    objects, and leave the aggregated response as it is.  On every other body
    it raises: the [TypeError] of a payload that is a number, a boolean,
    [null], or a string or an array that contains ["full_response"], or what
    the decoder raised on a line and line 95 does not catch; and it is a
    [TypeError] whenever every failure of the decoder is a
    [json.JSONDecodeError]. *)
Theorem stream_parser_raises_exactly `{PyRuntime} (body : string) :
  if forallb decodes_or_malformed (split_lines body)
     && forallb harmless (spec_events body)
  then parse_sse body =
       Returns (spec_events body, spec_full_response (spec_events body))
  else exists e, parse_sse body = Raises e /\
                 parser_raises (split_lines body) e /\
                 (forallb decodes_or_malformed (split_lines body) = true ->
                  isinstance e "TypeError" = true).
Proof.
  unfold parse_sse.
  pose proof (sse_lines_cases (split_lines body) [] JNull) as Hc.
  fold (spec_events body). change (line_events (split_lines body))
    with (spec_events body) in Hc.
  destruct (forallb decodes_or_malformed (split_lines body)
            && forallb harmless (spec_events body)); [exact Hc |].
  destruct Hc as (e & E & Hp). exists e. split; [exact E |].
  split; [exact Hp |]. intros Hall.
  destruct Hp as [Ht | (line & Hin & Hpre & Hnone & He & Hj)]; [exact Ht |].
  rewrite forallb_forall in Hall. specialize (Hall line Hin).
  unfold decodes_or_malformed in Hall. rewrite Hpre, Hnone in Hall.
  subst. congruence.
Qed.

(** X4.  The parser is incremental: parsing a body cut at a newline is
    parsing what stands before the cut and going on, with the events and the
    aggregated response reached, over what stands after it; and the payloads
    of the whole are those of the first part followed by those of the
    second. *)
Theorem stream_parser_is_incremental `{PyRuntime} (a b : string) :
  parse_sse (a ++ String newline b) =
    (acc <~ parse_sse a ;; sse_lines (split_lines b) acc) /\
  spec_events (a ++ String newline b) = (spec_events a ++ spec_events b)%list.
Proof.
  unfold parse_sse, spec_events. rewrite split_lines_app. split.
  - apply sse_lines_app.
  - apply flat_map_app.
Qed.

(** *** The verdicts of the infrastructure scenarios *)

(** A scenario passes in [w]: it returns a [TestResult] that passed. *)
Definition passes (f : M TestResult) (w : World) : Prop :=
  exists tr, fst (f w) = Returns tr /\ passed tr = true.

Section Verdicts.
Context `{PyRuntime}.

Lemma test_gateway_health_runs w :
  let ev := script (env w) (cursor w) in
  test_gateway_health w =
  (match reply ev with
   | Answers resp =>
       Returns {| name := "gateway-health";
                  passed := status_code resp =? 200;
                  duration_ms :=
                    ms_between (now w) (now w + Z.of_nat (elapsed ev));
                  error := if status_code resp =? 200 then None
                           else Some ("Status code: "
                                      ++ str_of_Z (status_code resp)) |}
   | Fails e =>
       if isinstance e "Exception"
       then Returns {| name := "gateway-health"; passed := false;
                       duration_ms :=
                         ms_between (now w) (now w + Z.of_nat (elapsed ev));
                       error := Some (message e) |}
       else Raises e
   end,
   snd (send_request (GET "/health") w)).
Proof.
  unfold test_gateway_health, try_except, failed_with, client_get, bind,
    time_time, ret, send_request.
  destruct (reply (script (env w) (cursor w))) as [resp | e]; cbn -[str_of_Z].
  - reflexivity.
  - rewrite orb_false_r. now destruct (isinstance e "Exception").
Qed.

Lemma test_agent_list_runs w :
  let ev := script (env w) (cursor w) in
  let failed msg := Returns {| name := "agent-list"; passed := false;
                               duration_ms :=
                                 ms_between (now w) (now w + Z.of_nat (elapsed ev));
                               error := Some msg |} in
  test_agent_list w =
  (match reply ev with
   | Answers resp =>
       if status_code resp =? 200 then
         match json_loads (text resp) with
         | Some (JArr _) =>
             Returns {| name := "agent-list"; passed := true;
                        duration_ms :=
                          ms_between (now w) (now w + Z.of_nat (elapsed ev));
                        error := None |}
         | Some _ => failed ("Response: " ++ text resp)
         | None => failed (decode_error_text (text resp))
         end
       else failed ("Response: " ++ text resp)
   | Fails e => if isinstance e "Exception" then failed (message e) else Raises e
   end,
   snd (send_request (GET "/api/agents") w)).
Proof.
  unfold test_agent_list, try_except, failed_with, client_get, bind, lift,
    time_time, ret, send_request, loads.
  destruct (reply (script (env w) (cursor w))) as [resp | e]; cbn.
  - destruct (status_code resp =? 200); cbn; [| reflexivity].
    destruct (json_loads (text resp)) as [v |]; cbn.
    + now destruct v.
    + fold (decode_error (text resp)).
      now rewrite (decode_error_exception (text resp)).
  - rewrite orb_false_r. now destruct (isinstance e "Exception").
Qed.
End Verdicts.

(** X5.  The health scenario makes exactly one request, [GET /health].  It
    passes iff the request is answered with status 200; answered with another
    status it fails with the error ["Status code: "] followed by the status;
    and the duration it reports is [int((t1 - t0) * 1000)] for the readings
    [t0] and [t1] of the clock before the request and after it. *)
Theorem health_verdict `{PyRuntime} (w : World) :
  requests (snd (test_gateway_health w)) = (requests w ++ [GET "/health"])%list /\
  (forall tr,
     fst (test_gateway_health w) = Returns tr ->
     duration_ms tr =
     ms_between (now w)
       (now w + Z.of_nat (elapsed (script (env w) (cursor w))))) /\
  (passes test_gateway_health w <->
   exists resp, reply (script (env w) (cursor w)) = Answers resp /\
                status_code resp = 200) /\
  (forall resp,
     reply (script (env w) (cursor w)) = Answers resp ->
     status_code resp <> 200 ->
     fst (test_gateway_health w) =
     Returns {| name := "gateway-health"; passed := false;
                duration_ms :=
                  ms_between (now w)
                    (now w + Z.of_nat (elapsed (script (env w) (cursor w))));
                error := Some ("Status code: " ++ str_of_Z (status_code resp)) |}).
Proof.
  unfold passes. rewrite test_gateway_health_runs. cbn [fst snd].
  split; [now rewrite send_request_world |].
  split.
  { intros tr.
    destruct (reply (script (env w) (cursor w))) as [resp | e];
      [| destruct (isinstance e "Exception")]; intros E;
      try discriminate; now injection E as <-. }
  destruct (reply (script (env w) (cursor w))) as [resp | e]; split.
  - split.
    + intros (tr & E & Hp). injection E as <-. cbn in Hp.
      exists resp. split; [reflexivity | now apply Z.eqb_eq].
    + intros (resp' & E & H200). injection E as <-.
      eexists. split; [reflexivity |]. cbn. now apply Z.eqb_eq.
  - intros resp' E Hne. injection E as <-.
    apply Z.eqb_neq in Hne. now rewrite Hne.
  - split.
    + intros (tr & E & Hp).
      destruct (isinstance e "Exception"); [| discriminate].
      injection E as <-. discriminate.
    + intros (resp & E & _). discriminate.
  - intros resp E. discriminate.
Qed.

(** X6.  The listing scenario makes exactly one request, [GET /api/agents].
    It passes iff the request is answered with status 200 and a body that
    decodes to an array.  With status 200 and a body that does not decode it
    fails with the decoder's message; with another status the body is not
    decoded, and the error is ["Response: "] followed by the body. *)
Theorem agent_list_verdict `{PyRuntime} (w : World) :
  let answer := reply (script (env w) (cursor w)) in
  let failed msg := Returns {| name := "agent-list"; passed := false;
                               duration_ms :=
                                 ms_between (now w)
                                   (now w + Z.of_nat
                                      (elapsed (script (env w) (cursor w))));
                               error := Some msg |} in
  requests (snd (test_agent_list w)) = (requests w ++ [GET "/api/agents"])%list /\
  (passes test_agent_list w <->
   exists resp items, answer = Answers resp /\ status_code resp = 200 /\
                      json_loads (text resp) = Some (JArr items)) /\
  (forall resp, answer = Answers resp -> status_code resp = 200 ->
                json_loads (text resp) = None ->
                fst (test_agent_list w) = failed (decode_error_text (text resp))) /\
  (forall resp, answer = Answers resp -> status_code resp <> 200 ->
                fst (test_agent_list w) = failed ("Response: " ++ text resp)).
Proof.
  intros answer failed. unfold passes. rewrite test_agent_list_runs.
  cbn [fst snd]. fold answer. fold failed.
  split; [now rewrite send_request_world |].
  destruct answer as [resp | e].
  - destruct (Z.eqb_spec (status_code resp) 200) as [H200 | Hne].
    + destruct (json_loads (text resp)) as [v |] eqn:Hv.
      * split; [| split; [intros ? E; injection E as <-; congruence
                         | intros ? E; injection E as <-; contradiction]].
        split.
        -- intros (tr & E & Hp).
           destruct v; try (injection E as <-; discriminate).
           now exists resp, items.
        -- intros (resp' & items & E & _ & Hv'). injection E as <-.
           rewrite Hv in Hv'. injection Hv' as ->.
           eexists. split; reflexivity.
      * split; [| split; [intros ? E; now injection E as <-
                         | intros ? E; injection E as <-; contradiction]].
        split.
        -- intros (tr & E & Hp). injection E as <-. discriminate.
        -- intros (resp' & items & E & _ & Hv'). injection E as <-. congruence.
    + split; [| split; [intros ? E; injection E as <-; contradiction
                       | intros ? E; now injection E as <-]].
      split.
      * intros (tr & E & Hp). injection E as <-. discriminate.
      * intros (resp' & items & E & H200 & _). injection E as <-. contradiction.
  - split; [| split; intros ? E; discriminate].
    split.
    + intros (tr & E & Hp).
      destruct (isinstance e "Exception"); [| discriminate].
      injection E as <-. discriminate.
    + intros (resp & items & E & _). discriminate.
Qed.

(** *** The verdicts of the message scenarios *)

(** A value with a length that is not zero. *)
Definition sized (v : json) : Prop :=
  match v with
  | JStr s => s <> EmptyString
  | JArr l => l <> []
  | JObj d => d <> []
  | _ => False
  end.

Lemma sized_len v : sized v <-> exists n, py_len v = Returns (S n).
Proof.
  destruct v as [| b | n | f | s | l | d]; simpl;
    try (split; [contradiction | intros (n' & E); discriminate]).
  - destruct s; simpl; split; try congruence.
    + intros (n' & E). discriminate.
    + intros _. eauto.
  - destruct l; simpl; split; try congruence.
    + intros (n' & E). discriminate.
    + intros _. eauto.
  - destruct d; simpl; split; try congruence.
    + intros (n' & E). discriminate.
    + intros _. eauto.
Qed.

Lemma py_len_raises v e :
  py_len v = Raises e -> isinstance e "Exception" = true.
Proof. destruct v; simpl; intros E; try discriminate; now injection E as <-. Qed.

Lemma py_lower_raises v e :
  py_lower v = Raises e -> isinstance e "Exception" = true.
Proof. destruct v; simpl; intros E; try discriminate; now injection E as <-. Qed.

Lemma py_get_raises v k e :
  py_get v k = Raises e -> isinstance e "Exception" = true.
Proof. destruct v; simpl; intros E; try discriminate; now injection E as <-. Qed.

Section Messages.
Context `{PyRuntime}.

(** A scenario that sends one message and judges what comes back. *)
Lemma message_scenario_runs nm a c start
    (check : SendResult -> outcome bool) (err : SendResult -> string) w :
  (forall d e, check d = Raises e -> isinstance e "Exception" = true) ->
  let ev := script (env w) (cursor w) in
  let failed msg := Returns {| name := nm; passed := false;
                               duration_ms :=
                                 ms_between start (now w + Z.of_nat (elapsed ev));
                               error := Some msg |} in
  try_except ["Exception"]
    (result <- send_message a c ;;
     ok <- lift (check result) ;;
     t <- time_time ;;
     ret {| name := nm; passed := ok; duration_ms := ms_between start t;
            error := if ok : bool then None else Some (err result) |})
    (failed_with nm start) w =
  (match leg_outcome ev with
   | Returns d =>
       match check d with
       | Returns true =>
           Returns {| name := nm; passed := true;
                      duration_ms :=
                        ms_between start (now w + Z.of_nat (elapsed ev));
                      error := None |}
       | Returns false => failed (err d)
       | Raises e => failed (message e)
       end
   | Raises e => if isinstance e "Exception" then failed (message e) else Raises e
   end,
   snd (send_request (POST "/api/send" a c "e2e-test" TIMEOUT_SECONDS) w)).
Proof.
  intros Hcheck ev failed. subst failed.
  unfold try_except, failed_with, bind, lift, time_time, ret.
  rewrite send_message_runs. fold ev.
  destruct (leg_outcome ev) as [d | e]; cbn [fst snd].
  - destruct (check d) as [[|] | e] eqn:Hc; rewrite send_request_world;
      cbn [now existsb]; try reflexivity.
    rewrite (Hcheck _ _ Hc). reflexivity.
  - cbn [existsb]. rewrite orb_false_r.
    destruct (isinstance e "Exception"); rewrite send_request_world;
      reflexivity.
Qed.

Definition simple_check (d : SendResult) : outcome bool :=
  if sr_status_code d =? 200
  then if negb (is_None (sr_full_response d))
       then n <~ py_len (sr_full_response d) ;; Returns (Nat.ltb 0 n)
       else Returns false
  else Returns false.

Lemma simple_check_true d :
  simple_check d = Returns true <->
  sr_status_code d = 200 /\ sized (sr_full_response d).
Proof.
  unfold simple_check. rewrite sized_len.
  destruct (Z.eqb_spec (sr_status_code d) 200) as [H200 | Hne];
    [| split; [discriminate | intros [? _]; contradiction]].
  destruct (sr_full_response d) as [| b | n | f | s | l | items]; cbn;
    try (split; [discriminate | intros (_ & n' & E); discriminate]).
  - destruct (String.length s); cbn; split;
      try discriminate; try (intros (_ & n' & E); discriminate); eauto.
  - destruct (List.length l); cbn; split;
      try discriminate; try (intros (_ & n' & E); discriminate); eauto.
  - destruct (List.length items); cbn; split;
      try discriminate; try (intros (_ & n' & E); discriminate); eauto.
Qed.

Lemma simple_check_raises d e :
  simple_check d = Raises e -> isinstance e "Exception" = true.
Proof.
  unfold simple_check. destruct (sr_status_code d =? 200); [| discriminate].
  destruct (negb (is_None (sr_full_response d))); [| discriminate].
  destruct (py_len (sr_full_response d)) as [n | e'] eqn:Hl; cbn;
    [discriminate |].
  intros E. injection E as <-. eapply py_len_raises; eassumption.
Qed.

Definition search_check (d : SendResult) : outcome bool :=
  if sr_status_code d =? 200
  then if negb (is_None (sr_full_response d))
       then l <~ py_lower (sr_full_response d) ;;
            if contains "found" l then Returns true
            else l' <~ py_lower (sr_full_response d) ;;
                 Returns (contains "entries" l')
       else Returns false
  else Returns false.

Lemma search_check_true d :
  search_check d = Returns true <->
  sr_status_code d = 200 /\
  exists s, sr_full_response d = JStr s /\
            (contains "found" (lower s) = true \/
             contains "entries" (lower s) = true).
Proof.
  unfold search_check.
  destruct (Z.eqb_spec (sr_status_code d) 200) as [H200 | Hne];
    [| split; [discriminate | intros [? _]; contradiction]].
  destruct (sr_full_response d) as [| b | n | f | s | l | items];
    cbn -[contains];
    try (split; [discriminate | intros (_ & s' & E & _); discriminate]).
  destruct (contains "found" (lower s)) eqn:Hf; cbn -[contains].
  - split; [intros _ | reflexivity]. split; [assumption |]. exists s. auto.
  - split.
    + intros E. injection E as E. split; [assumption |]. exists s. auto.
    + intros (_ & s' & E & [Hc | Hc]); injection E as <-; congruence.
Qed.

Lemma search_check_raises d e :
  search_check d = Raises e -> isinstance e "Exception" = true.
Proof.
  unfold search_check. destruct (sr_status_code d =? 200); [| discriminate].
  destruct (negb (is_None (sr_full_response d))); [| discriminate].
  destruct (py_lower (sr_full_response d)) as [l | e'] eqn:Hl;
    cbn -[contains].
  - destruct (contains "found" l); discriminate.
  - intros E. injection E as <-. eapply py_lower_raises; eassumption.
Qed.

Lemma test_simple_message_runs a w :
  let ev := script (env w) (cursor w) in
  let nm := "simple-message-" ++ py_str a in
  let failed msg := Returns {| name := nm; passed := false;
                               duration_ms :=
                                 ms_between (now w) (now w + Z.of_nat (elapsed ev));
                               error := Some msg |} in
  test_simple_message a w =
  (match leg_outcome ev with
   | Returns d =>
       match simple_check d with
       | Returns true => Returns {| name := nm; passed := true;
                                    duration_ms :=
                                      ms_between (now w) (now w + Z.of_nat (elapsed ev));
                                    error := None |}
       | Returns false => failed "No response received"
       | Raises e => failed (message e)
       end
   | Raises e => if isinstance e "Exception" then failed (message e) else Raises e
   end,
   snd (send_request (POST "/api/send" a "Say hello briefly" "e2e-test" 120) w)).
Proof.
  intros ev nm failed. subst failed.
  unfold test_simple_message, bind at 1, time_time. cbv zeta.
  rewrite (message_scenario_runs _ a _ (now w) simple_check
             (fun _ => "No response received") w simple_check_raises).
  fold ev. fold nm. reflexivity.
Qed.

Lemma test_pack_tool_log_search_runs a w :
  let ev := script (env w) (cursor w) in
  let nm := "pack-tool-log-search-" ++ py_str a in
  let failed msg := Returns {| name := nm; passed := false;
                               duration_ms :=
                                 ms_between (now w) (now w + Z.of_nat (elapsed ev));
                               error := Some msg |} in
  test_pack_tool_log_search a w =
  (match leg_outcome ev with
   | Returns d =>
       match search_check d with
       | Returns true => Returns {| name := nm; passed := true;
                                    duration_ms :=
                                      ms_between (now w) (now w + Z.of_nat (elapsed ev));
                                    error := None |}
       | Returns false => failed ("Response: " ++ py_str (sr_full_response d))
       | Raises e => failed (message e)
       end
   | Raises e => if isinstance e "Exception" then failed (message e) else Raises e
   end,
   snd (send_request
          (POST "/api/send" a "Use log_search to find entries containing 'E2E'"
                "e2e-test" 120) w)).
Proof.
  intros ev nm failed. subst failed.
  unfold test_pack_tool_log_search, bind at 1, time_time. cbv zeta.
  rewrite (message_scenario_runs _ a _ (now w) search_check
             (fun d => "Response: " ++ py_str (sr_full_response d)) w
             search_check_raises).
  fold ev. fold nm. reflexivity.
Qed.
End Messages.

(** X7.  The single-message scenario makes exactly one request, a [POST] to
    [/api/send] with its agent, the text ["Say hello briefly"], the sender
    ["e2e-test"] and a timeout of 120 seconds.  It passes iff the request is
    answered with status 200, the stream parses, and the aggregated response
    has a length that is not zero; an aggregated response without a length, a
    number for one, fails it with the text of the [TypeError]. *)
Theorem simple_message_verdict `{PyRuntime} (a : json) (w : World) :
  let ev := script (env w) (cursor w) in
  requests (snd (test_simple_message a w)) =
    (requests w ++ [POST "/api/send" a "Say hello briefly" "e2e-test" 120])%list /\
  (passes (test_simple_message a) w <->
   exists d, leg_outcome ev = Returns d /\
             sr_status_code d = 200 /\ sized (sr_full_response d)) /\
  (forall d e, leg_outcome ev = Returns d -> sr_status_code d = 200 ->
               py_len (sr_full_response d) = Raises e ->
               sr_full_response d <> JNull ->
               fst (test_simple_message a w) =
               Returns {| name := "simple-message-" ++ py_str a; passed := false;
                          duration_ms :=
                            ms_between (now w) (now w + Z.of_nat (elapsed ev));
                          error := Some (message e) |}).
Proof.
  intros ev. unfold passes. rewrite test_simple_message_runs. fold ev.
  cbn [fst snd].
  split; [now rewrite send_request_world |]. split.
  - destruct (leg_outcome ev) as [d | e].
    + pose proof (simple_check_true d) as Ht.
      destruct (simple_check d) as [[|] | e].
      * split; [intros _ | intros _; eexists; split; reflexivity].
        exists d. split; [reflexivity |]. now apply Ht.
      * split; [intros (tr & E & Hp); injection E as <-; discriminate |].
        intros (d' & E & Hd). injection E as <-. apply Ht in Hd. discriminate.
      * split; [intros (tr & E & Hp); injection E as <-; discriminate |].
        intros (d' & E & Hd). injection E as <-. apply Ht in Hd. discriminate.
    + split; [| intros (d & E & _); discriminate].
      intros (tr & E & Hp). destruct (isinstance e "Exception");
        [injection E as <-; discriminate | discriminate].
  - intros d e Hd H200 Hlen Hnone. rewrite Hd. unfold simple_check.
    apply Z.eqb_eq in H200. rewrite H200, Hlen.
    destruct (sr_full_response d); try contradiction; reflexivity.
Qed.

(** X8.  The [log_search] scenario passes iff its request is answered with
    status 200, the stream parses, and the aggregated response is a string
    that contains ["found"] or ["entries"] whatever the case of its letters.
    An aggregated response that is not a string and not [None] fails it with
    the text of the [AttributeError]. *)
Theorem log_search_verdict `{PyRuntime} (a : json) (w : World) :
  let ev := script (env w) (cursor w) in
  (passes (test_pack_tool_log_search a) w <->
   exists d s, leg_outcome ev = Returns d /\ sr_status_code d = 200 /\
               sr_full_response d = JStr s /\
               (contains "found" (lower s) = true \/
                contains "entries" (lower s) = true)) /\
  (forall d e, leg_outcome ev = Returns d -> sr_status_code d = 200 ->
               py_lower (sr_full_response d) = Raises e ->
               sr_full_response d <> JNull ->
               fst (test_pack_tool_log_search a w) =
               Returns {| name := "pack-tool-log-search-" ++ py_str a;
                          passed := false;
                          duration_ms :=
                            ms_between (now w) (now w + Z.of_nat (elapsed ev));
                          error := Some (message e) |}).
Proof.
  intros ev. unfold passes. rewrite test_pack_tool_log_search_runs. fold ev.
  cbn [fst snd]. split.
  - destruct (leg_outcome ev) as [d | e].
    + pose proof (search_check_true d) as Ht.
      destruct (search_check d) as [[|] | e].
      * split; [intros _ | intros _; eexists; split; reflexivity].
        destruct (proj1 Ht eq_refl) as (H200 & s & Hs & Hc).
        exists d, s. auto.
      * split; [intros (tr & E & Hp); injection E as <-; discriminate |].
        intros (d' & s & E & H200 & Hs & Hc). injection E as <-.
        assert (Returns false = Returns true) by (apply Ht; eauto).
        discriminate.
      * split; [intros (tr & E & Hp); injection E as <-; discriminate |].
        intros (d' & s & E & H200 & Hs & Hc). injection E as <-.
        assert (@Raises bool e = Returns true) by (apply Ht; eauto).
        discriminate.
    + split; [| intros (d & s & E & _); discriminate].
      intros (tr & E & Hp). destruct (isinstance e "Exception");
        [injection E as <-; discriminate | discriminate].
  - intros d e Hd H200 Hlow Hnone. rewrite Hd. unfold search_check.
    apply Z.eqb_eq in H200. rewrite H200, Hlow.
    destruct (sr_full_response d); try contradiction; reflexivity.
Qed.

(** *** The [log_entry] scenario *)

Section LogEntry.
Context `{PyRuntime}.

(** An event that settles [has_tool_use] with [True]. *)
Definition mentions_tool (e : json) : bool :=
  contains "tool_use" (py_str e) ||
  match e with
  | JObj d => match dict_get "name" d with
              | Some v => eq_str v "log_entry"
              | None => false
              end
  | _ => false
  end.

(** An event at which the scan of [has_tool_use] stops: it mentions the tool,
    or it has no [get]. *)
Definition stops_scan (e : json) : bool := mentions_tool e || negb (is_object e).

Lemma has_tool_use_find (evs : list json) :
  has_tool_use evs =
  match find stops_scan evs with
  | None => Returns false
  | Some e =>
      if mentions_tool e then Returns true
      else Raises (AttributeError
                     ("'" ++ type_name e ++ "' object has no attribute 'get'"))
  end.
Proof.
  induction evs as [| e rest IH]; [reflexivity |].
  cbn [has_tool_use find]. unfold stops_scan, mentions_tool.
  destruct (contains "tool_use" (py_str e)) eqn:Hc; cbn [orb];
    [now rewrite Hc |].
  destruct e as [| b | n | f | s | l | d];
    cbn [py_get obind is_object negb orb];
    try (rewrite Hc; reflexivity).
  destruct (dict_get "name" d) as [v |] eqn:Hd; cbn [eq_str].
  - destruct (eq_str v "log_entry") eqn:Hv; cbn [orb].
    + rewrite Hc, Hd, Hv. reflexivity.
    + exact IH.
  - cbn [orb]. exact IH.
Qed.

Definition log_check (d : SendResult) : outcome bool :=
  tool_use <~ has_tool_use (sr_events d) ;;
  if sr_status_code d =? 200
  then if negb (is_None (sr_full_response d))
       then if tool_use : bool then Returns true
            else l <~ py_lower (sr_full_response d) ;;
                 Returns (contains "logged" l)
       else Returns false
  else Returns false.

Lemma has_tool_use_raises evs e :
  has_tool_use evs = Raises e -> isinstance e "Exception" = true.
Proof.
  rewrite has_tool_use_find. destruct (find stops_scan evs) as [x |];
    [| discriminate].
  destruct (mentions_tool x); [discriminate |].
  intros E. now injection E as <-.
Qed.

Lemma log_check_raises d e :
  log_check d = Raises e -> isinstance e "Exception" = true.
Proof.
  unfold log_check.
  destruct (has_tool_use (sr_events d)) as [t | e'] eqn:Ht; cbn [obind].
  - destruct (sr_status_code d =? 200); [| discriminate].
    destruct (negb (is_None (sr_full_response d))); [| discriminate].
    destruct t; [discriminate |].
    destruct (py_lower (sr_full_response d)) as [l | e''] eqn:Hl; cbn [obind];
      [discriminate |].
    intros E. injection E as <-. eapply py_lower_raises; eassumption.
  - intros E. injection E as <-. eapply has_tool_use_raises; eassumption.
Qed.

Lemma log_check_true d :
  log_check d = Returns true <->
  sr_status_code d = 200 /\ sr_full_response d <> JNull /\
  match find stops_scan (sr_events d) with
  | Some e => mentions_tool e = true
  | None => exists s, sr_full_response d = JStr s /\
                      contains "logged" (lower s) = true
  end.
Proof.
  unfold log_check. rewrite has_tool_use_find.
  destruct (find stops_scan (sr_events d)) as [x |].
  - destruct (mentions_tool x); cbn [obind].
    + destruct (Z.eqb_spec (sr_status_code d) 200) as [H200 | Hne];
        [| split; [discriminate | intros [? _]; contradiction]].
      destruct (sr_full_response d); cbn [is_None negb];
        split; try discriminate; try (intros (_ & Hn & _); congruence);
        intros _; repeat split; congruence.
    + split; [discriminate | intros (_ & _ & E); discriminate].
  - cbn [obind].
    destruct (Z.eqb_spec (sr_status_code d) 200) as [H200 | Hne];
      [| split; [discriminate | intros [? _]; contradiction]].
    destruct (sr_full_response d) as [| b | n | f | s | l | items];
      cbn -[contains];
      try (split; [discriminate | intros (_ & _ & s' & E & _); discriminate]).
    split.
    + intros E. injection E as E. repeat split; try congruence. eauto.
    + intros (_ & _ & s' & E & Hc). injection E as <-. congruence.
Qed.

Lemma test_pack_tool_log_entry_runs a w :
  let ev := script (env w) (cursor w) in
  let nm := "pack-tool-log-entry-" ++ py_str a in
  let failed msg := Returns {| name := nm; passed := false;
                               duration_ms :=
                                 ms_between (now w) (now w + Z.of_nat (elapsed ev));
                               error := Some msg |} in
  test_pack_tool_log_entry a w =
  (match leg_outcome ev with
   | Returns d =>
       match log_check d with
       | Returns true => Returns {| name := nm; passed := true;
                                    duration_ms :=
                                      ms_between (now w) (now w + Z.of_nat (elapsed ev));
                                    error := None |}
       | Returns false => failed ("Response: " ++ py_str (sr_full_response d))
       | Raises e => failed (message e)
       end
   | Raises e => if isinstance e "Exception" then failed (message e) else Raises e
   end,
   snd (send_request
          (POST "/api/send" a
                ("Use log_entry to log: E2E test entry " ++ str_of_Z (now w / 1000))
                "e2e-test" 120) w)).
Proof.
  intros ev nm failed. subst failed.
  unfold test_pack_tool_log_entry, try_except, failed_with, bind, lift,
    time_time, ret.
  cbv zeta. rewrite send_message_runs. fold ev. fold nm.
  destruct (leg_outcome ev) as [d | e]; cbn [fst snd].
  - pose proof (log_check_raises d) as Hr. unfold log_check in *.
    destruct (has_tool_use (sr_events d)) as [t | e] eqn:Ht; cbn [obind] in *.
    + match goal with
      | |- context [if sr_status_code d =? 200 then ?x else ?y] =>
          destruct (if sr_status_code d =? 200 then x else y)
            as [[|] | e] eqn:Hc
      end; rewrite !send_request_world; cbn [now existsb fst snd];
        try rewrite (Hr _ eq_refl); fold ev;
        replace (now w + Z.of_nat (elapsed ev) - now w)
          with (Z.of_nat (elapsed ev)) by lia; reflexivity.
    + rewrite !send_request_world. cbn [now existsb fst snd].
      rewrite (Hr _ eq_refl). fold ev.
      replace (now w + Z.of_nat (elapsed ev) - now w)
        with (Z.of_nat (elapsed ev)) by lia.
      reflexivity.
  - cbn [existsb]. rewrite orb_false_r.
    destruct (isinstance e "Exception"); rewrite !send_request_world;
      cbn [now]; fold ev; [| reflexivity].
    replace (now w + Z.of_nat (elapsed ev) - now w)
      with (Z.of_nat (elapsed ev)) by lia.
    reflexivity.
Qed.
End LogEntry.

(** X9.  The [log_entry] scenario sends one message, whose text ends with the
    whole seconds of the clock at its start.  The scan for a tool use stops
    at the first event that mentions the tool (["tool_use"] in its text, or a
    [name] of ["log_entry"]) or that is not an object.  The scenario passes
    iff the request is answered with status 200, the stream parses, the
    aggregated response is not [None], and either the scan stops at an event
    that mentions the tool, or it stops nowhere and the aggregated response
    is a string that contains ["logged"] whatever the case of its letters.
    What [has_tool_result] computes has no part in the verdict.  When the
    scan stops at an event that does not mention the tool, the scenario
    fails with the text of the [AttributeError], whatever the status code. *)
Theorem log_entry_verdict `{PyRuntime} (a : json) (w : World) :
  let ev := script (env w) (cursor w) in
  requests (snd (test_pack_tool_log_entry a w)) =
    (requests w ++
     [POST "/api/send" a
           ("Use log_entry to log: E2E test entry " ++ str_of_Z (now w / 1000))
           "e2e-test" 120])%list /\
  (passes (test_pack_tool_log_entry a) w <->
   exists d, leg_outcome ev = Returns d /\
             sr_status_code d = 200 /\ sr_full_response d <> JNull /\
             match find stops_scan (sr_events d) with
             | Some e => mentions_tool e = true
             | None => exists s, sr_full_response d = JStr s /\
                                 contains "logged" (lower s) = true
             end) /\
  (forall d e, leg_outcome ev = Returns d ->
               find stops_scan (sr_events d) = Some e ->
               mentions_tool e = false ->
               fst (test_pack_tool_log_entry a w) =
               Returns {| name := "pack-tool-log-entry-" ++ py_str a;
                          passed := false;
                          duration_ms :=
                            ms_between (now w) (now w + Z.of_nat (elapsed ev));
                          error := Some ("'" ++ type_name e ++
                                         "' object has no attribute 'get'") |}).
Proof.
  intros ev. unfold passes. rewrite test_pack_tool_log_entry_runs. fold ev.
  cbn [fst snd].
  split; [now rewrite send_request_world |]. split.
  - destruct (leg_outcome ev) as [d | e].
    + pose proof (log_check_true d) as Ht.
      destruct (log_check d) as [[|] | e].
      * split; [intros _ | intros _; eexists; split; reflexivity].
        exists d. split; [reflexivity |]. now apply Ht.
      * split; [intros (tr & E & Hp); injection E as <-; discriminate |].
        intros (d' & E & Hd). injection E as <-. apply Ht in Hd. discriminate.
      * split; [intros (tr & E & Hp); injection E as <-; discriminate |].
        intros (d' & E & Hd). injection E as <-. apply Ht in Hd. discriminate.
    + split; [| intros (d & E & _); discriminate].
      intros (tr & E & Hp). destruct (isinstance e "Exception");
        [injection E as <-; discriminate | discriminate].
  - intros d e Hd Hfind Hm. rewrite Hd. unfold log_check.
    rewrite has_tool_use_find, Hfind, Hm. reflexivity.
Qed.

(** *** The agents a run is about *)

Lemma comprehension_returns {A B} (f : A -> outcome B) (l : list A) (bs : list B) :
  comprehension f l = Returns bs <-> Forall2 (fun a b => f a = Returns b) l bs.
Proof.
  revert bs. induction l as [| a l IH]; intros bs; cbn [comprehension].
  - split.
    + intros E. injection E as <-. constructor.
    + intros F. inversion F. reflexivity.
  - destruct (f a) as [b | e] eqn:Ha; cbn [obind].
    + destruct (comprehension f l) as [bs' | e] eqn:Hl; cbn [obind].
      * split.
        -- intros E. injection E as <-. constructor; [assumption |].
           now apply IH.
        -- intros F. inversion F as [| a' b' l' bs'' Hab Hrest]; subst.
           apply IH in Hrest. congruence.
      * split; [discriminate |].
        intros F. inversion F as [| a' b' l' bs'' Hab Hrest]; subst.
        apply IH in Hrest. discriminate.
    + split; [discriminate |].
      intros F. inversion F; subst. congruence.
Qed.

Lemma py_iter_nil v :
  py_iter v = Returns [] <->
  v = JArr [] \/ v = JObj [] \/ v = JStr EmptyString.
Proof.
  split.
  - destruct v as [| b | n | f | s | l | d]; cbn; try discriminate.
    + destruct s; cbn; [auto | discriminate].
    + destruct l; [auto | discriminate].
    + destruct d; cbn; [auto | discriminate].
  - intros [-> | [-> | ->]]; reflexivity.
Qed.

Section Agents.
Context `{PyRuntime}.

Lemma fetch_agent_ids_runs w :
  fetch_agent_ids w =
  (match reply (script (env w) (cursor w)) with
   | Fails e => Raises e
   | Answers resp =>
       agents <~ (if status_code resp =? 200 then loads (text resp)
                  else Returns (JArr [])) ;;
       items <~ py_iter agents ;;
       comprehension (fun a => py_getitem a "id") items
   end,
   snd (send_request (GET "/api/agents") w)).
Proof.
  unfold fetch_agent_ids, client_get, bind, lift, send_request.
  destruct (reply (script (env w) (cursor w))) as [resp | e]; [| reflexivity].
  cbn [fst snd].
  destruct (if status_code resp =? 200 then loads (text resp)
            else Returns (JArr [])) as [agents | e]; [| reflexivity].
  cbn [obind]. destruct (py_iter agents) as [items | e]; reflexivity.
Qed.
End Agents.

(** X10.  Listing the agents makes exactly one request, a [GET] of
    [/api/agents].  When the request raises, so does the listing.  When it is
    answered with a status other than 200 the listing is empty and the body
    is not decoded.  When it is answered with 200, the listing returns iff
    the body decodes to a value that can be iterated and whose every element
    has an ["id"], and it is then these in order.  The listing is empty iff
    the status is not 200 or the body decodes to an empty list, an empty
    object or an empty string. *)
Theorem agent_ids_listed `{PyRuntime} (w : World) :
  requests (snd (fetch_agent_ids w)) =
    (requests w ++ [GET "/api/agents"])%list /\
  match reply (script (env w) (cursor w)) with
  | Fails e => fst (fetch_agent_ids w) = Raises e
  | Answers resp =>
      (forall ids,
          fst (fetch_agent_ids w) = Returns ids <->
          if status_code resp =? 200
          then exists v items,
                 json_loads (text resp) = Some v /\
                 py_iter v = Returns items /\
                 Forall2 (fun a i => py_getitem a "id" = Returns i) items ids
          else ids = []) /\
      (fst (fetch_agent_ids w) = Returns [] <->
       status_code resp <> 200 \/
       json_loads (text resp) = Some (JArr []) \/
       json_loads (text resp) = Some (JObj []) \/
       json_loads (text resp) = Some (JStr EmptyString))
  end.
Proof.
  rewrite fetch_agent_ids_runs. cbn [fst snd].
  split; [now rewrite send_request_world |].
  destruct (reply (script (env w) (cursor w))) as [resp | e]; [| reflexivity].
  assert (Hall : forall ids,
    (agents <~ (if status_code resp =? 200 then loads (text resp)
                else Returns (JArr [])) ;;
     items <~ py_iter agents ;;
     comprehension (fun a => py_getitem a "id") items) = Returns ids <->
    if status_code resp =? 200
    then exists v items,
           json_loads (text resp) = Some v /\
           py_iter v = Returns items /\
           Forall2 (fun a i => py_getitem a "id" = Returns i) items ids
    else ids = []).
  { intros ids. destruct (status_code resp =? 200).
    - unfold loads. destruct (json_loads (text resp)) as [v |]; cbn [obind].
      + destruct (py_iter v) as [items | e] eqn:Hi; cbn [obind].
        * rewrite comprehension_returns. split.
          -- intros F. exists v, items. auto.
          -- intros (v' & items' & Ev & Ei & F). congruence.
        * split; [discriminate |].
          intros (v' & items' & Ev & Ei & F). congruence.
      + split; [discriminate |].
        intros (v' & items' & Ev & _). discriminate.
    - cbn. split; congruence. }
  split; [exact Hall |].
  rewrite Hall. destruct (Z.eqb_spec (status_code resp) 200) as [E200 | Hne].
  - split.
    + intros (v & items & Ev & Ei & F). right. inversion F; subst.
      apply py_iter_nil in Ei. rewrite Ev.
      destruct Ei as [-> | [-> | ->]]; auto.
    + intros [Hne | Hv]; [contradiction |].
      assert (exists v, json_loads (text resp) = Some v /\ py_iter v = Returns [])
        as (v & Ev & Ei).
      { destruct Hv as [Ev | [Ev | Ev]]; eexists; (split; [exact Ev |]);
          reflexivity. }
      exists v, []. repeat split; [assumption | assumption | constructor].
  - split; auto.
Qed.

(** *** Who is asked, and in which order *)

(** The agent a request is addressed to, if it is a message. *)
Definition addressee (rq : request) : option json :=
  match rq with
  | GET _ => None
  | POST _ a _ _ _ => Some a
  end.

(** [sends plan m]: the requests [m] makes are addressed as [plan] says, in
    its order; all of them when [m] returns, the first of them when it
    raises. *)
Definition sends {A} (plan : list (option json)) (m : M A) : Prop :=
  forall w, exists rqs,
    requests (snd (m w)) = (requests w ++ rqs)%list /\
    if returned (fst (m w)) then map addressee rqs = plan
    else exists rest, plan = (map addressee rqs ++ rest)%list.

Lemma sends_bind {A B} l1 l2 (m : M A) (f : A -> M B) :
  sends l1 m -> (forall a, sends l2 (f a)) -> sends (l1 ++ l2) (bind m f).
Proof.
  intros Hm Hf w. unfold bind. destruct (Hm w) as (r1 & E1 & H1).
  destruct (m w) as [[a | e] w1]; cbn [fst snd returned] in *.
  - destruct (Hf a w1) as (r2 & E2 & H2). exists (r1 ++ r2)%list.
    rewrite E2, E1, app_assoc. split; [reflexivity |].
    destruct (f a w1) as [[b | e] w2]; cbn [fst snd returned] in *.
    + rewrite map_app. congruence.
    + destruct H2 as (rest & ->). exists rest.
      rewrite map_app, H1, app_assoc. reflexivity.
  - exists r1. split; [assumption |]. destruct H1 as (rest & ->).
    exists (rest ++ l2)%list. now rewrite app_assoc.
Qed.

Lemma sends_quiet {A} (m : M A) :
  (forall w, requests (snd (m w)) = requests w) -> sends [] m.
Proof.
  intros Hm w. exists []. rewrite Hm, app_nil_r. split; [reflexivity |].
  destruct (returned (fst (m w))); [reflexivity | now exists []].
Qed.

(** A line of the console asks nothing, whether it renders or not. *)
Ltac quiet :=
  apply sends_quiet; intros ?; unfold console_print_markup;
  try destruct (render_error _); reflexivity.

Lemma sends_one {A} (x : option json) (m : M A) :
  (forall w, exists rq,
      snd (m w) = snd (send_request rq w) /\ addressee rq = x) ->
  sends [x] m.
Proof.
  intros Hm w. destruct (Hm w) as (rq & E & Hx). exists [rq].
  rewrite E, send_request_world. cbn [requests map]. rewrite Hx.
  split; [reflexivity |]. destruct (returned (fst (m w))); [reflexivity |].
  now exists [].
Qed.

Lemma sends_scenario x l (f : M TestResult) (rest : M unit) :
  sends [x] f -> sends l rest ->
  sends (x :: l) (r <- f ;; results_append r ;;; rest).
Proof.
  intros Hf Hrest. change (x :: l) with ([x] ++ ([] ++ l))%list.
  apply sends_bind; [exact Hf | intros r].
  apply sends_bind; [| intros _; exact Hrest].
  quiet.
Qed.

Section Order.
Context `{PyRuntime}.

Lemma sends_test_gateway_health : sends [None] test_gateway_health.
Proof.
  apply sends_one. intros w. exists (GET "/health").
  now rewrite test_gateway_health_runs.
Qed.

Lemma sends_test_agent_list : sends [None] test_agent_list.
Proof.
  apply sends_one. intros w. exists (GET "/api/agents").
  now rewrite test_agent_list_runs.
Qed.

Lemma sends_test_simple_message a : sends [Some a] (test_simple_message a).
Proof.
  apply sends_one. intros w. eexists.
  rewrite test_simple_message_runs. cbn [snd]. split; reflexivity.
Qed.

Lemma sends_test_pack_tool_log_entry a :
  sends [Some a] (test_pack_tool_log_entry a).
Proof.
  apply sends_one. intros w. eexists.
  rewrite test_pack_tool_log_entry_runs. cbn [snd]. split; reflexivity.
Qed.

Lemma sends_test_pack_tool_log_search a :
  sends [Some a] (test_pack_tool_log_search a).
Proof.
  apply sends_one. intros w. eexists.
  rewrite test_pack_tool_log_search_runs. cbn [snd]. split; reflexivity.
Qed.

Lemma sends_test_parallel_messages ids :
  sends (map Some ids) (test_parallel_messages ids).
Proof.
  intros w. destruct (test_parallel_messages_runs ids w) as (w' & E & _ & Hq & _).
  exists (map fanout_post ids). rewrite E. cbn [fst snd returned].
  split; [exact Hq |]. rewrite map_map. reflexivity.
Qed.

Definition thrice (ids : list json) : list json :=
  flat_map (fun a => [a; a; a]) ids.

Lemma sends_per_agent_tests ids :
  sends (map Some (thrice ids)) (per_agent_tests ids).
Proof.
  induction ids as [| a ids IH].
  - quiet.
  - cbn [per_agent_tests thrice flat_map app map].
    change (Some a :: Some a :: Some a :: map Some (flat_map (fun a => [a; a; a]) ids))
      with ([] ++ Some a :: Some a :: Some a :: map Some (thrice ids))%list.
    apply sends_bind; [quiet | intros _].
    apply sends_scenario; [apply sends_test_simple_message |].
    apply sends_scenario; [apply sends_test_pack_tool_log_entry |].
    apply sends_scenario; [apply sends_test_pack_tool_log_search |].
    exact IH.
Qed.

Lemma sends_sequential_tests ids :
  sends (None :: None :: map Some (thrice ids)) (sequential_tests ids).
Proof.
  unfold sequential_tests.
  change (None :: None :: map Some (thrice ids))
    with ([] ++ None :: None :: map Some (thrice ids))%list.
  apply sends_bind; [quiet | intros _].
  apply sends_scenario; [apply sends_test_gateway_health |].
  apply sends_scenario; [apply sends_test_agent_list |].
  apply sends_per_agent_tests.
Qed.

Lemma sends_parallel_tests ids :
  sends (map Some (if Nat.leb 2 (List.length ids) then firstn 2 ids else []))
        (parallel_tests ids).
Proof.
  unfold parallel_tests. destruct (Nat.leb 2 (List.length ids)).
  - change (map Some (firstn 2 ids))
      with ([] ++ map Some (firstn 2 ids))%list.
    apply sends_bind; [quiet | intros _].
    rewrite <- (app_nil_r (map Some (firstn 2 ids))).
    apply sends_bind; [apply sends_test_parallel_messages | intros r].
    quiet.
  - quiet.
Qed.
End Order.

(** X11.  One pass over the scenarios asks in a fixed order: the two
    infrastructure requests, which are addressed to no agent, then three
    messages to each listed agent, agent after agent in the order of the
    listing, then the fan-out to the first two agents when at least two are
    listed.  A pass that returns has made all of these requests and no
    other; a pass that something raised out of has made the first of them
    and no other. *)
Theorem requests_follow_the_listing `{PyRuntime} (ids : list json) (w : World) :
  let plan :=
    None :: None ::
    map Some (flat_map (fun a => [a; a; a]) ids ++
              (if Nat.leb 2 (List.length ids) then firstn 2 ids else []))%list in
  exists rqs,
    requests (snd (run_scenarios ids w)) = (requests w ++ rqs)%list /\
    (exists rest, plan = (map addressee rqs ++ rest)%list) /\
    (returned (fst (run_scenarios ids w)) = true -> map addressee rqs = plan).
Proof.
  intros plan.
  assert (Hs : sends plan (run_scenarios ids)).
  { subst plan. unfold run_scenarios. rewrite map_app.
    change (None :: None ::
            map Some (flat_map (fun a => [a; a; a]) ids) ++
            map Some (if Nat.leb 2 (List.length ids) then firstn 2 ids else []))%list
      with ((None :: None :: map Some (thrice ids)) ++
            map Some (if Nat.leb 2 (List.length ids) then firstn 2 ids else []))%list.
    apply sends_bind; [apply sends_sequential_tests | intros _].
    apply sends_parallel_tests. }
  destruct (Hs w) as (rqs & E & Hp). exists rqs. split; [exact E |].
  destruct (returned (fst (run_scenarios ids w))).
  - split; [exists []; now rewrite app_nil_r | intros _; exact Hp].
  - split; [exact Hp | discriminate].
Qed.

(** *** The table, the summary and the file *)


End GatewayScenarios.

(** ** More of the jail runner *)

Module JailScenarios.
Import Jail.
Import JailFacts.

(** *** The scenarios that wait for no reply *)

(** What a call has printed, the world it started in being [w]. *)
Definition printed (w w' : World) : list out_event :=
  skipn (List.length (stdout w)) (stdout w').

Lemma skipn_length_app {A} (l l' : list A) : skipn (List.length l) (l ++ l') = l'.
Proof. induction l as [| a l IH]; [reflexivity | exact IH]. Qed.

(** X13.  The connection scenario performs one network operation, the
    opening of a connection to [JAIL_URL].  It returns iff the connection
    opens, and the connection is then closed when the scenario ends; when
    the opening raises, the scenario raises the same, nothing is closed, and
    ["  - PASSED"] is not printed. *)
Theorem connection_verdict (w : World) :
  let ev := script (env w) (cursor w) in
  let w' := snd (test_connection w) in
  cursor w' = S (cursor w) /\
  now w' = now w + Z.of_nat (elapsed ev) /\
  match reply ev with
  | Delivers _ =>
      fst (test_connection w) = Returns tt /\
      ops w' = (ops w ++ [Connect JAIL_URL; Close])%list /\
      In (Print "  - PASSED") (printed w w')
  | Fails e =>
      fst (test_connection w) = Raises e /\
      ops w' = (ops w ++ [Connect JAIL_URL])%list /\
      ~ In (Print "  - PASSED") (printed w w')
  end.
Proof.
  intros ev w'. subst ev w'.
  unfold printed, test_connection, async_with_connect, bind, print, perform,
    ws_close, ret.
  cbn -[JAIL_URL skipn].
  destruct (reply (script (env w) (cursor w))) as [f | e];
    cbn -[JAIL_URL skipn].
  - repeat split; rewrite <- ?app_assoc; try reflexivity.
    rewrite skipn_length_app. cbn. auto.
  - repeat split. rewrite skipn_length_app. cbn.
    intros [E | []]. discriminate.
Qed.

(** X14.  The close-session scenario opens a connection to [JAIL_URL] and
    sends one [close_session] message for the channel ["test-channel-456"];
    it never waits for a reply.  It returns iff the connection opens and the
    message is sent, and it has then slept for half a second; when the
    sending raises, the scenario raises the same without sleeping, and the
    connection is closed all the same. *)
Theorem close_session_verdict (w : World) :
  let e0 := script (env w) (cursor w) in
  let e1 := script (env w) (S (cursor w)) in
  let w' := snd (test_close_session w) in
  let close_msg := JObj [("type", JStr "close_session");
                         ("channel_id", JStr "test-channel-456")] in
  (exists l, ops w' = (ops w ++ l)%list /\ forall t, ~ In (Recv t) l) /\
  match reply e0 with
  | Fails e =>
      fst (test_close_session w) = Raises e /\
      ops w' = (ops w ++ [Connect JAIL_URL])%list /\
      cursor w' = S (cursor w) /\
      now w' = now w + Z.of_nat (elapsed e0)
  | Delivers _ =>
      ops w' = (ops w ++ [Connect JAIL_URL; Send close_msg; Close])%list /\
      cursor w' = S (S (cursor w)) /\
      match reply e1 with
      | Fails e =>
          fst (test_close_session w) = Raises e /\
          now w' = now w + Z.of_nat (elapsed e0) + Z.of_nat (elapsed e1)
      | Delivers _ =>
          fst (test_close_session w) = Returns tt /\
          now w' = now w + Z.of_nat (elapsed e0) + Z.of_nat (elapsed e1) + 500
      end
  end.
Proof.
  intros e0 e1 w' close_msg. subst e0 e1 w' close_msg.
  unfold test_close_session, async_with_connect, ws_send, bind, print, perform,
    ws_close, sleep, ret.
  cbn -[JAIL_URL].
  destruct (reply (script (env w) (cursor w))) as [f0 | e]; cbn -[JAIL_URL].
  - destruct (reply (script (env w) (S (cursor w)))) as [f1 | e];
      cbn -[JAIL_URL]; rewrite <- ?app_assoc; cbn -[JAIL_URL];
      (split; [eexists; split; [reflexivity |];
               intros t [E | [E | [E | []]]]; discriminate |]);
      repeat split.
  - split; [eexists; split; [reflexivity |]; intros t [E | []]; discriminate |].
    repeat split.
Qed.

(** *** How often the prober connects *)

(** One probe: the connection it opened is closed at once. *)
Lemma connect_once_runs url w :
  let ev := script (env w) (cursor w) in
  let after (l : list op) :=
    {| env := env w; now := now w + Z.of_nat (elapsed ev);
       cursor := S (cursor w); ops := (ops w ++ l)%list;
       stdout := stdout w |} in
  async_with_connect url (ret true) w =
  match reply ev with
  | Delivers _ => (Returns true, after [Connect url; Close])
  | Fails e => (Raises e, after [Connect url])
  end.
Proof.
  unfold async_with_connect, perform, bind, ret, ws_close. cbn.
  destruct (reply (script (env w) (cursor w))) as [f | e]; cbn;
    [| reflexivity].
  now rewrite <- app_assoc.
Qed.

(** What the prober leaves in the list of operations: [n] connections
    asked for, the last of them closed when the prober says the server is
    ready. *)
Definition probes (url : string) (n : nat) (r : outcome bool) : list op :=
  (repeat (Connect url) n ++
   match r with Returns true => [Close] | _ => [] end)%list.

Lemma wait_for_server_loop_probes start timeout url :
  forall fuel w,
    timeout - (now w - start) <= 200 * Z.of_nat fuel ->
    exists r w' n,
      wait_for_server_loop (S fuel) start timeout url w = Some (r, w') /\
      (n = O \/ 200 * (Z.of_nat n - 1) < timeout - (now w - start)) /\
      cursor w' = (cursor w + n)%nat /\
      ops w' = (ops w ++ probes url n r)%list /\
      stdout w' = stdout w /\
      (n = O -> r = Returns false).
Proof.
  induction fuel as [| fuel IH]; intros w Hfuel;
    rewrite wait_for_server_loop_step;
    destruct (Z.ltb_spec (now w - start) timeout) as [Hlt | Hge];
    try (exfalso; lia);
    try (exists (Returns false), w, O; split; [reflexivity |];
         split; [now left |]; cbn; rewrite Nat.add_0_r, app_nil_r;
         now repeat split).
  rewrite connect_once_runs.
  destruct (reply (script (env w) (cursor w))) as [f | e].
  - eexists; eexists; exists 1%nat. split; [reflexivity |].
    split; [right; lia |]. cbn [cursor ops stdout].
    split; [lia |]. repeat split. discriminate.
  - destruct (existsb (isinstance e) ["ConnectionRefusedError"; "OSError"]).
    + match goal with
      | |- context [wait_for_server_loop _ _ _ _ ?w2] =>
          destruct (IH w2) as (r & w' & n & E & Hn & Hc & Ho & Hs & _)
      end.
      { unfold sleep. cbn [snd now]. lia. }
      unfold sleep in Hn, Hc, Ho, Hs. cbn [snd now cursor ops stdout] in *.
      exists r, w', (S n). split; [exact E |].
      split; [right; destruct Hn as [-> | Hn]; lia |].
      split; [lia |]. split; [| split; [exact Hs | discriminate]].
      rewrite Ho. unfold probes. cbn [repeat]. now rewrite <- !app_assoc.
    + eexists; eexists; exists 1%nat. split; [reflexivity |].
      split; [right; lia |]. cbn [cursor ops stdout].
      split; [lia |]. repeat split. discriminate.
Qed.

(** X15.  [wait_for_server] opens a connection for every probe, one per 200
    milliseconds of its deadline at most: a probe is started only while less
    than the timeout has elapsed, so the [n]-th is started less than the
    timeout after [n - 1] sleeps.  Each probe is one network operation; the
    prober performs no other, prints nothing, closes the connection it got
    when it returns [True], and with a timeout of zero or less connects to
    nothing and returns [False] at once. *)
Theorem wait_for_server_probes (url : string) (timeout : Z) (w : World) :
  exists r w' n,
    wait_for_server url timeout w = Some (r, w') /\
    (n = O \/ 200 * (Z.of_nat n - 1) < timeout) /\
    cursor w' = (cursor w + n)%nat /\
    ops w' = (ops w ++ probes url n r)%list /\
    stdout w' = stdout w /\
    (timeout <= 0 -> n = O /\ r = Returns false).
Proof.
  unfold wait_for_server.
  replace (Z.to_nat (timeout / 200) + 2)%nat
    with (S (Z.to_nat (timeout / 200) + 1)) by lia.
  destruct (wait_for_server_loop_probes (now w) timeout url
              (Z.to_nat (timeout / 200) + 1) w)
    as (r & w' & n & E & Hn & Hc & Ho & Hs & H0).
  { pose proof (Z.mul_succ_div_gt timeout 200 ltac:(lia)). lia. }
  exists r, w', n. split; [exact E |].
  split; [destruct Hn as [-> | Hn]; [now left | right; lia] |].
  split; [exact Hc |]. split; [exact Ho |]. split; [exact Hs |].
  intros Hneg. assert (n = O) by (destruct Hn as [-> | Hn]; lia). auto.
Qed.

(** *** The operations of a run that passes *)

(** Between two worlds: only printing happened. *)
Definition quiet (w w' : World) : Prop :=
  env w' = env w /\ cursor w' = cursor w /\ ops w' = ops w /\ now w' = now w.

Lemma quiet_refl w : quiet w w.
Proof. now repeat split. Qed.

Lemma quiet_trans a b c : quiet a b -> quiet b c -> quiet a c.
Proof. unfold quiet. intuition congruence. Qed.

Lemma quiet_print ev : keeps quiet (print ev).
Proof. intros w. now repeat split. Qed.

Lemma quiet_assert c msg : keeps quiet (assert_ c msg).
Proof. intros w. destruct c; now repeat split. Qed.

(** [performs plan k m]: when [m] returns, it has performed the operations
    of [plan], which took [k] events of the network. *)
Definition performs {A} (plan : Env -> list op) (k : nat) (m : M A) : Prop :=
  forall w, returned (fst (m w)) = true ->
            env (snd (m w)) = env w /\
            cursor (snd (m w)) = (cursor w + k)%nat /\
            ops (snd (m w)) = (ops w ++ plan (env w))%list.

(** The same however [m] ends. *)
Definition always_performs {A} (plan : Env -> list op) (k : nat) (m : M A)
    : Prop :=
  forall w, env (snd (m w)) = env w /\
            cursor (snd (m w)) = (cursor w + k)%nat /\
            ops (snd (m w)) = (ops w ++ plan (env w))%list.

Lemma always_performs_performs {A} plan k (m : M A) :
  always_performs plan k m -> performs plan k m.
Proof. intros Hm w _. apply Hm. Qed.

Lemma always_performs_quiet {A} (m : M A) :
  keeps quiet m -> always_performs (fun _ => []) 0 m.
Proof.
  intros Hm w. destruct (Hm w) as (He & Hc & Ho & _).
  rewrite He, Hc, Ho, Nat.add_0_r, app_nil_r. now repeat split.
Qed.

Lemma always_performs_bind {A B} plan k (m : M A) (f : A -> M B) :
  always_performs plan k m -> (forall a, keeps quiet (f a)) ->
  always_performs plan k (bind m f).
Proof.
  intros Hm Hf w. unfold bind. specialize (Hm w).
  destruct (m w) as [[a | e] w1]; cbn [fst snd] in *; [| exact Hm].
  destruct (Hf a w1) as (He & Hc & Ho & _).
  destruct Hm as (He1 & Hc1 & Ho1).
  rewrite He, Hc, Ho, He1, Hc1, Ho1. now repeat split.
Qed.

Lemma performs_bind {A B} p1 p2 k1 k2 (m : M A) (f : A -> M B) :
  performs p1 k1 m -> (forall a, performs p2 k2 (f a)) ->
  performs (fun e => p1 e ++ p2 e)%list (k1 + k2) (bind m f).
Proof.
  intros Hm Hf w. unfold bind. specialize (Hm w).
  destruct (m w) as [[a | e] w1]; cbn [fst snd returned] in *;
    [| discriminate].
  intros Hr. destruct (Hm eq_refl) as (He1 & Hc1 & Ho1).
  destruct (Hf a w1 Hr) as (He & Hc & Ho).
  rewrite He, Hc, Ho, He1, Hc1, Ho1, app_assoc. split; [reflexivity |].
  split; [lia | reflexivity].
Qed.

Lemma performs_perform o : always_performs (fun _ => [o]) 1 (perform o).
Proof.
  intros w. rewrite perform_world. cbn. split; [reflexivity |].
  split; [lia | reflexivity].
Qed.

Lemma performs_print ev : performs (fun _ => []) 0 (print ev).
Proof.
  apply always_performs_performs, always_performs_quiet, quiet_print.
Qed.

Lemma performs_try {A} cls plan k (body : M A) handler :
  always_performs plan k body -> (forall e, keeps quiet (handler e)) ->
  performs plan k (try_except cls body handler).
Proof.
  intros Hb Hh w _. unfold try_except. specialize (Hb w).
  destruct (body w) as [[a | e] w1]; cbn [fst snd] in *; [exact Hb |].
  destruct (existsb (isinstance e) cls); [| exact Hb].
  destruct (Hh e w1) as (He & Hc & Ho & _). now rewrite He, Hc, Ho.
Qed.

Lemma performs_connect {A} url plan k (body : M A) :
  performs plan k body ->
  performs (fun e => Connect url :: plan e ++ [Close])%list (S k)
           (async_with_connect url body).
Proof.
  intros Hb w. unfold async_with_connect, bind.
  pose proof (perform_world (Connect url) w) as Hw.
  destruct (perform (Connect url) w) as [[f | e] w1]; cbn [fst snd] in *;
    [| discriminate].
  specialize (Hb w1). destruct (body w1) as [[a | e] w2];
    cbn [fst snd returned] in *; [| discriminate].
  intros _. destruct (Hb eq_refl) as (He & Hc & Ho).
  unfold ws_close. cbn [snd env cursor ops]. subst w1.
  cbn [env cursor ops] in *. rewrite He, Hc, Ho, <- !app_assoc.
  split; [reflexivity |]. split; [lia | reflexivity].
Qed.

Lemma performs_ext {A} p p' k k' (m : M A) :
  performs p k m -> (forall e, p e = p' e) -> k = k' -> performs p' k' m.
Proof.
  intros Hm Hp <- w Hr. destruct (Hm w Hr) as (He & Hc & Ho).
  now rewrite <- Hp.
Qed.

Lemma performs_ret {A} (a : A) : performs (fun _ => []) 0 (ret a).
Proof.
  intros w _. cbn. now rewrite Nat.add_0_r, app_nil_r.
Qed.

Lemma performs_sleep ms : performs (fun _ => []) 0 (sleep ms).
Proof.
  intros w _. cbn. now rewrite Nat.add_0_r, app_nil_r.
Qed.

Lemma performs_ws_send q : performs (fun _ => [Send q]) 1 (ws_send q).
Proof.
  apply always_performs_performs. unfold ws_send.
  apply always_performs_bind; [apply performs_perform |].
  intros _ w. apply quiet_refl.
Qed.

Ltac performs_step :=
  first
    [ apply performs_print
    | apply performs_sleep
    | apply performs_ret
    | apply performs_ws_send
    | eapply performs_connect
    | eapply performs_bind; [| intro] ].

Section Passing.
Context `{PyRuntime}.

Lemma quiet_check_query_reply frame : keeps quiet (check_query_reply frame).
Proof.
  unfold check_query_reply.
  pose proof quiet_refl. pose proof quiet_trans. pose proof quiet_print.
  pose proof quiet_assert.
  keeps_auto.
Qed.

Lemma quiet_check_invalid_reply frame : keeps quiet (check_invalid_reply frame).
Proof.
  unfold check_invalid_reply.
  pose proof quiet_refl. pose proof quiet_trans. pose proof quiet_print.
  pose proof quiet_assert.
  keeps_auto.
Qed.

Lemma performs_test_connection :
  performs (fun _ => [Connect JAIL_URL; Close]) 1 test_connection.
Proof.
  unfold test_connection.
  eapply performs_ext; [repeat performs_step | reflexivity | reflexivity].
Qed.

Definition query_of (e : Env) : json :=
  JObj [("type", JStr "query");
        ("channel_id", JStr "test-channel-123");
        ("workspace", JStr (workspace_dir e));
        ("prompt", JStr "Say hello");
        ("session_id", JNull)].

Lemma performs_test_query_message_protocol :
  performs (fun e => [Connect JAIL_URL; Send (query_of e); Recv 5000; Close]) 3
           test_query_message_protocol.
Proof.
  unfold test_query_message_protocol.
  assert (Hq : forall q,
    performs (fun _ => [Send q; Recv 5000]) 2
      (ws_send q ;;;
       print (Print "  - Sent query: Say hello") ;;;
       try_except ["asyncio.TimeoutError"]
         (response_raw <- wait_for_recv 5000 ;;
          check_query_reply response_raw)
         (fun _ =>
            print (Print "  - Timeout waiting for response (expected if no API key)") ;;;
            print (Print "  - PASSED (protocol validated)") ;;;
            ret JNull))).
  { intros q. eapply performs_ext.
    - eapply performs_bind; [apply performs_ws_send | intros _].
      eapply performs_bind; [apply performs_print | intros _].
      apply performs_try.
      + unfold wait_for_recv. apply always_performs_bind;
          [apply performs_perform | exact quiet_check_query_reply].
      + intros e. pose proof quiet_refl. pose proof quiet_trans.
        pose proof quiet_print. keeps_auto.
    - intros e. reflexivity.
    - reflexivity. }
  eapply performs_ext.
  - eapply performs_bind; [apply performs_print | intros _].
    eapply (performs_connect JAIL_URL (fun e => [Send (query_of e); Recv 5000]) 2).
    intros w. exact (Hq (query_of (env w)) w).
  - intros e. reflexivity.
  - reflexivity.
Qed.

Definition close_msg : json :=
  JObj [("type", JStr "close_session"); ("channel_id", JStr "test-channel-456")].

Lemma performs_test_close_session :
  performs (fun _ => [Connect JAIL_URL; Send close_msg; Close]) 2
           test_close_session.
Proof.
  unfold test_close_session. cbv zeta.
  eapply performs_ext; [repeat performs_step | reflexivity | reflexivity].
Qed.

Definition invalid_msg : json :=
  JObj [("type", JStr "invalid_type"); ("data", JStr "garbage")].

Lemma performs_test_invalid_message :
  performs (fun _ => [Connect JAIL_URL; Send invalid_msg; Recv 2000; Close]) 3
           test_invalid_message.
Proof.
  unfold test_invalid_message. cbv zeta.
  eapply performs_ext.
  - eapply performs_bind; [apply performs_print | intros _].
    eapply performs_connect.
    eapply performs_bind; [apply performs_ws_send | intros _].
    eapply performs_bind; [apply performs_print | intros _].
    apply performs_try.
    + unfold wait_for_recv. apply always_performs_bind;
        [apply performs_perform | exact quiet_check_invalid_reply].
    + intros e. pose proof quiet_refl. pose proof quiet_trans.
      pose proof quiet_print. keeps_auto.
  - intros e. reflexivity.
  - reflexivity.
Qed.

(** The operations of the four scenarios, one after the other. *)
Definition passing_run (e : Env) : list op :=
  [Connect JAIL_URL; Close;
   Connect JAIL_URL; Send (query_of e); Recv 5000; Close;
   Connect JAIL_URL; Send close_msg; Close;
   Connect JAIL_URL; Send invalid_msg; Recv 2000; Close].

Lemma performs_all_scenarios : performs passing_run 9 all_scenarios.
Proof.
  unfold all_scenarios.
  eapply performs_ext.
  - eapply performs_bind; [apply performs_test_connection | intros _].
    eapply performs_bind; [apply performs_test_query_message_protocol | intros _].
    eapply performs_bind; [apply performs_test_close_session | intros _].
    eapply performs_bind; [apply performs_test_invalid_message | intros _].
    repeat performs_step.
  - intros e. reflexivity.
  - reflexivity.
Qed.
End Passing.

(** X16.  When the four scenarios all return, the operations of the pass
    are these thirteen in this order, on four connections to [JAIL_URL] of
    which each is closed before the next is opened: connect and close;
    connect, send the query for channel ["test-channel-123"] with the
    workspace directory, wait 5 seconds for a reply, close; connect, send
    [close_session] for ["test-channel-456"], close; connect, send the
    message of type ["invalid_type"], wait 2 seconds for a reply, close.
    Nine of them are answered by the network: closing is not. *)
Theorem passing_run_operations `{PyRuntime} (w : World) :
  returned (fst (all_scenarios w)) = true ->
  let w' := snd (all_scenarios w) in
  ops w' =
    (ops w ++
     [Connect JAIL_URL; Close;
      Connect JAIL_URL;
      Send (JObj [("type", JStr "query");
                  ("channel_id", JStr "test-channel-123");
                  ("workspace", JStr (workspace_dir (env w)));
                  ("prompt", JStr "Say hello");
                  ("session_id", JNull)]);
      Recv 5000; Close;
      Connect JAIL_URL;
      Send (JObj [("type", JStr "close_session");
                  ("channel_id", JStr "test-channel-456")]);
      Close;
      Connect JAIL_URL;
      Send (JObj [("type", JStr "invalid_type"); ("data", JStr "garbage")]);
      Recv 2000; Close])%list /\
  cursor w' = (cursor w + 9)%nat /\
  env w' = env w.
Proof.
  intros Hr w'. destruct (performs_all_scenarios w Hr) as (He & Hc & Ho).
  subst w'. now repeat split.
Qed.

(** A world in which the probe is over and the server will answer the
    query with a text and the invalid message with an error. *)
Definition after_probe : World :=
  {| env := Sample.jail_with (Sample.frame Sample.error_reply);
     now := 1700000000003; cursor := 1; ops := []; stdout := [] |}.

Lemma passing_run_operations_witness :
  returned (fst (@all_scenarios Sample.runtime after_probe)) = true /\
  List.length (ops (snd (@all_scenarios Sample.runtime after_probe))) = 13%nat /\
  cursor (snd (@all_scenarios Sample.runtime after_probe)) = 10%nat.
Proof.
  split; [reflexivity |].
  destruct (@passing_run_operations Sample.runtime after_probe eq_refl)
    as (Ho & Hc & _).
  split; [rewrite Ho; reflexivity | exact Hc].
Defined.

(** *** Connections are scoped *)

(** A list of operations replayed against the network from its [k]-th
    event, [open] telling whether a connection is open: a connection is
    asked for only when none is open, messages are sent and replies awaited
    only on an open connection, only an open connection is closed, and none
    is open at the end.  Closing takes no event of the network. *)
Fixpoint well_bracketed (s : nat -> ws_event) (k : nat) (open : bool)
    (l : list op) : bool :=
  match l with
  | [] => negb open
  | Connect _ :: l' =>
      negb open &&
      match reply (s k) with
      | Delivers _ => well_bracketed s (S k) true l'
      | Fails _ => well_bracketed s (S k) false l'
      end
  | Send _ :: l' | Recv _ :: l' => open && well_bracketed s (S k) true l'
  | Close :: l' => open && well_bracketed s k false l'
  end.

(** Between two worlds of one run: what was performed in between is well
    bracketed, whatever follows, and leaves a connection open iff one was
    open before. *)
Definition scoped (open : bool) (w w' : World) : Prop :=
  env w' = env w /\
  exists l n,
    ops w' = (ops w ++ l)%list /\
    cursor w' = (cursor w + n)%nat /\
    forall l2,
      well_bracketed (script (env w)) (cursor w) open (l ++ l2) =
      well_bracketed (script (env w)) (cursor w + n) open l2.

Lemma scoped_refl b w : scoped b w w.
Proof.
  split; [reflexivity |]. exists [], O.
  rewrite app_nil_r, Nat.add_0_r. now repeat split.
Qed.

Lemma scoped_trans b w1 w2 w3 : scoped b w1 w2 -> scoped b w2 w3 -> scoped b w1 w3.
Proof.
  intros (He1 & l1 & n1 & Ho1 & Hc1 & H1) (He2 & l2 & n2 & Ho2 & Hc2 & H2).
  split; [congruence |]. exists (l1 ++ l2)%list, (n1 + n2)%nat.
  split; [now rewrite Ho2, Ho1, app_assoc |].
  split; [lia |]. intros l3.
  rewrite <- app_assoc, H1. rewrite He1, Hc1 in H2. rewrite H2.
  now rewrite Nat.add_assoc.
Qed.

Lemma scoped_quiet b w w' : quiet w w' -> now w' = now w -> scoped b w w'.
Proof.
  intros (He & Hc & Ho & _) _. split; [exact He |]. exists [], O.
  rewrite app_nil_r, Nat.add_0_r. now repeat split.
Qed.

Lemma scoped_print b ev : keeps (scoped b) (print ev).
Proof. intros w. apply scoped_quiet; [apply quiet_print | reflexivity]. Qed.

Lemma scoped_assert b c msg : keeps (scoped b) (assert_ c msg).
Proof. intros w. destruct c; apply scoped_refl. Qed.

Lemma scoped_sleep b ms : keeps (scoped b) (sleep ms).
Proof.
  intros w. split; [reflexivity |]. exists [], O. cbn.
  rewrite app_nil_r, Nat.add_0_r. now repeat split.
Qed.

Lemma scoped_send q : keeps (scoped true) (ws_send q).
Proof.
  intros w. unfold ws_send, bind, ret.
  pose proof (perform_world (Send q) w) as Hw.
  destruct (perform (Send q) w) as [[f | e] w1]; cbn [snd] in *; subst w1;
    (split; [reflexivity |]; exists [Send q], 1%nat; cbn;
     split; [reflexivity |]; split; [lia |]; intros l2;
     now rewrite Nat.add_1_r).
Qed.

Lemma scoped_recv t : keeps (scoped true) (wait_for_recv t).
Proof.
  intros w. unfold wait_for_recv. rewrite perform_world.
  split; [reflexivity |]. exists [Recv t], 1%nat. cbn.
  split; [reflexivity |]. split; [lia |]. intros l2. now rewrite Nat.add_1_r.
Qed.

Lemma scoped_connect {A} url (body : M A) :
  keeps (scoped true) body -> keeps (scoped false) (async_with_connect url body).
Proof.
  intros Hb w. unfold async_with_connect, bind, perform.
  destruct (reply (script (env w) (cursor w))) as [f | e] eqn:Hr;
    cbn [fst snd].
  - match goal with |- context [body ?w1] => specialize (Hb w1);
      destruct (body w1) as [r w2] end.
    cbn [snd ws_close env ops cursor] in *.
    destruct Hb as (He & l & n & Ho & Hc & Hl). cbn [env ops cursor] in *.
    split; [exact He |].
    exists (Connect url :: l ++ [Close])%list, (S n).
    split; [rewrite Ho, <- !app_assoc; reflexivity |].
    split; [cbn [cursor]; lia |]. intros l2.
    cbn [app well_bracketed negb andb]. rewrite Hr, <- app_assoc, Hl.
    cbn [app well_bracketed andb]. f_equal. lia.
  - split; [reflexivity |]. exists [Connect url], 1%nat. cbn [ops cursor env].
    split; [reflexivity |]. split; [lia |]. intros l2.
    cbn [app well_bracketed negb andb]. rewrite Hr. f_equal. lia.
Qed.

Ltac scoped_auto b :=
  pose proof (scoped_refl b); pose proof (scoped_trans b);
  pose proof (scoped_print b); pose proof (scoped_assert b);
  pose proof (scoped_sleep b); pose proof scoped_send;
  pose proof scoped_recv; keeps_auto.

Section Scoped.
Context `{PyRuntime}.

Lemma scoped_test_connection : keeps (scoped false) test_connection.
Proof.
  unfold test_connection.
  apply keeps_bind; [apply scoped_trans | apply scoped_print | intros _].
  apply scoped_connect. scoped_auto true.
Qed.

Lemma scoped_check_query_reply frame :
  keeps (scoped true) (check_query_reply frame).
Proof. unfold check_query_reply. scoped_auto true. Qed.

Lemma scoped_check_invalid_reply frame :
  keeps (scoped true) (check_invalid_reply frame).
Proof. unfold check_invalid_reply. scoped_auto true. Qed.

Lemma scoped_test_query_message_protocol :
  keeps (scoped false) test_query_message_protocol.
Proof.
  unfold test_query_message_protocol.
  apply keeps_bind; [apply scoped_trans | apply scoped_print | intros _].
  apply scoped_connect. intros w. cbv zeta.
  pose proof scoped_check_query_reply.
  match goal with |- context [ws_send ?q] => generalize q; intros q0 end.
  revert w.
  match goal with
  | |- forall w, scoped true w (snd (?m w)) => change (keeps (scoped true) m)
  end.
  scoped_auto true.
Qed.

Lemma scoped_test_close_session : keeps (scoped false) test_close_session.
Proof.
  unfold test_close_session.
  apply keeps_bind; [apply scoped_trans | apply scoped_print | intros _].
  apply scoped_connect. scoped_auto true.
Qed.

Lemma scoped_test_invalid_message : keeps (scoped false) test_invalid_message.
Proof.
  unfold test_invalid_message.
  apply keeps_bind; [apply scoped_trans | apply scoped_print | intros _].
  apply scoped_connect. pose proof scoped_check_invalid_reply. scoped_auto true.
Qed.

Lemma scoped_all_scenarios : keeps (scoped false) all_scenarios.
Proof.
  unfold all_scenarios.
  pose proof scoped_test_connection. pose proof scoped_test_query_message_protocol.
  pose proof scoped_test_close_session. pose proof scoped_test_invalid_message.
  scoped_auto false.
Qed.

Lemma scoped_run_scenarios : keeps (scoped false) run_scenarios.
Proof.
  unfold run_scenarios.
  apply keeps_bind; [apply scoped_trans | apply scoped_print | intros _].
  intros w. pose proof (scoped_all_scenarios w) as Ha.
  destruct (all_scenarios w) as [[b | e] w1]; cbn [snd] in *; [exact Ha |].
  destruct (isinstance e "AssertionError");
    [| destruct (isinstance e "Exception")];
    try exact Ha;
    (eapply scoped_trans; [exact Ha |]);
    match goal with
    | |- scoped false w1 (snd (?m w1)) =>
        revert w1 Ha; intros w1 _; revert w1; change (keeps (scoped false) m)
    end; scoped_auto false.
Qed.

Lemma scoped_wait_for_server_loop start timeout url :
  forall fuel w r w',
    wait_for_server_loop fuel start timeout url w = Some (r, w') ->
    scoped false w w'.
Proof.
  induction fuel as [| fuel IH]; intros w r w' E; [discriminate |].
  rewrite wait_for_server_loop_step in E.
  destruct (now w - start <? timeout);
    [| injection E as <- <-; apply scoped_refl].
  assert (Hc : keeps (scoped false) (async_with_connect url (ret true))).
  { apply scoped_connect. intros w0. apply scoped_refl. }
  specialize (Hc w).
  destruct (async_with_connect url (ret true) w) as [[b | e] w1];
    cbn [snd] in Hc; [injection E as <- <-; exact Hc |].
  destruct (existsb (isinstance e) ["ConnectionRefusedError"; "OSError"]);
    [| injection E as <- <-; exact Hc].
  apply IH in E. eapply scoped_trans; [exact Hc |].
  eapply scoped_trans; [apply scoped_sleep | exact E].
Qed.
End Scoped.

(** X17.  In every run of the jail runner, from the probes to the last
    scenario and however it ends, the operations on the network are well
    bracketed: a connection is asked for only when none is open, messages
    are sent and replies awaited only on an open connection, and every
    connection that was opened is closed again, also when the scenario that
    opened it raises. *)
Theorem connections_are_scoped `{PyRuntime} (e : Env) :
  exists r w,
    run_all_tests (boot e) = Some (r, w) /\
    well_bracketed (script e) 0 false (ops w) = true.
Proof.
  destruct (run_all_tests_total (boot e)) as (r & w & E).
  exists r, w. split; [exact E |].
  assert (Hs : scoped false (boot e) w).
  { unfold run_all_tests in E.
    assert (Ha : scoped false (boot e) (announce (boot e))).
    { unfold announce.
      match goal with
      | |- scoped false ?w0 (snd (?m ?w0)) =>
          generalize w0; change (keeps (scoped false) m)
      end.
      scoped_auto false. }
    destruct (wait_for_server JAIL_URL 10000 (announce (boot e)))
      as [[[[|] | ex] w1] |] eqn:Ew; try discriminate;
      apply scoped_wait_for_server_loop in Ew;
      pose proof (scoped_trans _ _ _ _ Ha Ew) as H1.
    - injection E as E. eapply scoped_trans; [exact H1 |].
      pose proof (scoped_run_scenarios w1) as Hr. rewrite E in Hr. exact Hr.
    - match type of E with
      | Some (?m w1) = _ =>
          assert (Hk : keeps (scoped false) m) by scoped_auto false;
          specialize (Hk w1)
      end.
      eapply scoped_trans; [exact H1 |].
      injection E as _ <-. exact Hk.
    - injection E as <- <-. exact H1. }
  destruct Hs as (_ & l & n & Ho & _ & Hl). cbn [boot ops env cursor app] in *.
  rewrite Ho. specialize (Hl []). rewrite app_nil_r in Hl. rewrite Hl.
  reflexivity.
Qed.

End JailScenarios.
